(** * DataProcessor: the in-memory analytics engine of [backend/data_processor.py]

    A shallow embedding of the [DataProcessor] class: the dual-copy store
    (original and working tables), the sales/claims merge builder, the filter
    pipeline, the query cache, the paginated raw view, the KPI summary and the
    single-cell mutation API, followed by the properties the specification
    states about them.

    Modelling conventions.

    - A [pandas.DataFrame] is a list of column names and a list of rows, each
      row a list of cells aligned with the column names ([wf_df]).  Columns
      carry no dtype: a cell is a tagged Python value ([value]).  Missing
      cells (NaN, NaT, None) are all [VNull].
    - Python [int] is [Z].  Python [float] is modelled by the canonical
      rationals [Qc]: arithmetic is exact, IEEE rounding, infinities and the
      int64 wrap-around of pandas integer columns are outside the model.
    - A raised exception is the [Raise] outcome of the [res] monad.  The
      object state left behind by an escaping exception is not modelled.
    - Library routines whose behaviour is fixed by Python or pandas and not by
      this repository ([str], [str.lower], [str.strip], parsing of numbers
      and dates out of strings, [strftime], the order [sort_values] produces)
      are the fields of the [Runtime] class; every definition and theorem
      holds for any implementation of them.
    - The wall clock read by [update_cell] is an explicit argument. *)

From Stdlib Require Import ZArith QArith Qcanon Qround String List Bool Lia.
From Stdlib Require Import DecimalString DecimalPos DecimalZ Permutation.
From stdpp Require Import base option list numbers strings gmap countable.

Open Scope Z_scope.
Open Scope string_scope.
Open Scope list_scope.

Set Warnings "-register-all".

(** ** Python values *)

Inductive value : Type :=
| VNull
| VBool (b : bool)
| VInt (z : Z)
| VFloat (q : Qc)
| VInf (neg : bool)
| VNaN
| VStr (s : string)
| VDate (t : Z).

Global Instance value_eq_dec : EqDecision value.
Proof. solve_decision. Defined.

Global Instance value_countable : Countable value.
Proof.
  refine (inj_countable'
    (λ v, match v with
          | VNull => inl (inl ())
          | VBool b => inl (inr b)
          | VInt z => inr (inl (inl z))
          | VFloat q => inr (inl (inr q))
          | VStr s => inr (inr (inl s))
          | VDate t => inr (inr (inr (inl t)))
          | VInf s => inr (inr (inr (inr (Some s))))
          | VNaN => inr (inr (inr (inr None)))
          end)
    (λ x, match x with
          | inl (inl ()) => VNull
          | inl (inr b) => VBool b
          | inr (inl (inl z)) => VInt z
          | inr (inl (inr q)) => VFloat q
          | inr (inr (inl s)) => VStr s
          | inr (inr (inr (inl t))) => VDate t
          | inr (inr (inr (inr (Some s)))) => VInf s
          | inr (inr (inr (inr None))) => VNaN
          end) _).
  by intros [].
Defined.

(** Exceptions that the modelled code can let escape. *)
Inductive exn : Type :=
| KeyError | ValueError | TypeError | AttributeError | ZeroDivisionError | OverflowError.

Inductive res (A : Type) : Type :=
| Ok (a : A)
| Raise (e : exn).
Arguments Ok {A} a.
Arguments Raise {A} e.

Global Instance res_ret : MRet res := λ A a, Ok a.
Global Instance res_bind : MBind res := λ A B f m,
  match m with Ok a => f a | Raise e => Raise e end.
Global Instance res_fmap : FMap res := λ A B f m,
  match m with Ok a => Ok (f a) | Raise e => Raise e end.

Definition is_Ok {A} (m : res A) : Prop := ∃ a, m = Ok a.

(** [try: ... except Exception: pass] around a computation of a new value. *)
Definition try_or {A} (m : res A) (fallback : A) : A :=
  match m with Ok a => a | Raise _ => fallback end.

(** The numeric reading of a finite number: [bool] is a subtype of [int],
    and [int] and [float] compare and add by value.  A finite float is kept
    as the exact rational it stands for; [VInf] and [VNaN] are the floats
    [inf], [-inf] and [nan]. *)
Definition Z2Qc (z : Z) : Qc := Q2Qc (inject_Z z).

Definition as_num (v : value) : option Qc :=
  match v with
  | VBool b => Some (if b then 1%Qc else 0%Qc)
  | VInt z => Some (Z2Qc z)
  | VFloat q => Some q
  | _ => None
  end.

(** [pd.isna]: [None], NaN and NaT are missing. *)
Definition isna (v : value) : bool :=
  match v with VNull | VNaN => true | _ => false end.

(** A Python float: a finite number, an infinity or nan. *)
Inductive pyfloat : Type :=
| Finite (q : Qc)
| Inf (neg : bool)
| NaN.

(** The float a number converts to in arithmetic; [None] for what is not a
    number. *)
Definition as_float (v : value) : option pyfloat :=
  match v with
  | VInf s => Some (Inf s)
  | VNaN => Some NaN
  | _ => Finite <$> as_num v
  end.

Definition of_float (x : pyfloat) : value :=
  match x with
  | Finite q => VFloat q
  | Inf s => VInf s
  | NaN => VNaN
  end.

(** [x < y] on floats: false whenever nan takes part. *)
Definition float_lt (x y : pyfloat) : bool :=
  match x, y with
  | Finite a, Finite b => bool_decide (a < b)%Qc
  | Inf true, Finite _ => true
  | Inf true, Inf false => true
  | Finite _, Inf false => true
  | _, _ => false
  end.

Definition float_add (x y : pyfloat) : pyfloat :=
  match x, y with
  | Finite a, Finite b => Finite (a + b)%Qc
  | NaN, _ => NaN
  | _, NaN => NaN
  | Inf s, Inf t => if bool_decide (s = t) then Inf s else NaN
  | Inf s, Finite _ => Inf s
  | Finite _, Inf s => Inf s
  end.

Definition float_mul (x y : pyfloat) : pyfloat :=
  match x, y with
  | Finite a, Finite b => Finite (a * b)%Qc
  | NaN, _ => NaN
  | _, NaN => NaN
  | Inf s, Inf t => Inf (xorb s t)
  | Inf s, Finite q =>
      if bool_decide (q = 0%Qc) then NaN else Inf (xorb s (bool_decide (q < 0)%Qc))
  | Finite q, Inf s =>
      if bool_decide (q = 0%Qc) then NaN else Inf (xorb s (bool_decide (q < 0)%Qc))
  end.

(** [a == b], as Python compares scalars and as pandas compares a column
    with a scalar element by element: a missing cell equals nothing. *)
Definition py_eq (a b : value) : bool :=
  match a, b with
  | VStr s, VStr t => bool_decide (s = t)
  | VDate s, VDate t => bool_decide (s = t)
  | VInf s, VInf t => bool_decide (s = t)
  | _, _ =>
      match as_num a, as_num b with
      | Some x, Some y => bool_decide (x = y)
      | _, _ => false
      end
  end.

(** Truth value of an object, as tested by [if x] and [x and y]. *)
Definition truthy (v : value) : bool :=
  match v with
  | VNull => false
  | VBool b => b
  | VInt z => negb (bool_decide (z = 0))
  | VFloat q => negb (bool_decide (q = 0%Qc))
  | VInf _ => true
  | VNaN => true
  | VStr s => negb (bool_decide (s = ""))
  | VDate _ => true
  end.

(** ** The runtime: Python and pandas routines the repository calls *)

Abbreviation row := (list value).

Class Runtime : Type := {
  (** [str(v)] *)
  py_str : value → string;
  (** [s.lower()] *)
  str_lower : string → string;
  (** [s.strip()] *)
  str_strip : string → string;
  (** [float(s)] and [int(s)] on a string; [None] is [ValueError] *)
  float_of_string : string → option pyfloat;
  int_of_string : string → option Z;
  (** [pd.to_datetime] on a scalar that is neither a timestamp nor missing:
      [None] when it raises, [Some None] for NaT, [Some (Some t)] otherwise *)
  parse_datetime : value → option (option Z);
  (** [t.strftime('%Y-%m-%d')] and [t.isoformat()] *)
  strftime_ymd : Z → string;
  isoformat : Z → string;
  (** the row order of [df.sort_values(col, ascending=asc)], by column
      position; [None] when the column holds values pandas cannot order *)
  sort_rows : nat → bool → list row → option (list row);
  sort_rows_perm : ∀ j asc rs rs', sort_rows j asc rs = Some rs' → rs' ≡ₚ rs;
}.

(** ** Data frames *)

Record DataFrame : Type := mkDF {
  columns : list string;
  rows : list row;
}.

Global Instance DataFrame_eq_dec : EqDecision DataFrame.
Proof. solve_decision. Defined.

(** Rectangular, with distinct column names. *)
Definition wf_df (df : DataFrame) : Prop :=
  NoDup (columns df) ∧ Forall (λ r : row, length r = length (columns df)) (rows df).

(** Position of a column name. *)
Fixpoint col_index (c : string) (cols : list string) : option nat :=
  match cols with
  | [] => None
  | c' :: cols' => if bool_decide (c' = c) then Some O else S <$> col_index c cols'
  end.

(** [c in df.columns] *)
Definition has_col (df : DataFrame) (c : string) : bool :=
  bool_decide (c ∈ columns df).

Definition cell (j : nat) (r : row) : value := nth j r VNull.

(** [df[c]]: the cells of a column, [KeyError] when there is none. *)
Definition get_column (df : DataFrame) (c : string) : res (list value) :=
  match col_index c (columns df) with
  | Some j => Ok (cell j <$> rows df)
  | None => Raise KeyError
  end.

(** [df[c] = vals]: overwrite the column in place, or append a new one. *)
Definition set_column (df : DataFrame) (c : string) (vals : list value) : DataFrame :=
  match col_index c (columns df) with
  | Some j => mkDF (columns df) (zip_with (λ r v, <[j:=v]> r) (rows df) vals)
  | None => mkDF (columns df ++ [c]) (zip_with (λ r v, r ++ [v]) (rows df) vals)
  end.

(** [df[c] = scalar] *)
Definition set_column_scalar (df : DataFrame) (c : string) (v : value) : DataFrame :=
  set_column df c (replicate (length (rows df)) v).

(** [df[mask]]: boolean-mask row selection. *)
Definition select_rows (df : DataFrame) (p : row → bool) : DataFrame :=
  mkDF (columns df) (List.filter p (rows df)).

(** ** Column Resolver ([_find_column]) *)

Fixpoint find_column (df : DataFrame) (candidates : list string) : option string :=
  match candidates with
  | [] => None
  | c :: cs => if has_col df c then Some c else find_column df cs
  end.

(** ** Results handed back to callers: JSON-like Python objects *)

Inductive pyobj : Type :=
| PVal (v : value)
| PList (xs : list pyobj)
| PDict (kvs : list (string * pyobj)).

(** [d[k]] on a result dictionary. *)
Fixpoint dict_get (k : string) (kvs : list (string * pyobj)) : option pyobj :=
  match kvs with
  | [] => None
  | (k', v) :: kvs' => if bool_decide (k' = k) then Some v else dict_get k kvs'
  end.

Definition obj_get (k : string) (o : pyobj) : option pyobj :=
  match o with PDict kvs => dict_get k kvs | _ => None end.

(** [df.to_dict('records')] *)
Definition to_records (df : DataFrame) : pyobj :=
  PList ((λ r : row, PDict (zip (columns df) (PVal <$> r))) <$> rows df).

(** ** The session object *)

(** A filter specification is a Python dict from dimension names to values;
    the finite map is its own canonical form, so it also stands for
    [tuple(sorted(filters.items()))] inside a cache key. *)
Abbreviation FilterSpec := (gmap string value).

Record ChangeLogEntry : Type := mkEntry {
  e_timestamp : string;
  e_table : string;
  e_row_id : Z;
  e_column : string;
  e_old_value : value;
  e_new_value : value;
}.

Record DataProcessor : Type := mkDP {
  original_sales_df : option DataFrame;
  original_claims_df : option DataFrame;
  sales_df : option DataFrame;
  claims_df : option DataFrame;
  merged_df : option DataFrame;
  change_log : list ChangeLogEntry;
  metrics_dirty : bool;
  query_cache : gmap (string * option (gmap string value)) pyobj;
}.

(** [__init__] ([_cached_metrics] is never read or written afterwards and is
    left out). *)
Definition init : DataProcessor :=
  mkDP None None None None None [] true ∅.

Definition set_merged (st : DataProcessor) (m : option DataFrame) : DataProcessor :=
  mkDP (original_sales_df st) (original_claims_df st) (sales_df st) (claims_df st)
       m (change_log st) (metrics_dirty st) (query_cache st).

Definition set_query_cache (st : DataProcessor)
    (c : gmap (string * option (gmap string value)) pyobj) : DataProcessor :=
  mkDP (original_sales_df st) (original_claims_df st) (sales_df st) (claims_df st)
       (merged_df st) (change_log st) (metrics_dirty st) c.

Definition set_metrics_dirty (st : DataProcessor) (b : bool) : DataProcessor :=
  mkDP (original_sales_df st) (original_claims_df st) (sales_df st) (claims_df st)
       (merged_df st) (change_log st) b (query_cache st).

Definition set_change_log (st : DataProcessor) (l : list ChangeLogEntry) : DataProcessor :=
  mkDP (original_sales_df st) (original_claims_df st) (sales_df st) (claims_df st)
       (merged_df st) l (metrics_dirty st) (query_cache st).

Definition set_working (st : DataProcessor) (s c : option DataFrame) : DataProcessor :=
  mkDP (original_sales_df st) (original_claims_df st) s c
       (merged_df st) (change_log st) (metrics_dirty st) (query_cache st).

Definition set_original (st : DataProcessor) (s c : option DataFrame) : DataProcessor :=
  mkDP s c (sales_df st) (claims_df st)
       (merged_df st) (change_log st) (metrics_dirty st) (query_cache st).

(** [df = self.sales_df if table == 'sales' else self.claims_df] *)
Definition is_sales (table : string) : bool := bool_decide (table = "sales").

Definition table_df (st : DataProcessor) (table : string) : option DataFrame :=
  if is_sales table then sales_df st else claims_df st.

(** In-place mutation of the frame [df] aliases. *)
Definition set_table_df (st : DataProcessor) (table : string) (df : DataFrame) : DataProcessor :=
  if is_sales table then set_working st (Some df) (claims_df st)
  else set_working st (sales_df st) (Some df).

(** ** Query Cache *)

(** [_get_cache_key] *)
Definition get_cache_key (method_name : string) (filters : option (gmap string value))
    : string * option (gmap string value) :=
  match filters with
  | None => (method_name, None)
  | Some f => if bool_decide (f = ∅) then (method_name, None) else (method_name, Some f)
  end.

(** [clear_cache] *)
Definition clear_cache (st : DataProcessor) : DataProcessor :=
  set_metrics_dirty (set_query_cache st ∅) true.

(** [filters = filters or {}] *)
Definition filters_or_empty (filters : option (gmap string value)) : gmap string value :=
  match filters with
  | None => ∅
  | Some f => f
  end.

(** ** Column aggregates *)

Definition as_int (v : value) : option Z :=
  match v with
  | VBool b => Some (if b then 1 else 0)
  | VInt z => Some z
  | _ => None
  end.

(** [a + b] on numbers: integers stay integers, a float operand makes the
    sum a float, anything else is a [TypeError]. *)
Definition py_add (a b : value) : res value :=
  match as_int a, as_int b with
  | Some x, Some y => Ok (VInt (x + y))
  | _, _ =>
      match as_float a, as_float b with
      | Some x, Some y => Ok (of_float (float_add x y))
      | _, _ => Raise TypeError
      end
  end.

(** The ['sum'] aggregate and [Series.sum()]: missing cells are skipped and
    the empty sum is zero. *)
Fixpoint sum_from (acc : value) (vs : list value) : res value :=
  match vs with
  | [] => Ok acc
  | v :: vs' =>
      if isna v then sum_from acc vs'
      else acc' ← py_add acc v; sum_from acc' vs'
  end.

Definition col_sum (vs : list value) : res value := sum_from (VInt 0) vs.

(** The ['size'] aggregate: the number of rows of the group. *)
Definition agg_size (group : list row) : value := VInt (Z.of_nat (length group)).

(** ** Merge Builder ([_build_merged]) *)

Definition policy_candidates : list string :=
  ["Policy No"; "PolicyNo"; "POLICY_NO"; "Policy Number"].

(** The keys of [groupby(col)]: the distinct non-missing values of the
    column.  pandas lists them in sorted order; the left join that consumes
    them looks rows up by key, so the order of first appearance is kept here. *)
Fixpoint group_keys (ks : list value) : list value :=
  match ks with
  | [] => []
  | k :: ks' =>
      if isna k then group_keys ks'
      else k :: List.filter (λ k', negb (py_eq k k')) (group_keys ks')
  end.

(** [(name, 'sum') if name in claims.columns else (key, 'size')] *)
Definition agg_sum_or_size (c : DataFrame) (name : string) (group : list row) : res value :=
  match col_index name (columns c) with
  | Some j => col_sum (cell j <$> group)
  | None => Ok (agg_size group)
  end.

Definition agg_columns (cp : string) : list string :=
  [cp; "claim_count"; "total_claim_amount"; "total_labor"; "total_parts"].

(** The rows of [claims] whose policy cell equals [k]. *)
Definition group_of (kj : nat) (k : value) (rs : list row) : list row :=
  List.filter (λ r, py_eq k (cell kj r)) rs.

Definition agg_row (c : DataFrame) (kj : nat) (k : value) : res row :=
  let g := group_of kj k (rows c) in
  tca ← agg_sum_or_size c "Total Auth Amount" g;
  tl ← agg_sum_or_size c "Labor" g;
  tp ← agg_sum_or_size c "Parts" g;
  Ok [k; agg_size g; tca; tl; tp].

(** [claims.groupby(cp).agg(...).reset_index()] *)
Definition claims_agg (c : DataFrame) (cp : string) : res DataFrame :=
  match col_index cp (columns c) with
  | None => Raise KeyError
  | Some kj =>
      rs ← mapM (agg_row c kj) (group_keys (cell kj <$> rows c));
      Ok (mkDF (agg_columns cp) rs)
  end.

(** Join keys match when equal, and a missing key matches a missing key. *)
Definition merge_key_eq (a b : value) : bool :=
  (isna a && isna b) || py_eq a b.

(** Overlapping column names receive the suffixes [_x] and [_y]. *)
Definition suffix_overlap (sfx : string) (others cols : list string) : list string :=
  (λ c, if bool_decide (c ∈ others) then String.append c sfx else c) <$> cols.

(** [l.merge(r, left_on=lk, right_on=rk, how='left')]: every left row, in
    order, once per matching right row, or once padded with missing cells.
    A key column of the same name on both sides appears once.  Cells carry
    values, not column types: a number keeps its value where pandas would
    store the column as floats. *)
Definition merge_left (l r : DataFrame) (lk rk : string) : DataFrame :=
  let li := default O (col_index lk (columns l)) in
  let ri := default O (col_index rk (columns r)) in
  let strip {A} (xs : list A) : list A :=
    if bool_decide (lk = rk) then delete ri xs else xs in
  let rcols := strip (columns r) in
  mkDF (suffix_overlap "_x" rcols (columns l) ++ suffix_overlap "_y" (columns l) rcols)
       (flat_map
          (λ lr,
             match List.filter (λ rr, merge_key_eq (cell li lr) (cell ri rr)) (rows r) with
             | [] => [lr ++ replicate (length rcols) VNull]
             | ms => (λ rr, lr ++ strip rr) <$> ms
             end)
          (rows l)).

(** [.fillna(0)] *)
Definition fillna0 (v : value) : value := if isna v then VInt 0 else v.

(** [x > 0] on a cell *)
Definition gt0 (v : value) : res value :=
  match as_float v with
  | Some x => Ok (VBool (float_lt (Finite 0) x))
  | None => Raise TypeError
  end.

(** [int(x)] truncates towards zero. *)
Definition Qc_trunc (q : Qc) : Z := Z.quot (Qnum q) (Z.pos (Qden q)).

(** [.astype(int)] on a cell *)
Definition astype_int (v : value) : res value :=
  match v with
  | VBool b => Ok (VInt (if b then 1 else 0))
  | VInt z => Ok (VInt z)
  | VFloat q => Ok (VInt (Qc_trunc q))
  | VInf _ => Raise ValueError
  | VNaN => Raise ValueError
  | VNull => Raise ValueError
  | VStr _ => Raise ValueError
  | VDate _ => Raise TypeError
  end.

Definition merged_linked (s c : DataFrame) (sp cp : string) : res DataFrame :=
  agg ← claims_agg c cp;
  let m := merge_left s agg sp cp in
  cc ← get_column m "claim_count";
  hc ← mapM (λ v, gt0 (fillna0 v)) cc;
  let m1 := set_column m "has_claim" hc in
  cc1 ← get_column m1 "claim_count";
  ci ← mapM (λ v, astype_int (fillna0 v)) cc1;
  let m2 := set_column m1 "claim_count" ci in
  tc ← get_column m2 "total_claim_amount";
  Ok (set_column m2 "total_claim_amount" (fillna0 <$> tc)).

Definition merged_unlinked (s : DataFrame) : DataFrame :=
  let m1 := set_column_scalar s "has_claim" (VBool false) in
  let m2 := set_column_scalar m1 "claim_count" (VInt 0) in
  set_column_scalar m2 "total_claim_amount" (VInt 0).

(** The frame [_build_merged] stores in [self.merged_df]. *)
Definition merged_view (s c : DataFrame) : res DataFrame :=
  match find_column s policy_candidates, find_column c policy_candidates with
  | Some sp, Some cp => merged_linked s c sp cp
  | _, _ => Ok (merged_unlinked s)
  end.

Definition build_merged (st : DataProcessor) : res DataProcessor :=
  match sales_df st, claims_df st with
  | Some s, Some c => m ← merged_view s c; Ok (set_merged st (Some m))
  | _, _ => Ok st
  end.

(** ** Validator ([_validate_value]) and [_serialize] *)

(** [str(n)] for an integer, as an f-string prints it. *)
Definition str_of_Z (z : Z) : string := NilZero.string_of_int (Z.to_int z).

(** ** The group-by pipelines of the breakdown methods

    Each breakdown method guards on missing data and missing columns and then
    runs a pandas group-by pipeline over the filtered frame.  The pipelines
    themselves are parameters: each is the code between the guards and the
    cache store of its method, a function of exactly the frames that code
    reads. *)
Class Pipelines : Type := {
  (** [get_sales_monthly], from [df.groupby(['Year', 'Month'])] on *)
  sales_monthly_body : DataFrame → res pyobj;
  (** [get_sales_dealers]: filtered sales, dealer column, filtered merged view *)
  sales_dealers_body : DataFrame → string → option DataFrame → res pyobj;
  (** [get_sales_products]: filtered sales, product column *)
  sales_products_body : DataFrame → string → res pyobj;
  (** [get_sales_vehicles] *)
  sales_vehicles_body : DataFrame → res pyobj;
  (** [get_claims_status], [get_claims_parts], [get_claims_trends] *)
  claims_status_body : DataFrame → res pyobj;
  claims_parts_body : DataFrame → res pyobj;
  claims_trends_body : DataFrame → res pyobj;
  (** [get_correlations], on the filtered merged view *)
  correlations_body : DataFrame → res pyobj;
  (** [get_insights], from the summary, the dealer breakdown and the
      monthly series *)
  insights_body : pyobj → pyobj → pyobj → res pyobj;
  (** [get_filter_options], on the stored sales and claims frames *)
  filter_options_body : DataFrame → option DataFrame → res pyobj;
}.

Section Engine.
Context {RT : Runtime} {PL : Pipelines}.

(** The integers [float] converts: those that round to a double, that is,
    those below [2^1024 - 2^970] in absolute value. *)
Definition float_limit : Z := 2 ^ 1024 - 2 ^ 970.

Definition in_float_range (z : Z) : bool := bool_decide (Z.abs z < float_limit).

(** [float(v)]: an integer beyond the float range raises [OverflowError]; a
    string may spell a number, an infinity or nan. *)
Definition py_float (v : value) : res pyfloat :=
  match v with
  | VBool b => Ok (Finite (if b then 1%Qc else 0%Qc))
  | VInt z => if in_float_range z then Ok (Finite (Z2Qc z)) else Raise OverflowError
  | VFloat q => Ok (Finite q)
  | VInf s => Ok (Inf s)
  | VNaN => Ok NaN
  | VStr s => match float_of_string s with Some x => Ok x | None => Raise ValueError end
  | VNull => Raise TypeError
  | VDate _ => Raise TypeError
  end.

(** [int(v)] *)
Definition py_int (v : value) : res Z :=
  match v with
  | VBool b => Ok (if b then 1 else 0)
  | VInt z => Ok z
  | VFloat q => Ok (Qc_trunc q)
  | VInf _ => Raise OverflowError
  | VNaN => Raise ValueError
  | VStr s => match int_of_string s with Some z => Ok z | None => Raise ValueError end
  | VNull => Raise TypeError
  | VDate _ => Raise TypeError
  end.

Definition numeric_cols (table : string) : list string :=
  if bool_decide (table = "sales") then
    ["Gross Premium"; "Risk Premium"; "CC"; "Cylinder"; "Start KM"; "End KM"; "Year"; "Month"]
  else if bool_decide (table = "claims") then
    ["Labor"; "Parts"; "Total Auth Amount"; "Claim KM"; "CC"; "Year"; "Month"]
  else [].

Definition valid_statuses : list string := ["Approved"; "Rejected"; "Reversed"].

(** The pair [(validated_value, error)]; [None] is Python's [None].  Only
    [ValueError] and [TypeError] are caught: the [OverflowError] of [float]
    on a huge integer escapes. *)
Definition validate_value (table column : string) (v : value)
    : res (value * option string) :=
  if bool_decide (column ∈ numeric_cols table) then
    match py_float v with
    | Ok val =>
        if bool_decide (column ∈ ["Gross Premium"; "Risk Premium"])
           && float_lt val (Finite 0)
        then Ok (VNull, Some (String.append column " must be >= 0"))
        else if bool_decide (column ∈ ["Total Auth Amount"; "Labor"; "Parts"])
                && float_lt val (Finite 0)
        then Ok (VNull, Some (String.append column " must be >= 0"))
        else Ok (of_float val, None)
    | Raise ValueError | Raise TypeError =>
        Ok (VNull, Some (String.append column " must be numeric"))
    | Raise e => Raise e
    end
  else if bool_decide (column = "Claim Status")
          && negb (existsb (λ s, py_eq v (VStr s)) valid_statuses)
  then Ok (VNull, Some "Claim Status must be one of: ['Approved', 'Rejected', 'Reversed']")
  else Ok (v, None).

(** [_serialize] *)
Definition serialize (v : value) : value :=
  match v with
  | VNaN => VNull
  | VDate t => VStr (isoformat t)
  | _ => v
  end.

(** ** Mutation API *)

Definition failure (msg : string) : pyobj :=
  PDict [("success", PVal (VBool false)); ("error", PVal (VStr msg))].

Definition msg_no_data : string := "No data loaded".
Definition msg_column_not_found (column : string) : string :=
  String.append "Column " (String.append column " not found").
Definition msg_immutable : string := "Cannot edit row ID".
Definition msg_row_not_found (row_id : Z) : string :=
  String.append "Row " (String.append (str_of_Z row_id) " not found").

(** [df['_row_id'] == row_id], row by row *)
Definition row_mask (ri : nat) (row_id : Z) (r : row) : bool :=
  py_eq (cell ri r) (VInt row_id).

(** [df.loc[mask, column] = v] *)
Definition loc_set (df : DataFrame) (mask : row → bool) (j : nat) (v : value) : DataFrame :=
  mkDF (columns df) ((λ r, if mask r then <[j:=v]> r else r) <$> rows df).

(** [update_cell]; [now] is [datetime.now().isoformat()]. *)
Definition update_cell (st : DataProcessor) (table : string) (row_id : Z)
    (column : string) (new_value : value) (now : string)
    : res (DataProcessor * pyobj) :=
  match table_df st table with
  | None => Ok (st, failure msg_no_data)
  | Some df =>
      match col_index column (columns df) with
      | None => Ok (st, failure (msg_column_not_found column))
      | Some j =>
          if bool_decide (column = "_row_id") then Ok (st, failure msg_immutable)
          else
            match col_index "_row_id" (columns df) with
            | None => Raise KeyError
            | Some ri =>
                match List.find (row_mask ri row_id) (rows df) with
                | None => Ok (st, failure (msg_row_not_found row_id))
                | Some r0 =>
                    let old_value := cell j r0 in
                    '(validated_value, error) ← validate_value table column new_value;
                    if negb (bool_decide (default "" error = ""))
                    then Ok (st, failure (default "" error))
                    else
                      let df' := loc_set df (row_mask ri row_id) j validated_value in
                      let st1 := set_table_df st table df' in
                      let st2 := clear_cache st1 in
                      let st3 := set_change_log st2
                        (change_log st2 ++
                         [mkEntry now table row_id column
                                  (serialize old_value) (serialize validated_value)]) in
                      st4 ← build_merged st3;
                      Ok (set_metrics_dirty st4 true,
                          PDict [("success", PVal (VBool true));
                                 ("old_value", PVal (serialize old_value));
                                 ("new_value", PVal (serialize validated_value))])
                end
            end
      end
  end.

(** [reset_data] *)
Definition reset_data (st : DataProcessor) : res (DataProcessor * pyobj) :=
  match original_sales_df st with
  | None => Ok (st, failure msg_no_data)
  | Some os =>
      match original_claims_df st with
      | None => Raise AttributeError
      | Some oc =>
          let st1 := set_working st (Some os) (Some oc) in
          st2 ← build_merged st1;
          let st3 := clear_cache st2 in
          let changes_reverted := length (change_log st3) in
          Ok (set_change_log st3 [],
              PDict [("success", PVal (VBool true));
                     ("changesReverted", PVal (VInt (Z.of_nat changes_reverted)))])
      end
  end.

(** [bulk_update]: one [update_cell] per entry, in order. *)
Fixpoint bulk_update_loop (st : DataProcessor) (table : string)
    (updates : list (Z * string * value)) (now : string)
    : res (DataProcessor * list pyobj) :=
  match updates with
  | [] => Ok (st, [])
  | (row_id, column, new_value) :: us =>
      '(st1, r) ← update_cell st table row_id column new_value now;
      '(st2, rs) ← bulk_update_loop st1 table us now;
      Ok (st2, r :: rs)
  end.

(** ** Loading *)

(** [df.insert(0, '_row_id', range(len(df)))] *)
Definition insert_row_id (df : DataFrame) : res DataFrame :=
  if has_col df "_row_id" then Raise ValueError
  else Ok (mkDF ("_row_id" :: columns df)
                (imap (λ i r, VInt (Z.of_nat i) :: r) (rows df))).

(** [load_excel], from the two sheets as [pd.read_excel] returns them. *)
Definition load_excel (st : DataProcessor) (sales_sheet claims_sheet : DataFrame)
    : res DataProcessor :=
  s ← insert_row_id (mkDF (str_strip <$> columns sales_sheet) (rows sales_sheet));
  c ← insert_row_id (mkDF (str_strip <$> columns claims_sheet) (rows claims_sheet));
  let st1 := set_original st (Some s) (Some c) in
  let st2 := clear_cache st1 in
  let st3 := set_working st2 (Some s) (Some c) in
  st4 ← build_merged st3;
  Ok (set_change_log (set_metrics_dirty st4 true) []).

(** The session [load_excel] leaves behind, whether it returns or raises: the
    assignments made before a failing statement stay on the object. *)
Definition load_excel_leaves (st : DataProcessor) (sales_sheet claims_sheet : DataFrame)
    : DataProcessor :=
  let s0 := mkDF (str_strip <$> columns sales_sheet) (rows sales_sheet) in
  let c0 := mkDF (str_strip <$> columns claims_sheet) (rows claims_sheet) in
  match insert_row_id s0 with
  | Raise _ => set_original st (Some s0) (Some c0)
  | Ok s =>
      match insert_row_id c0 with
      | Raise _ => set_original st (Some s) (Some c0)
      | Ok c =>
          let st3 := set_working (clear_cache (set_original st (Some s) (Some c)))
                                 (Some s) (Some c) in
          match build_merged st3 with
          | Raise _ => st3
          | Ok st4 => set_change_log (set_metrics_dirty st4 true) []
          end
      end
  end.

(** ** Filter Pipeline ([_apply_filters]) *)

(** [filters.get(k)] *)
Definition fget (f : gmap string value) (k : string) : value := default VNull (f !! k).

(** [filters.get(k) and filters[k] != 'All'] *)
Definition active (f : gmap string value) (k : string) : bool :=
  truthy (fget f k) && negb (py_eq (fget f k) (VStr "All")).

(** [result[result[c] == v]] for a column at position [j] *)
Definition keep_eq (df : DataFrame) (j : nat) (v : value) : DataFrame :=
  select_rows df (λ r, py_eq (cell j r) v).

(** An equality dimension whose column is one of several candidates. *)
Definition eq_stage (f : gmap string value) (k : string) (candidates : list string)
    (df : DataFrame) : DataFrame :=
  if active f k then
    match find_column df candidates with
    | Some c =>
        match col_index c (columns df) with
        | Some j => keep_eq df j (fget f k)
        | None => df
        end
    | None => df
    end
  else df.

(** An equality dimension compared as an integer ([int(filters[k])]). *)
Definition int_stage (f : gmap string value) (k c : string) (df : DataFrame) : res DataFrame :=
  if active f k then
    match col_index c (columns df) with
    | Some j => n ← py_int (fget f k); Ok (keep_eq df j (VInt n))
    | None => Ok df
    end
  else Ok df.

(** [pd.to_datetime] on one value; a timestamp is itself, a missing value
    is NaT ([None]). *)
Definition to_datetime (v : value) : res (option Z) :=
  match v with
  | VDate t => Ok (Some t)
  | VNull => Ok None
  | VNaN => Ok None
  | _ => match parse_datetime v with Some d => Ok d | None => Raise ValueError end
  end.

(** Comparison of timestamps; NaT compares false with everything. *)
Definition ts_cmp (cmp : Z → Z → bool) (a b : option Z) : bool :=
  match a, b with
  | Some x, Some y => cmp x y
  | _, _ => false
  end.

Definition date_candidates : list string := ["Policy Sold Date"; "Failure Date"].

(** The body of the [try] of a date bound: convert the column, convert the
    bound, keep the rows whose date compares true. *)
Definition date_try (cmp : Z → Z → bool) (df : DataFrame) (j : nat) (bound : value)
    : res DataFrame :=
  dates ← mapM to_datetime (cell j <$> rows df);
  b ← to_datetime bound;
  Ok (mkDF (columns df)
           (fst <$> List.filter (λ rd : row * option Z, ts_cmp cmp (snd rd) b)
                                (zip (rows df) dates))).

(** A date bound: [if filters.get(k): ... try: ... except Exception: pass]. *)
Definition date_stage (cmp : Z → Z → bool) (f : gmap string value) (k : string)
    (df : DataFrame) : DataFrame :=
  if truthy (fget f k) then
    match find_column df date_candidates with
    | Some c =>
        match col_index c (columns df) with
        | Some j => try_or (date_try cmp df j (fget f k)) df
        | None => df
        end
    | None => df
    end
  else df.

(** [needle in s] on strings *)
Fixpoint is_substring (needle s : string) : bool :=
  String.prefix needle s ||
  match s with
  | EmptyString => false
  | String _ s' => is_substring needle s'
  end.

(** Free-text search over every cell of the row. *)
Definition search_stage (f : gmap string value) (df : DataFrame) : res DataFrame :=
  if truthy (fget f "search") then
    match fget f "search" with
    | VStr s =>
        let search := str_lower s in
        Ok (select_rows df
              (λ r, existsb (λ v, is_substring search (str_lower (py_str v))) r))
    | _ => Raise AttributeError
    end
  else Ok df.

Definition apply_filters (df : DataFrame) (f : gmap string value) : res DataFrame :=
  let r1 := eq_stage f "dealer" ["Dealer"; "Dealer AJA"] df in
  let r2 := eq_stage f "product" ["Product"; "Coverage"] r1 in
  r3 ← int_stage f "year" "Year" r2;
  r4 ← int_stage f "month" "Month" r3;
  let r5 := eq_stage f "make" ["Make"] r4 in
  let r6 := date_stage Z.geb f "date_from" r5 in
  let r7 := date_stage Z.leb f "date_to" r6 in
  r8 ← search_stage f r7;
  Ok (eq_stage f "claim_status" ["Claim Status"] r8).

(** ** Python arithmetic used by the KPIs *)

(** [x / y] on floats: a zero divisor raises whatever the dividend. *)
Definition float_div (x y : pyfloat) : res pyfloat :=
  match y with
  | Finite b =>
      if bool_decide (b = 0%Qc) then Raise ZeroDivisionError
      else match x with
           | Finite a => Ok (Finite (a / b)%Qc)
           | Inf s => Ok (Inf (xorb s (bool_decide (b < 0)%Qc)))
           | NaN => Ok NaN
           end
  | Inf _ => match x with Finite _ => Ok (Finite 0%Qc) | _ => Ok NaN end
  | NaN => Ok NaN
  end.

(** [a / b] (true division) *)
Definition py_truediv (a b : value) : res value :=
  match as_float a, as_float b with
  | Some x, Some y => of_float <$> float_div x y
  | _, _ => Raise TypeError
  end.

(** [a * b] on numbers *)
Definition py_mul (a b : value) : res value :=
  match as_int a, as_int b with
  | Some x, Some y => Ok (VInt (x * y))
  | _, _ =>
      match as_float a, as_float b with
      | Some x, Some y => Ok (of_float (float_mul x y))
      | _, _ => Raise TypeError
      end
  end.

(** [a > 0] *)
Definition py_pos (a : value) : res bool :=
  match as_float a with
  | Some x => Ok (float_lt (Finite 0) x)
  | None => Raise TypeError
  end.

(** Nearest integer, ties to the even one. *)
Definition round_half_even (q : Q) : Z :=
  let fl := Qfloor q in
  match Qcompare (q - inject_Z fl) (1 # 2) with
  | Lt => fl
  | Gt => fl + 1
  | Eq => if Z.even fl then fl else fl + 1
  end.

(** [round(v, ndigits)] for [ndigits >= 0]: an [int] is returned as it is. *)
Definition py_round (v : value) (ndigits : nat) : res value :=
  match v with
  | VInt z => Ok (VInt z)
  | VBool b => Ok (VInt (if b then 1 else 0))
  | VFloat q =>
      let scale := inject_Z (10 ^ Z.of_nat ndigits) in
      Ok (VFloat (Q2Qc (inject_Z (round_half_even (q * scale)) / scale)))
  | VInf s => Ok (VInf s)
  | VNaN => Ok VNaN
  | _ => Raise TypeError
  end.

(** ** Summary / KPIs ([get_summary]) *)

(** [float(df[c].sum()) if c in df.columns else 0] *)
Definition total_of (df : DataFrame) (c : string) : res value :=
  match col_index c (columns df) with
  | Some j => s ← col_sum (cell j <$> rows df); x ← py_float s; Ok (of_float x)
  | None => Ok (VInt 0)
  end.

(** [(num / den * 100) if den > 0 else 0] and [(num / den) if den > 0 else 0] *)
Definition percent_of (num den : value) : res value :=
  py_pos den ≫= λ p : bool,
  if p then q ← py_truediv num den; py_mul q (VInt 100) else Ok (VInt 0).

Definition ratio_of (num den : value) : res value :=
  py_pos den ≫= λ p : bool,
  if p then py_truediv num den else Ok (VInt 0).

(** [int(df[c].nunique()) if c in df.columns else 0] *)
Definition nunique_of (df : DataFrame) (c : string) : value :=
  match col_index c (columns df) with
  | Some j => VInt (Z.of_nat (length (group_keys (cell j <$> rows df))))
  | None => VInt 0
  end.

Definition frame_len (df : DataFrame) : value := VInt (Z.of_nat (length (rows df))).

(** [self._apply_filters(self.claims_df, filters)]: on [None] the call
    fails at [df.copy()]. *)
Definition apply_filters_opt (df : option DataFrame) (f : gmap string value) : res DataFrame :=
  match df with
  | Some d => apply_filters d f
  | None => Raise AttributeError
  end.

(** The part of [get_summary] after the cache lookup and the [None] guard. *)
Definition summary_body (sdf : DataFrame) (cdf mdf : option DataFrame)
    (f : gmap string value) : res pyobj :=
  sales ← apply_filters sdf f;
  claims ← apply_filters_opt cdf f;
  total_premium ← total_of sales "Gross Premium";
  total_risk_premium ← total_of sales "Risk Premium";
  total_claims_amount ← total_of claims "Total Auth Amount";
  let total_policies := frame_len sales in
  let total_claims := frame_len claims in
  policies_with_claims ←
    match mdf with
    | None => Ok (VInt 0)
    | Some m =>
        merged_filtered ← apply_filters m f;
        hc ← get_column merged_filtered "has_claim";
        s ← col_sum hc;
        n ← py_int s;
        Ok (VInt n)
    end;
  claim_rate ← percent_of policies_with_claims total_policies;
  loss_ratio ← percent_of total_claims_amount total_premium;
  avg_claim_cost ← ratio_of total_claims_amount total_claims;
  avg_premium ← ratio_of total_premium total_policies;
  r_total_premium ← py_round total_premium 2;
  r_total_risk_premium ← py_round total_risk_premium 2;
  r_total_claims_amount ← py_round total_claims_amount 2;
  r_claim_rate ← py_round claim_rate 1;
  r_loss_ratio ← py_round loss_ratio 1;
  r_avg_claim_cost ← py_round avg_claim_cost 2;
  r_avg_premium ← py_round avg_premium 2;
  Ok (PDict [("totalPremium", PVal r_total_premium);
             ("totalRiskPremium", PVal r_total_risk_premium);
             ("totalClaimsAmount", PVal r_total_claims_amount);
             ("totalPolicies", PVal total_policies);
             ("totalClaims", PVal total_claims);
             ("claimRate", PVal r_claim_rate);
             ("lossRatio", PVal r_loss_ratio);
             ("avgClaimCost", PVal r_avg_claim_cost);
             ("avgPremium", PVal r_avg_premium);
             ("policiesWithClaims", PVal policies_with_claims);
             ("uniqueMakes", PVal (nunique_of sales "Make"))]).

(** Outcome of the step behind a cache miss: an early [return] that stores
    nothing, or a result that is stored under the key and returned. *)
Inductive computed : Type :=
| Early (v : pyobj)
| Fresh (v : pyobj).

(** The memoisation every aggregation method opens and closes with:
    [if cache_key in self._query_cache: return self._query_cache[cache_key]]
    ... [self._query_cache[cache_key] = res; return res]. *)
Definition cached_query (st : DataProcessor) (key : string * option (gmap string value))
    (compute : DataProcessor → res (DataProcessor * computed))
    : res (DataProcessor * pyobj) :=
  match query_cache st !! key with
  | Some v => Ok (st, v)
  | None =>
      '(st1, r) ← compute st;
      match r with
      | Early v => Ok (st1, v)
      | Fresh v => Ok (set_query_cache st1 (<[key:=v]> (query_cache st1)), v)
      end
  end.

Definition get_summary (st : DataProcessor) (filters : option (gmap string value))
    : res (DataProcessor * pyobj) :=
  cached_query st (get_cache_key "get_summary" filters)
    (λ st,
       match sales_df st with
       | None => Ok (st, Early (PDict []))
       | Some sdf =>
           r ← summary_body sdf (claims_df st) (merged_df st) (filters_or_empty filters);
           Ok (st, Fresh r)
       end).

(** ** Paginated raw view ([get_raw_data]) *)

(** [xs[start:end]] with Python's treatment of negative and overlong bounds. *)
Definition slice_bound (n i : Z) : Z :=
  if bool_decide (i < 0) then Z.max 0 (i + n) else Z.min i n.

Definition py_slice {A} (xs : list A) (start stop : Z) : list A :=
  let n := Z.of_nat (length xs) in
  let a := slice_bound n start in
  let b := slice_bound n stop in
  take (Z.to_nat (b - a)) (drop (Z.to_nat a) xs).

(** Columns of dtype [datetime64[ns]]: those holding only timestamps and
    missing cells. *)
Definition is_datetime_cell (v : value) : bool :=
  match v with VDate _ | VNull => true | _ => false end.

Definition datetime_col (df : DataFrame) (j : nat) : bool :=
  forallb (λ r, is_datetime_cell (cell j r)) (rows df).

(** [result[col] = result[col].dt.strftime('%Y-%m-%d')] on one cell *)
Definition strftime_cell (v : value) : value :=
  match v with VDate t => VStr (strftime_ymd t) | _ => v end.

(** The loop formatting every datetime column; [src] is the stored frame
    the page was cut from, which fixes the column dtypes. *)
Definition format_dates (src : DataFrame) (rs : list row) : list row :=
  (λ r, imap (λ j v, if datetime_col src j then strftime_cell v else v) r) <$> rs.

Definition empty_page : pyobj :=
  PDict [("rows", PList []); ("total", PVal (VInt 0));
         ("page", PVal (VInt 1)); ("pages", PVal (VInt 0))].

(** [df.sort_values(sort_by, ascending=...)] when [sort_by] is given and is
    a column. *)
Definition sort_stage (df : DataFrame) (sort_by : option string) (sort_dir : string)
    : res DataFrame :=
  match sort_by with
  | None => Ok df
  | Some c =>
      if bool_decide (c = "") then Ok df
      else
        match col_index c (columns df) with
        | None => Ok df
        | Some j =>
            match sort_rows j (bool_decide (sort_dir = "asc")) (rows df) with
            | Some rs => Ok (mkDF (columns df) rs)
            | None => Raise TypeError
            end
        end
  end.

(** [max(1, (total + limit - 1) // limit)] *)
Definition page_count (total limit : Z) : Z := Z.max 1 ((total + limit - 1) `div` limit).

(** [max(1, min(page, pages))] *)
Definition clamp_page (page pages : Z) : Z := Z.max 1 (Z.min page pages).

Definition get_raw_data (st : DataProcessor) (table : string) (page limit : Z)
    (filters : option (gmap string value)) (sort_by : option string) (sort_dir : string)
    : res pyobj :=
  let stored :=
    if bool_decide (table = "sales") then Some (sales_df st)
    else if bool_decide (table = "claims") then Some (claims_df st)
    else None in
  match stored with
  | None => Ok empty_page
  | Some None => Ok empty_page
  | Some (Some src) =>
      df ← apply_filters src (filters_or_empty filters);
      df ← sort_stage df sort_by sort_dir;
      let total := Z.of_nat (length (rows df)) in
      if bool_decide (limit = 0) then Raise ZeroDivisionError
      else
        let pages := page_count total limit in
        let page := clamp_page page pages in
        let start := (page - 1) * limit in
        let stop := start + limit in
        let result := mkDF (columns df) (format_dates src (py_slice (rows df) start stop)) in
        let cols := List.filter (λ c, negb (bool_decide (c = "_row_id"))) (columns result) in
        Ok (PDict [("rows", to_records result);
                   ("columns", PList ((λ c, PVal (VStr c)) <$> cols));
                   ("total", PVal (VInt total));
                   ("page", PVal (VInt page));
                   ("pages", PVal (VInt pages));
                   ("limit", PVal (VInt limit))])
  end.

(** ** Breakdown, trend and insight methods *)

Definition empty_list : pyobj := PList [].
Definition empty_dict : pyobj := PDict [].

(** The common shape of a cached breakdown over one stored frame: return
    [empty] when the frame is [None], filter it, then either leave early on a
    failed column guard or run the pipeline and store its result. *)
Definition breakdown (st : DataProcessor) (name : string)
    (filters : option (gmap string value)) (stored : option DataFrame) (empty : pyobj)
    (pipeline : DataFrame → res computed) : res (DataProcessor * pyobj) :=
  cached_query st (get_cache_key name filters)
    (λ st,
       match stored with
       | None => Ok (st, Early empty)
       | Some src =>
           df ← apply_filters src (filters_or_empty filters);
           r ← pipeline df;
           Ok (st, r)
       end).

Definition get_sales_monthly (st : DataProcessor) (filters : option (gmap string value))
    : res (DataProcessor * pyobj) :=
  breakdown st "get_sales_monthly" filters (sales_df st) empty_list
    (λ df,
       if negb (has_col df "Year") || negb (has_col df "Month") then Ok (Early empty_list)
       else Fresh <$> sales_monthly_body df).

Definition get_sales_dealers (st : DataProcessor) (filters : option (gmap string value))
    : res (DataProcessor * pyobj) :=
  breakdown st "get_sales_dealers" filters (sales_df st) empty_list
    (λ df,
       match find_column df ["Dealer"] with
       | None => Ok (Early empty_list)
       | Some dealer_col =>
           merged_f ←
             match merged_df st with
             | None => Ok None
             | Some m => Some <$> apply_filters m (filters_or_empty filters)
             end;
           Fresh <$> sales_dealers_body df dealer_col merged_f
       end).

Definition get_sales_products (st : DataProcessor) (filters : option (gmap string value))
    : res (DataProcessor * pyobj) :=
  breakdown st "get_sales_products" filters (sales_df st) empty_list
    (λ df,
       match find_column df ["Product"; "Coverage"] with
       | None => Ok (Early empty_list)
       | Some prod_col => Fresh <$> sales_products_body df prod_col
       end).

Definition get_sales_vehicles (st : DataProcessor) (filters : option (gmap string value))
    : res (DataProcessor * pyobj) :=
  breakdown st "get_sales_vehicles" filters (sales_df st) empty_list
    (λ df,
       if negb (has_col df "Make") then Ok (Early empty_list)
       else Fresh <$> sales_vehicles_body df).

Definition get_claims_status (st : DataProcessor) (filters : option (gmap string value))
    : res (DataProcessor * pyobj) :=
  breakdown st "get_claims_status" filters (claims_df st) empty_list
    (λ df,
       if negb (has_col df "Claim Status") then Ok (Early empty_list)
       else Fresh <$> claims_status_body df).

Definition get_claims_parts (st : DataProcessor) (filters : option (gmap string value))
    : res (DataProcessor * pyobj) :=
  breakdown st "get_claims_parts" filters (claims_df st) empty_list
    (λ df,
       if negb (has_col df "Part Type") then Ok (Early empty_list)
       else Fresh <$> claims_parts_body df).

Definition get_claims_trends (st : DataProcessor) (filters : option (gmap string value))
    : res (DataProcessor * pyobj) :=
  breakdown st "get_claims_trends" filters (claims_df st) empty_list
    (λ df,
       if negb (has_col df "Year") || negb (has_col df "Month") then Ok (Early empty_list)
       else Fresh <$> claims_trends_body df).

(** [df.drop(columns=['_row_id'], errors='ignore')] *)
Definition drop_row_id (df : DataFrame) : DataFrame :=
  match col_index "_row_id" (columns df) with
  | Some j => mkDF (delete j (columns df)) (delete j <$> rows df)
  | None => df
  end.

(** [get_claims_recent]; the limit is part of the cached method name. *)
Definition get_claims_recent (st : DataProcessor) (filters : option (gmap string value))
    (limit : Z) : res (DataProcessor * pyobj) :=
  cached_query st
    (String.append "get_claims_recent_" (str_of_Z limit),
     snd (get_cache_key "get_claims_recent" filters))
    (λ st,
       match claims_df st with
       | None => Ok (st, Early empty_list)
       | Some src =>
           df ← apply_filters src (filters_or_empty filters);
           df ← sort_stage df (find_column df ["Failure Date"; "Authorized Date"]) "desc";
           let result :=
             mkDF (columns df) (format_dates src (py_slice (rows df) 0 limit)) in
           Ok (st, Fresh (to_records (drop_row_id result)))
       end).

Definition get_correlations (st : DataProcessor) (filters : option (gmap string value))
    : res (DataProcessor * pyobj) :=
  breakdown st "get_correlations" filters (merged_df st) empty_dict
    (λ df, Fresh <$> correlations_body df).

(** [get_insights] reads the summary, the dealer breakdown and the monthly
    series through their cached methods. *)
Definition get_insights (st : DataProcessor) (filters : option (gmap string value))
    : res (DataProcessor * pyobj) :=
  cached_query st (get_cache_key "get_insights" filters)
    (λ st,
       match sales_df st with
       | None => Ok (st, Early empty_list)
       | Some _ =>
           '(st1, summary) ← get_summary st filters;
           '(st2, dealers) ← get_sales_dealers st1 filters;
           '(st3, monthly) ← get_sales_monthly st2 filters;
           r ← insights_body summary dealers monthly;
           Ok (st3, Fresh r)
       end).

(** [get_filter_options] (not cached) *)
Definition get_filter_options (st : DataProcessor) : res pyobj :=
  match sales_df st with
  | None => Ok empty_dict
  | Some s => filter_options_body s (claims_df st)
  end.

(** [get_data_summary_for_ai]: the summary, then the f-string, which reads
    these keys of it in this order; the text itself is not modelled. *)
Definition ai_summary_keys : list string :=
  ["totalPolicies"; "totalPremium"; "totalClaims"; "totalClaimsAmount"; "claimRate";
   "lossRatio"; "avgClaimCost"; "avgPremium"; "uniqueDealers"; "uniqueMakes"].

Definition get_data_summary_for_ai (st : DataProcessor)
    (filters : option (gmap string value)) : res (DataProcessor * list pyobj) :=
  '(st1, summary) ← get_summary st filters;
  match summary with
  | PDict [] => Ok (st1, [])
  | _ =>
      _ ← get_filter_options st1;
      fields ← mapM (λ k, match obj_get k summary with
                          | Some v => Ok v
                          | None => Raise KeyError
                          end) ai_summary_keys;
      Ok (st1, fields)
  end.

End Engine.

(** ** Loaded sessions *)

Definition is_int_cell (v : value) : bool :=
  match v with VInt _ => true | _ => false end.

(** A frame as [load_excel] stores it: rectangular, with distinct column
    names, the first of them ['_row_id'], whose cells are distinct integers. *)
Definition id_frame (df : DataFrame) : Prop :=
  wf_df df ∧ head (columns df) = Some "_row_id" ∧
  NoDup (cell 0 <$> rows df) ∧ Forall (λ r, is_int_cell (cell 0 r)) (rows df).

Global Instance exn_eq_dec : EqDecision exn.
Proof. solve_decision. Defined.
Global Instance res_eq_dec `{EqDecision A} : EqDecision (res A).
Proof. solve_decision. Defined.

(** Data is loaded: both snapshots and both working copies are frames with
    row identifiers, the snapshots can be merged, and the merged view is the
    one built from the working copies. *)
Definition loaded (st : DataProcessor) : Prop :=
  match original_sales_df st, original_claims_df st, sales_df st, claims_df st, merged_df st with
  | Some os, Some oc, Some s, Some c, Some m =>
      id_frame os ∧ id_frame oc ∧ id_frame s ∧ id_frame c ∧
      merged_view s c = Ok m ∧
      match merged_view os oc with Ok _ => True | Raise _ => False end
  | _, _, _, _, _ => False
  end.

Global Instance wf_df_dec df : Decision (wf_df df).
Proof. unfold wf_df. apply _. Defined.
Global Instance id_frame_dec df : Decision (id_frame df).
Proof. unfold id_frame. apply _. Defined.
Global Instance loaded_dec st : Decision (loaded st).
Proof.
  unfold loaded.
  destruct (original_sales_df st), (original_claims_df st), (sales_df st),
    (claims_df st), (merged_df st); try apply _.
  destruct (merged_view d d0); apply _.
Defined.

(** [r['success']] is [True]. *)
Definition succeeded (r : pyobj) : Prop := obj_get "success" r = Some (PVal (VBool true)).

(** The cell [update_cell] addresses: the one it reads as [old_value]. *)
Definition read_cell (df : DataFrame) (row_id : Z) (column : string) : option value :=
  j ← col_index column (columns df);
  ri ← col_index "_row_id" (columns df);
  r ← List.find (row_mask ri row_id) (rows df);
  Some (cell j r).

(** The snapshot taken at load time of the table a name addresses. *)
Definition original_df (st : DataProcessor) (table : string) : option DataFrame :=
  if is_sales table then original_sales_df st else original_claims_df st.

(** Sheets as the parser hands them over: rectangular, with column names
    that stay distinct once stripped. *)
Definition sheet_ok `{Runtime} (sheet : DataFrame) : Prop :=
  wf_df (mkDF (str_strip <$> columns sheet) (rows sheet)).

(** States of a session: a load, then mutations, resets and queries. *)
Inductive reachable `{Runtime} : DataProcessor → Prop :=
| reach_load st0 s c st :
    sheet_ok s → sheet_ok c → load_excel st0 s c = Ok st → reachable st
| reach_update st table row_id column v now st' r :
    reachable st → update_cell st table row_id column v now = Ok (st', r) →
    reachable st'
| reach_reset st st' r :
    reachable st → reset_data st = Ok (st', r) → reachable st'
| reach_summary st filters st' r :
    reachable st → get_summary st filters = Ok (st', r) → reachable st'.

(** ** The cached operations, by name *)

Inductive query : Type :=
| QSummary
| QSalesMonthly
| QSalesDealers
| QSalesProducts
| QSalesVehicles
| QClaimsStatus
| QClaimsParts
| QClaimsTrends
| QClaimsRecent (limit : Z)
| QCorrelations
| QInsights.

Global Instance query_eq_dec : EqDecision query.
Proof. solve_decision. Defined.

Definition query_name (q : query) : string :=
  match q with
  | QSummary => "get_summary"
  | QSalesMonthly => "get_sales_monthly"
  | QSalesDealers => "get_sales_dealers"
  | QSalesProducts => "get_sales_products"
  | QSalesVehicles => "get_sales_vehicles"
  | QClaimsStatus => "get_claims_status"
  | QClaimsParts => "get_claims_parts"
  | QClaimsTrends => "get_claims_trends"
  | QClaimsRecent limit => String.append "get_claims_recent_" (str_of_Z limit)
  | QCorrelations => "get_correlations"
  | QInsights => "get_insights"
  end.

(** The key under which an operation stores its result for a FilterSpec. *)
Definition query_key (q : query) (filters : option (gmap string value))
    : string * option (gmap string value) :=
  (query_name q, snd (get_cache_key "" filters)).

Section Queries.
Context {RT : Runtime} {PL : Pipelines}.

Definition run_query (q : query) (st : DataProcessor)
    (filters : option (gmap string value)) : res (DataProcessor * pyobj) :=
  match q with
  | QSummary => get_summary st filters
  | QSalesMonthly => get_sales_monthly st filters
  | QSalesDealers => get_sales_dealers st filters
  | QSalesProducts => get_sales_products st filters
  | QSalesVehicles => get_sales_vehicles st filters
  | QClaimsStatus => get_claims_status st filters
  | QClaimsParts => get_claims_parts st filters
  | QClaimsTrends => get_claims_trends st filters
  | QClaimsRecent limit => get_claims_recent st filters limit
  | QCorrelations => get_correlations st filters
  | QInsights => get_insights st filters
  end.

(** What an operation computes from the current working tables and merged
    view: its answer on the same session with the cache emptied. *)
Definition from_scratch (q : query) (st : DataProcessor)
    (filters : option (gmap string value)) : res pyobj :=
  snd <$> run_query q (set_query_cache st ∅) filters.

(** Every cache entry is the stored result of some operation and FilterSpec,
    and equals what that operation computes from the current tables. *)
Definition cache_sound (st : DataProcessor) : Prop :=
  ∀ k v, query_cache st !! k = Some v →
    ∃ q filters, k = query_key q filters ∧ from_scratch q st filters = Ok v.

End Queries.


(** * A small runtime and fixtures for closed examples

    [ascii_runtime] implements the [Runtime] routines for plain data: ASCII
    letters, decimal integers, and calendar dates [YYYY-MM-DD] kept as the
    number [YYYYMMDD].  The closed examples below run on it. *)

Definition ascii_lower (a : Ascii.ascii) : Ascii.ascii :=
  let n := Ascii.nat_of_ascii a in
  if ((65 <=? n) && (n <=? 90))%nat then Ascii.ascii_of_nat (n + 32) else a.

Fixpoint map_string (f : Ascii.ascii → Ascii.ascii) (s : string) : string :=
  match s with
  | EmptyString => EmptyString
  | String a s' => String (f a) (map_string f s')
  end.

Fixpoint lstrip (s : string) : string :=
  match s with
  | String a s' => if bool_decide (Ascii.nat_of_ascii a = 32%nat) then lstrip s' else s
  | EmptyString => s
  end.

Definition ascii_strip (s : string) : string :=
  let rev_string s := string_of_list_ascii (rev (list_ascii_of_string s)) in
  rev_string (lstrip (rev_string (lstrip s))).

Definition decimal_Z (s : string) : option Z :=
  Z.of_int <$> NilZero.int_of_string s.

(** [float(s)] on the spellings handled here: the infinities, nan, and
    decimal integers. *)
Definition ascii_float (s : string) : option pyfloat :=
  let t := map_string ascii_lower (ascii_strip s) in
  if bool_decide (t ∈ ["inf"; "+inf"; "infinity"; "+infinity"]) then Some (Inf false)
  else if bool_decide (t ∈ ["-inf"; "-infinity"]) then Some (Inf true)
  else if bool_decide (t ∈ ["nan"; "+nan"; "-nan"]) then Some NaN
  else (λ z, Finite (Z2Qc z)) <$> decimal_Z t.

(** ["YYYY-MM-DD"] as the number [YYYYMMDD]. *)
Definition ymd_of_string (s : string) : option Z :=
  if bool_decide (String.length s = 10%nat)
     && bool_decide (substring 4 1 s = "-") && bool_decide (substring 7 1 s = "-")
  then
    match NilZero.uint_of_string (substring 0 4 s),
          NilZero.uint_of_string (substring 5 2 s),
          NilZero.uint_of_string (substring 8 2 s) with
    | Some y, Some m, Some d =>
        let m' := Z.of_uint m in
        let d' := Z.of_uint d in
        if ((1 <=? m') && (m' <=? 12) && (1 <=? d') && (d' <=? 31))%Z
        then Some (Z.of_uint y * 10000 + m' * 100 + d')
        else None
    | _, _, _ => None
    end
  else None.

Definition pad2 (z : Z) : string :=
  if bool_decide (z < 10) then String.append "0" (str_of_Z z) else str_of_Z z.

Definition string_of_ymd (t : Z) : string :=
  String.append (str_of_Z (t `div` 10000))
    (String.append "-" (String.append (pad2 ((t `div` 100) `mod` 100))
       (String.append "-" (pad2 (t `mod` 100))))).

Definition ascii_str (v : value) : string :=
  match v with
  | VNull => "nan"
  | VBool b => if b then "True" else "False"
  | VInt z => str_of_Z z
  | VFloat q =>
      if bool_decide (Qden q = 1%positive) then String.append (str_of_Z (Qnum q)) ".0"
      else String.append (str_of_Z (Qnum q)) (String.append "/" (str_of_Z (Z.pos (Qden q))))
  | VInf s => if s then "-inf" else "inf"
  | VNaN => "nan"
  | VStr s => s
  | VDate t => String.append (string_of_ymd t) " 00:00:00"
  end.

(** Order of two cells of one kind; [None] across kinds. *)
Definition cell_leb (a b : value) : option bool :=
  match a, b with
  | VStr s, VStr t => Some (String.leb s t)
  | VDate s, VDate t => Some (s <=? t)%Z
  | _, _ =>
      match as_float a, as_float b with
      | Some x, Some y => Some (negb (float_lt y x))
      | _, _ => None
      end
  end.

(** Stable insertion by the cell at [j]; missing cells go last. *)
Fixpoint insert_sorted (j : nat) (asc : bool) (r : row) (rs : list row) : option (list row) :=
  match rs with
  | [] => Some [r]
  | r' :: rs' =>
      if isna (cell j r') then Some (r :: r' :: rs')
      else if isna (cell j r) then cons r' <$> insert_sorted j asc r rs'
      else
        match cell_leb (cell j r) (cell j r') with
        | None => None
        | Some le =>
            let before := if asc then le else negb le || bool_decide (cell j r = cell j r') in
            if before then Some (r :: r' :: rs')
            else cons r' <$> insert_sorted j asc r rs'
        end
  end.

Fixpoint insertion_sort (j : nat) (asc : bool) (rs : list row) : option (list row) :=
  match rs with
  | [] => Some []
  | r :: rs' => insertion_sort j asc rs' ≫= insert_sorted j asc r
  end.

Lemma insert_sorted_perm j asc r rs rs' :
  insert_sorted j asc r rs = Some rs' → rs' ≡ₚ r :: rs.
Proof.
  revert rs'. induction rs as [|r' rs IH]; intros rs'; simpl.
  - by intros [= <-].
  - assert (Hrec : cons r' <$> insert_sorted j asc r rs = Some rs' → rs' ≡ₚ r :: r' :: rs).
    { destruct (insert_sorted j asc r rs) as [l|]; simpl; [|done].
      intros [= <-]. rewrite (IH l eq_refl). apply Permutation_swap. }
    destruct (isna (cell j r')); [by intros [= <-]|].
    destruct (isna (cell j r)); [done|].
    destruct (cell_leb _ _) as [le|]; [|done].
    destruct (if asc then le else _); [by intros [= <-] | done].
Qed.

Lemma insertion_sort_perm j asc rs rs' :
  insertion_sort j asc rs = Some rs' → rs' ≡ₚ rs.
Proof.
  revert rs'. induction rs as [|r rs IH]; intros rs'; simpl.
  - by intros [= <-].
  - destruct (insertion_sort j asc rs) as [l|]; simpl; [|done].
    intros H%insert_sorted_perm. rewrite H. by rewrite (IH l).
Qed.

Definition ascii_runtime : Runtime := {|
  py_str := ascii_str;
  str_lower := map_string ascii_lower;
  str_strip := ascii_strip;
  float_of_string := ascii_float;
  int_of_string := decimal_Z;
  parse_datetime := λ v,
    match v with
    | VStr s => Some <$> ymd_of_string s
    | _ => None
    end;
  strftime_ymd := string_of_ymd;
  isoformat := λ t, String.append (string_of_ymd t) "T00:00:00";
  sort_rows := insertion_sort;
  sort_rows_perm := insertion_sort_perm;
|}.

(** Pipelines that list the frame they are given. *)
Definition listing_pipelines : Pipelines := {|
  sales_monthly_body := λ df, Ok (to_records df);
  sales_dealers_body := λ df _ _, Ok (to_records df);
  sales_products_body := λ df _, Ok (to_records df);
  sales_vehicles_body := λ df, Ok (to_records df);
  claims_status_body := λ df, Ok (to_records df);
  claims_parts_body := λ df, Ok (to_records df);
  claims_trends_body := λ df, Ok (to_records df);
  correlations_body := λ df, Ok (to_records df);
  insights_body := λ summary dealers monthly, Ok (PList [summary; dealers; monthly]);
  filter_options_body := λ s _, Ok (PList ((λ c, PVal (VStr c)) <$> columns s));
|}.

Example ymd_parse : ymd_of_string "2018-02-02" = Some 20180202.
Proof. reflexivity. Qed.

Example ymd_print : string_of_ymd 20180202 = "2018-02-02".
Proof. reflexivity. Qed.

Example strip_spaces : ascii_strip "  Policy No " = "Policy No".
Proof. reflexivity. Qed.

(** ** Fixtures *)

Definition unwrap {A} (fallback : A) (m : res A) : A :=
  match m with Ok a => a | Raise _ => fallback end.

(** Three policies, as the sales sheet is parsed (one header still carries
    blanks). *)
Definition sales_sheet : DataFrame :=
  mkDF ["Policy No "; "Dealer"; "Make"; "Gross Premium"; "Policy Sold Date"]
       [[VStr "A"; VStr "North"; VStr "Toyota"; VFloat (Z2Qc 1000); VDate 20180115];
        [VStr "B"; VStr "North"; VStr "Honda"; VFloat (Z2Qc 800); VDate 20180220];
        [VStr "C"; VStr "South"; VStr "Toyota"; VFloat (Z2Qc 1200); VDate 20190301]].

(** Two claims, both against policy A, summing to 150. *)
Definition claims_sheet : DataFrame :=
  mkDF ["Policy No"; "Total Auth Amount"; "Claim Status"]
       [[VStr "A"; VFloat (Z2Qc 100); VStr "Approved"];
        [VStr "A"; VFloat (Z2Qc 50); VStr "Rejected"]].

(** The same claims without the amount column. *)
Definition claims_sheet_no_amount : DataFrame :=
  mkDF ["Policy No"; "Claim Status"]
       [[VStr "A"; VStr "Approved"];
        [VStr "A"; VStr "Rejected"]].

Definition demo_state : DataProcessor :=
  unwrap init (load_excel (RT:=ascii_runtime) init sales_sheet claims_sheet).

Definition demo_now : string := "2024-05-01T09:30:00".

Definition demo_sales : DataFrame :=
  mkDF ["_row_id"; "Policy No"; "Dealer"; "Make"; "Gross Premium"; "Policy Sold Date"]
       [[VInt 0; VStr "A"; VStr "North"; VStr "Toyota"; VFloat (Z2Qc 1000); VDate 20180115];
        [VInt 1; VStr "B"; VStr "North"; VStr "Honda"; VFloat (Z2Qc 800); VDate 20180220];
        [VInt 2; VStr "C"; VStr "South"; VStr "Toyota"; VFloat (Z2Qc 1200); VDate 20190301]].

Definition demo_claims : DataFrame :=
  mkDF ["_row_id"; "Policy No"; "Total Auth Amount"; "Claim Status"]
       [[VInt 0; VStr "A"; VFloat (Z2Qc 100); VStr "Approved"];
        [VInt 1; VStr "A"; VFloat (Z2Qc 50); VStr "Rejected"]].

Example demo_state_loads :
  load_excel (RT:=ascii_runtime) init sales_sheet claims_sheet = Ok demo_state.
Proof. reflexivity. Qed.

Example demo_state_sales : sales_df demo_state = Some demo_sales.
Proof. reflexivity. Qed.

Example demo_state_claims : claims_df demo_state = Some demo_claims.
Proof. reflexivity. Qed.

Example demo_state_loaded : loaded demo_state.
Proof. apply (bool_decide_unpack _). vm_compute. exact I. Qed.

(** Equality of computed results up to the canonicity proofs inside [Qc]. *)
Ltac qc_step :=
  match goal with
  | |- @eq Qc _ _ => apply Qc_is_canon; reflexivity
  | |- _ => reflexivity
  | |- _ => f_equal
  end.

(** An accepted edit of the fixture, and the fixture after a cached query. *)
Definition demo_edit : res (DataProcessor * pyobj) :=
  update_cell (RT:=ascii_runtime) demo_state "sales" 1 "Dealer" (VStr "East") demo_now.

Definition demo_edited : DataProcessor := fst (unwrap (demo_state, PDict []) demo_edit).
Definition demo_edit_result : pyobj := snd (unwrap (demo_state, PDict []) demo_edit).

Definition demo_query : res (DataProcessor * pyobj) :=
  get_summary (RT:=ascii_runtime) demo_state None.

Definition demo_queried : DataProcessor := fst (unwrap (demo_state, PDict []) demo_query).
Definition demo_summary : pyobj := snd (unwrap (demo_state, PDict []) demo_query).

Definition demo_queried_edit : res (DataProcessor * pyobj) :=
  update_cell (RT:=ascii_runtime) demo_queried "sales" 1 "Dealer" (VStr "East") demo_now.

Example demo_edit_ok : demo_edit = Ok (demo_edited, demo_edit_result).
Proof. reflexivity. Qed.

Example demo_edit_succeeded : succeeded demo_edit_result.
Proof. reflexivity. Qed.

Example demo_query_ok : demo_query = Ok (demo_queried, demo_summary).
Proof. reflexivity. Qed.

Example demo_summary_value :
  demo_summary =
    PDict [("totalPremium", PVal (VFloat (Z2Qc 3000)));
           ("totalRiskPremium", PVal (VInt 0));
           ("totalClaimsAmount", PVal (VFloat (Z2Qc 150)));
           ("totalPolicies", PVal (VInt 3));
           ("totalClaims", PVal (VInt 2));
           ("claimRate", PVal (VFloat (Q2Qc (333 # 10))));
           ("lossRatio", PVal (VFloat (Z2Qc 5)));
           ("avgClaimCost", PVal (VFloat (Z2Qc 75)));
           ("avgPremium", PVal (VFloat (Z2Qc 1000)));
           ("policiesWithClaims", PVal (VInt 1));
           ("uniqueMakes", PVal (VInt 2))].
Proof. vm_compute. repeat qc_step. Qed.

Example demo_queried_cache :
  query_cache demo_queried !! ("get_summary", None) = Some demo_summary.
Proof. reflexivity. Qed.

Definition demo_requeried : DataProcessor :=
  fst (unwrap (demo_state, PDict []) demo_queried_edit).
Definition demo_requeried_result : pyobj :=
  snd (unwrap (demo_state, PDict []) demo_queried_edit).

Example demo_queried_edit_ok :
  demo_queried_edit = Ok (demo_requeried, demo_requeried_result).
Proof. reflexivity. Qed.

(** A sales sheet of 101 policies, P0 to P100. *)
Definition long_sheet : DataFrame :=
  mkDF ["Policy No"; "Gross Premium"]
       ((λ i : nat, [VStr (String.append "P" (str_of_Z (Z.of_nat i))); VFloat (Z2Qc 10)])
          <$> seq 0 101).

Definition long_state : DataProcessor :=
  unwrap init (load_excel (RT:=ascii_runtime) init long_sheet claims_sheet).

Definition long_sales : DataFrame :=
  mkDF ["_row_id"; "Policy No"; "Gross Premium"]
       ((λ i : nat, [VInt (Z.of_nat i); VStr (String.append "P" (str_of_Z (Z.of_nat i)));
                     VFloat (Z2Qc 10)]) <$> seq 0 101).

Example long_state_sales : sales_df long_state = Some long_sales.
Proof. reflexivity. Qed.

(** A search that matches no row of the three-policy fixture. *)
Definition no_match : option (gmap string value) := Some {[ "search" := VStr "zzz" ]}.

(** The first page of the three-policy sales table. *)
Definition demo_page_call : res pyobj :=
  get_raw_data (RT:=ascii_runtime) demo_state "sales" 1 100 None None "asc".

Definition demo_page : pyobj := unwrap empty_page demo_page_call.

Example demo_page_ok : demo_page_call = Ok demo_page.
Proof. reflexivity. Qed.

(** Five policies with their sale dates, as stored after a load. *)
Definition dated_sales : DataFrame :=
  mkDF ["_row_id"; "Policy No"; "Policy Sold Date"]
       [[VInt 0; VStr "A"; VDate 20180115];
        [VInt 1; VStr "B"; VDate 20180220];
        [VInt 2; VStr "C"; VDate 20190301];
        [VInt 3; VStr "D"; VDate 20190715];
        [VInt 4; VStr "E"; VDate 20200102]].

Definition bad_date_from : gmap string value := {[ "date_from" := VStr "not a date" ]}.
Definition good_date_from : gmap string value := {[ "date_from" := VStr "2019-01-01" ]}.

(** Three policies; the sale date of the first is not a date. *)
Definition mixed_dates : DataFrame :=
  mkDF ["_row_id"; "Policy No"; "Policy Sold Date"]
       [[VInt 0; VStr "A"; VStr "n/a"];
        [VInt 1; VStr "B"; VDate 20170510];
        [VInt 2; VStr "C"; VDate 20200102]].

(** The same table without the first policy. *)
Definition clean_dates : DataFrame :=
  mkDF ["_row_id"; "Policy No"; "Policy Sold Date"]
       [[VInt 1; VStr "B"; VDate 20170510];
        [VInt 2; VStr "C"; VDate 20200102]].

(** A sales sheet that already carries a ['_row_id'] column. *)
Definition row_id_sheet : DataFrame :=
  mkDF ["_row_id"; "Policy No"] [[VInt 7; VStr "A"]].

(** The session after the load of that sheet has raised. *)
Definition half_loaded : DataProcessor :=
  load_excel_leaves (RT:=ascii_runtime) init row_id_sheet claims_sheet.

Example demo_queried_loaded : loaded demo_queried.
Proof. apply (bool_decide_unpack _). vm_compute. exact I. Qed.
(** * Properties *)

Section Properties.
Context {RT : Runtime} {PL : Pipelines}.

(** ** Column positions *)

Lemma col_index_lookup c cols j : col_index c cols = Some j → cols !! j = Some c.
Proof.
  revert j. induction cols as [|c' cols IH]; intros j; simpl; [done|].
  case_bool_decide; [intros [= <-]; by subst|].
  destruct (col_index c cols) as [j'|] eqn:E; simpl; [|done].
  intros [= <-]. simpl. by apply IH.
Qed.

Lemma col_index_None c cols : col_index c cols = None ↔ c ∉ cols.
Proof.
  induction cols as [|c' cols IH]; simpl.
  - split; [intros _; apply not_elem_of_nil | done].
  - case_bool_decide as Hc.
    + subst. split; [done|]. intros Hn. destruct Hn. left.
    + rewrite not_elem_of_cons. destruct (col_index c cols); simpl.
      * split; [done|]. intros [_ Hn]. by apply IH in Hn.
      * split; [|done]. intros _. split; [congruence|]. by apply IH.
Qed.

Lemma col_index_is_Some c cols : is_Some (col_index c cols) ↔ c ∈ cols.
Proof.
  destruct (col_index c cols) eqn:E.
  - split; [|by eauto]. intros _. apply col_index_lookup in E.
    by eapply list_elem_of_lookup_2.
  - split; [by intros [? ?]|]. intros Hin. by apply col_index_None in E.
Qed.

Lemma col_index_NoDup cols j c :
  NoDup cols → cols !! j = Some c → col_index c cols = Some j.
Proof.
  intros Hnd Hj. destruct (col_index c cols) as [j'|] eqn:E.
  - apply col_index_lookup in E. f_equal. by eapply NoDup_lookup.
  - apply col_index_None in E. destruct E. by eapply list_elem_of_lookup_2.
Qed.

Lemma col_index_lt c cols j : col_index c cols = Some j → (j < length cols)%nat.
Proof. intros E. apply col_index_lookup in E. by eapply lookup_lt_Some. Qed.

Lemma has_col_index df c : has_col df c = true ↔ is_Some (col_index c (columns df)).
Proof. unfold has_col. rewrite bool_decide_eq_true. symmetry. apply col_index_is_Some. Qed.

Lemma col_index_head c cols : head cols = Some c → col_index c cols = Some O.
Proof. destruct cols; simpl; [done|]. intros [= ->]. by rewrite bool_decide_eq_true_2. Qed.

End Properties.

(** ** The mutation API: what a call returns and what it leaves behind *)

Section Mutation.
Context {RT : Runtime}.

Lemma append_nonempty a b : b ≠ "" → String.append a b ≠ "".
Proof. destruct a; simpl; [done|]. intros _. discriminate. Qed.

Lemma validate_error_nonempty table column v v' e :
  validate_value table column v = Ok (v', Some e) → e ≠ "".
Proof.
  unfold validate_value. intros Hv.
  repeat (case_match; simplify_eq); try done; by apply append_nonempty.
Qed.

(** The state a successful [update_cell] hands to [_build_merged]. *)
Definition edited (st : DataProcessor) (table : string) (row_id : Z) (column : string)
    (df : DataFrame) (ri j : nat) (old new : value) (now : string) : DataProcessor :=
  let st2 := clear_cache (set_table_df st table (loc_set df (row_mask ri row_id) j new)) in
  set_change_log st2
    (change_log st2 ++ [mkEntry now table row_id column (serialize old) (serialize new)]).

Definition success_result (old new : value) : pyobj :=
  PDict [("success", PVal (VBool true));
         ("old_value", PVal (serialize old));
         ("new_value", PVal (serialize new))].

(** Every return of [update_cell] is a rejection that leaves the session
    untouched, or the acceptance path run to its end. *)
Lemma update_cell_inv st table row_id column v now st' r :
  update_cell st table row_id column v now = Ok (st', r) →
  (st' = st ∧ ∃ msg, r = failure msg) ∨
  (∃ df j ri r0 new st4,
      table_df st table = Some df ∧
      col_index column (columns df) = Some j ∧ column ≠ "_row_id" ∧
      col_index "_row_id" (columns df) = Some ri ∧
      List.find (row_mask ri row_id) (rows df) = Some r0 ∧
      validate_value table column v = Ok (new, None) ∧
      build_merged (edited st table row_id column df ri j (cell j r0) new now) = Ok st4 ∧
      st' = set_metrics_dirty st4 true ∧
      r = success_result (cell j r0) new).
Proof.
  unfold update_cell. intros Hu.
  destruct (table_df st table) as [df|] eqn:Hdf; [|simplify_eq; left; eauto].
  destruct (col_index column (columns df)) as [j|] eqn:Hj; [|simplify_eq; left; eauto].
  case_bool_decide as Hc; [simplify_eq; left; eauto|].
  destruct (col_index "_row_id" (columns df)) as [ri|] eqn:Hri; [|done].
  destruct (List.find _ _) as [r0|] eqn:Hf; [|simplify_eq; left; eauto].
  destruct (validate_value table column v) as [[new err]|e] eqn:Hv; simpl in Hu; [|done].
  destruct err as [e|]; cbn [default from_option] in Hu.
  - pose proof (validate_error_nonempty _ _ _ _ _ Hv) as Hne.
    rewrite bool_decide_eq_false_2 in Hu by done. simpl in Hu. simplify_eq. left; eauto.
  - rewrite bool_decide_eq_true_2 in Hu by done. cbn [negb] in Hu.
    fold (edited st table row_id column df ri j (cell j r0) new now) in Hu.
    destruct (build_merged _) as [st4|] eqn:Hb; simpl in Hu; [|done].
    simplify_eq. right. exists df, j, ri, r0, new, st4. done.
Qed.

Lemma failure_not_succeeded msg : ¬ succeeded (failure msg).
Proof. unfold succeeded, failure. simpl. discriminate. Qed.

Lemma success_result_succeeded old new : succeeded (success_result old new).
Proof. reflexivity. Qed.

(** [_build_merged] touches [merged_df] only. *)
Lemma build_merged_fields st st' :
  build_merged st = Ok st' →
  original_sales_df st' = original_sales_df st ∧
  original_claims_df st' = original_claims_df st ∧
  sales_df st' = sales_df st ∧ claims_df st' = claims_df st ∧
  change_log st' = change_log st ∧ query_cache st' = query_cache st ∧
  metrics_dirty st' = metrics_dirty st.
Proof.
  unfold build_merged. intros Hb.
  destruct (sales_df st) eqn:Hs, (claims_df st) eqn:Hc; simplify_eq; try done.
  destruct (merged_view _ _); simpl in Hb; simplify_eq. simpl. by rewrite Hs, Hc.
Qed.

Lemma build_merged_view st st' s c :
  sales_df st = Some s → claims_df st = Some c → build_merged st = Ok st' →
  ∃ m, merged_view s c = Ok m ∧ merged_df st' = Some m.
Proof.
  unfold build_merged. intros -> -> Hb.
  destruct (merged_view s c) as [m|]; simpl in Hb; simplify_eq. eauto.
Qed.

Lemma table_df_set st table df : table_df (set_table_df st table df) table = Some df.
Proof. unfold table_df, set_table_df. by destruct (is_sales table). Qed.

End Mutation.

(** ** Row identifiers *)

Section RowIds.
Context {RT : Runtime}.

Lemma Z2Qc_inj a b : Z2Qc a = Z2Qc b → a = b.
Proof.
  unfold Z2Qc. intros E. apply Q2Qc_eq_iff in E.
  unfold Qeq in E. simpl in E. lia.
Qed.

Lemma py_eq_int a b : py_eq (VInt a) (VInt b) = bool_decide (a = b).
Proof.
  simpl. apply bool_decide_ext. split; [apply Z2Qc_inj | by intros ->].
Qed.

Lemma row_mask_int ri row_id r z :
  cell ri r = VInt z → row_mask ri row_id r = bool_decide (z = row_id).
Proof. unfold row_mask. intros ->. apply py_eq_int. Qed.

Lemma id_frame_row_id_index df : id_frame df → col_index "_row_id" (columns df) = Some O.
Proof. intros (_ & Hh & _). by apply col_index_head. Qed.

Lemma id_frame_other_column df column j :
  id_frame df → col_index column (columns df) = Some j → column ≠ "_row_id" → j ≠ O.
Proof.
  intros Hid Hj Hne ->. apply id_frame_row_id_index in Hid.
  apply col_index_lookup in Hj, Hid. congruence.
Qed.

(** In a frame with row identifiers, the identifier picks one row. *)
Lemma id_frame_find df row_id r0 :
  id_frame df → List.find (row_mask 0 row_id) (rows df) = Some r0 →
  ∃ i, rows df !! i = Some r0 ∧ cell 0 r0 = VInt row_id ∧
       ∀ i' r', rows df !! i' = Some r' → row_mask 0 row_id r' = true → i' = i.
Proof.
  intros (_ & _ & Hnd & Hint) Hf.
  apply find_some in Hf as [Hin Hm].
  apply list_elem_of_In, list_elem_of_lookup in Hin as [i Hi].
  assert (Hcell : ∀ i' r', rows df !! i' = Some r' → row_mask 0 row_id r' = true →
                           cell 0 r' = VInt row_id).
  { intros i' r' Hi' Hm'. rewrite Forall_lookup in Hint. specialize (Hint _ _ Hi').
    destruct (cell 0 r') eqn:Ec; try done.
    rewrite (row_mask_int _ _ _ _ Ec) in Hm'. apply bool_decide_eq_true in Hm'. by subst. }
  exists i. split; [done|]. split; [by eapply Hcell|].
  intros i' r' Hi' Hm'. eapply NoDup_lookup; [exact Hnd| |].
  - rewrite list_lookup_fmap, Hi'. simpl. by erewrite Hcell.
  - rewrite list_lookup_fmap, Hi. simpl. by erewrite Hcell.
Qed.

(** With distinct identifiers, [df.loc[mask, column] = v] overwrites one cell. *)
Lemma loc_set_single df row_id j v i r0 :
  rows df !! i = Some r0 → row_mask 0 row_id r0 = true →
  (∀ i' r', rows df !! i' = Some r' → row_mask 0 row_id r' = true → i' = i) →
  rows (loc_set df (row_mask 0 row_id) j v) = <[i:=<[j:=v]> r0]> (rows df).
Proof.
  intros Hi Hm Huniq. simpl. apply list_eq. intros i'.
  rewrite list_lookup_fmap.
  destruct (decide (i' = i)) as [->|Hne].
  - rewrite list_lookup_insert_eq by (by eapply lookup_lt_Some).
    rewrite Hi. simpl. by rewrite Hm.
  - rewrite list_lookup_insert_ne by done.
    destruct (rows df !! i') as [r'|] eqn:Hi'; simpl; [|done].
    destruct (row_mask 0 row_id r') eqn:Hm'; [|done].
    destruct Hne. by eapply Huniq.
Qed.

Lemma loc_set_id_frame df mask j v :
  id_frame df → j ≠ O → id_frame (loc_set df mask j v).
Proof.
  intros ((Hnd & Hrect) & Hh & Hids & Hint) Hj.
  assert (Hc0 : ∀ r : row, cell 0 (if mask r then <[j:=v]> r else r) = cell 0 r).
  { intros r. destruct (mask r); [|done]. destruct j; [done|]. by destruct r. }
  repeat split; simpl.
  - done.
  - rewrite Forall_fmap. eapply Forall_impl; [|exact Hrect]. intros r Hr. unfold compose.
    destruct (mask r); [|done]. by rewrite length_insert.
  - done.
  - rewrite <- list_fmap_compose.
    erewrite list_fmap_ext; [exact Hids|]. intros ? r _. apply Hc0.
  - rewrite Forall_fmap. eapply Forall_impl; [|exact Hint]. intros r Hr. unfold compose.
    by rewrite Hc0.
Qed.

End RowIds.

(** ** The loaded invariant is established by a load and kept by every step *)

Section Loaded.
Context {RT : Runtime}.

Lemma edited_fields st table row_id column df ri j old new now :
  let df' := loc_set df (row_mask ri row_id) j new in
  let st1 := edited st table row_id column df ri j old new now in
  original_sales_df st1 = original_sales_df st ∧
  original_claims_df st1 = original_claims_df st ∧
  sales_df st1 = (if is_sales table then Some df' else sales_df st) ∧
  claims_df st1 = (if is_sales table then claims_df st else Some df') ∧
  query_cache st1 = ∅ ∧
  change_log st1 =
    change_log st ++ [mkEntry now table row_id column (serialize old) (serialize new)].
Proof. unfold edited, set_table_df. by destruct (is_sales table). Qed.

Lemma set_metrics_dirty_fields st b :
  original_sales_df (set_metrics_dirty st b) = original_sales_df st ∧
  original_claims_df (set_metrics_dirty st b) = original_claims_df st ∧
  sales_df (set_metrics_dirty st b) = sales_df st ∧
  claims_df (set_metrics_dirty st b) = claims_df st ∧
  merged_df (set_metrics_dirty st b) = merged_df st ∧
  change_log (set_metrics_dirty st b) = change_log st ∧
  query_cache (set_metrics_dirty st b) = query_cache st.
Proof. done. Qed.

Lemma loaded_frames st :
  loaded st →
  ∃ os oc s c m,
    original_sales_df st = Some os ∧ original_claims_df st = Some oc ∧
    sales_df st = Some s ∧ claims_df st = Some c ∧ merged_df st = Some m ∧
    id_frame os ∧ id_frame oc ∧ id_frame s ∧ id_frame c ∧
    merged_view s c = Ok m ∧ is_Ok (merged_view os oc).
Proof.
  unfold loaded. intros H.
  destruct (original_sales_df st) as [os|], (original_claims_df st) as [oc|],
    (sales_df st) as [s|], (claims_df st) as [c|], (merged_df st) as [m|]; try done.
  destruct H as (?&?&?&?&?&Hm). exists os, oc, s, c, m.
  split_and!; try done.
  unfold is_Ok. destruct (merged_view os oc); [eauto | done].
Qed.

Lemma loaded_intro st os oc s c m m0 :
  original_sales_df st = Some os → original_claims_df st = Some oc →
  sales_df st = Some s → claims_df st = Some c → merged_df st = Some m →
  id_frame os → id_frame oc → id_frame s → id_frame c →
  merged_view s c = Ok m → merged_view os oc = Ok m0 → loaded st.
Proof. unfold loaded. intros -> -> -> -> -> ? ? ? ? ? ->. done. Qed.

Lemma loaded_table_df st table :
  loaded st → ∃ df, table_df st table = Some df ∧ id_frame df.
Proof.
  intros (os & oc & s & c & m & _ & _ & Hs & Hc & _ & _ & _ & ? & ? & _)%loaded_frames.
  unfold table_df. destruct (is_sales table); eauto.
Qed.

Lemma update_cell_loaded st table row_id column v now st' r :
  loaded st → update_cell st table row_id column v now = Ok (st', r) → loaded st'.
Proof.
  intros Hl Hu. apply update_cell_inv in Hu as [[-> _]|Hacc]; [done|].
  destruct Hacc as (df & j & ri & r0 & new & st4 & Hdf & Hj & Hne & Hri & Hf & Hv & Hb & -> & _).
  destruct (loaded_frames _ Hl) as
    (os & oc & s & c & m & Hos & Hoc & Hs & Hc & Hm & Ios & Ioc & Is & Ic & Hmv & [m0 Hm0]).
  pose proof (edited_fields st table row_id column df ri j (cell j r0) new now) as
    (Eos & Eoc & Es & Ec & _ & _). cbv zeta in *.
  pose proof (build_merged_fields _ _ Hb) as (Bos & Boc & Bs & Bc & _).
  unfold table_df in Hdf.
  destruct (is_sales table) eqn:Ht.
  - assert (df = s) as -> by congruence.
    assert (Hj0 : j ≠ O) by (by apply (id_frame_other_column s column)).
    destruct (build_merged_view _ _ _ _ Es ltac:(by rewrite Ec) Hb) as (m' & Hm' & Hmd).
    apply (loaded_intro _ os oc (loc_set s (row_mask ri row_id) j new) c m' m0);
      simpl; try congruence; try done.
    by apply loc_set_id_frame.
  - assert (df = c) as -> by congruence.
    assert (Hj0 : j ≠ O) by (by apply (id_frame_other_column c column)).
    destruct (build_merged_view _ _ _ _ ltac:(by rewrite Es) Ec Hb) as (m' & Hm' & Hmd).
    apply (loaded_intro _ os oc s (loc_set c (row_mask ri row_id) j new) m' m0);
      simpl; try congruence; try done.
    by apply loc_set_id_frame.
Qed.

(** On a loaded session [reset_data] returns, with the working copies equal
    to the snapshots, an empty log and the old log's length. *)
Lemma reset_data_loaded st :
  loaded st →
  ∃ st',
    reset_data st =
      Ok (st', PDict [("success", PVal (VBool true));
                      ("changesReverted", PVal (VInt (Z.of_nat (length (change_log st)))))]) ∧
    sales_df st' = original_sales_df st ∧ claims_df st' = original_claims_df st ∧
    original_sales_df st' = original_sales_df st ∧
    original_claims_df st' = original_claims_df st ∧
    change_log st' = [] ∧ query_cache st' = ∅ ∧ loaded st'.
Proof.
  intros Hl.
  destruct (loaded_frames _ Hl) as
    (os & oc & s & c & m & Hos & Hoc & Hs & Hc & Hm & Ios & Ioc & Is & Ic & Hmv & [m0 Hm0]).
  unfold reset_data. rewrite Hos, Hoc. unfold build_merged. simpl. rewrite Hm0. simpl.
  eexists. split; [reflexivity|]. simpl. rewrite Hos, Hoc.
  split_and!; try done.
  by eapply (loaded_intro _ os oc os oc m0 m0).
Qed.

Lemma reset_data_keeps_loaded st st' r :
  loaded st → reset_data st = Ok (st', r) → loaded st'.
Proof.
  intros Hl Hr. destruct (reset_data_loaded _ Hl) as (st2 & E & _ & _ & _ & _ & _ & _ & Hl2).
  congruence.
Qed.

Lemma insert_row_id_frame df df' :
  wf_df df → insert_row_id df = Ok df' → id_frame df'.
Proof.
  unfold insert_row_id. intros [Hnd Hrect] Hi.
  destruct (has_col df "_row_id") eqn:Hh; [done|]. simplify_eq.
  unfold has_col in Hh. apply bool_decide_eq_false in Hh.
  repeat split; simpl.
  - by constructor.
  - apply Forall_forall. intros r Hin. apply list_elem_of_In in Hin.
    apply list_elem_of_lookup in Hin as [i Hi]. rewrite list_lookup_imap in Hi.
    destruct (rows df !! i) as [r0|] eqn:E; simplify_eq/=.
    rewrite Forall_forall in Hrect. f_equal. apply Hrect.
    apply list_elem_of_In. by eapply list_elem_of_lookup_2.
  - apply NoDup_alt. intros i j x.
    rewrite !list_lookup_fmap, !list_lookup_imap.
    destruct (rows df !! i), (rows df !! j); simpl; intros; simplify_eq. lia.
  - apply Forall_forall. intros r Hin. apply list_elem_of_In in Hin.
    apply list_elem_of_lookup in Hin as [i Hi]. rewrite list_lookup_imap in Hi.
    destruct (rows df !! i) as [r0|] eqn:E; by simplify_eq/=.
Qed.

Lemma load_excel_loaded st0 s c st :
  sheet_ok s → sheet_ok c → load_excel st0 s c = Ok st →
  loaded st ∧ change_log st = [] ∧ query_cache st = ∅ ∧
  sales_df st = original_sales_df st ∧ claims_df st = original_claims_df st.
Proof.
  unfold load_excel, sheet_ok. intros Hs Hc Hl.
  destruct (insert_row_id (mkDF (str_strip <$> columns s) (rows s))) as [s1|] eqn:Es;
    simpl in Hl; [|done].
  destruct (insert_row_id (mkDF (str_strip <$> columns c) (rows c))) as [c1|] eqn:Ec;
    simpl in Hl; [|done].
  unfold build_merged in Hl. simpl in Hl.
  destruct (merged_view s1 c1) as [m|] eqn:Em; simpl in Hl; [|done]. simplify_eq.
  split; [|done].
  apply insert_row_id_frame in Es, Ec; try done.
  by eapply (loaded_intro _ s1 c1 s1 c1 m m).
Qed.

Lemma loaded_set_query_cache st c : loaded st → loaded (set_query_cache st c).
Proof. done. Qed.

End Loaded.

(** ** Queries leave everything but the cache alone *)

Section Session.
Context {RT : Runtime}.

Lemma cached_query_state st key compute st' v :
  (∀ st0 x r, compute st0 = Ok (x, r) → x = st0) →
  cached_query st key compute = Ok (st', v) →
  st' = st ∨ st' = set_query_cache st (<[key:=v]> (query_cache st)).
Proof.
  unfold cached_query. intros Hc Hq.
  destruct (query_cache st !! key); [simplify_eq; by left|].
  destruct (compute st) as [[st1 r]|] eqn:E; simpl in Hq; [|done].
  apply Hc in E as ->. destruct r; simplify_eq; eauto.
Qed.

Lemma get_summary_state st filters st' r :
  get_summary st filters = Ok (st', r) →
  ∃ c, st' = set_query_cache st c.
Proof.
  intros H. apply cached_query_state in H as [->| ->]; eauto.
  - exists (query_cache st). by destruct st.
  - intros st0 x r0. destruct (sales_df st0); [|by intros [= <- _]].
    destruct (summary_body _ _ _ _); simpl; [by intros [= <- _] | done].
Qed.

Lemma reachable_loaded st : reachable st → loaded st.
Proof.
  induction 1 as [st0 s c st Hs Hc Hl | | |].
  - by destruct (load_excel_loaded _ _ _ _ Hs Hc Hl) as [? _].
  - by eapply update_cell_loaded.
  - by eapply reset_data_keeps_loaded.
  - match goal with H : get_summary _ _ = _ |- _ => apply get_summary_state in H as [c ->] end.
    by apply loaded_set_query_cache.
Qed.

Lemma find_row_mask_None df row_id :
  id_frame df →
  List.find (row_mask 0 row_id) (rows df) = None ↔
  ∀ r, r ∈ rows df → cell 0 r ≠ VInt row_id.
Proof.
  intros (_ & _ & _ & Hint). split.
  - intros Hf r Hin Hc. apply list_elem_of_In in Hin.
    eapply find_none in Hf; [|exact Hin].
    by rewrite (row_mask_int _ _ _ _ Hc), bool_decide_eq_true_2 in Hf.
  - intros Hno. destruct (List.find _ _) as [r|] eqn:Hf; [|done].
    apply find_some in Hf as [Hin Hm]. apply list_elem_of_In in Hin.
    rewrite Forall_forall in Hint. pose proof (Hint r ltac:(by apply list_elem_of_In)) as Hi.
    destruct (cell 0 r) eqn:Ec; try done.
    rewrite (row_mask_int _ _ _ _ Ec) in Hm. apply bool_decide_eq_true in Hm. subst.
    by destruct (Hno r Hin).
Qed.


End Session.

Section SessionEdits.
Context {RT : Runtime}.

(** [read st table row_id column]: the cell a caller addresses by table
    name, row id and column. *)
Definition read (st : DataProcessor) (table : string) (row_id : Z) (column : string)
    : option value :=
  table_df st table ≫= λ df, read_cell df row_id column.

Definition read_original (st : DataProcessor) (table : string) (row_id : Z)
    (column : string) : option value :=
  original_df st table ≫= λ df, read_cell df row_id column.

(** What an accepted [update_cell] does to the session. *)
Lemma update_cell_accepted st table row_id column v now st' r :
  loaded st → update_cell st table row_id column v now = Ok (st', r) → succeeded r →
  ∃ df i j row new,
    table_df st table = Some df ∧ id_frame df ∧
    rows df !! i = Some row ∧ cell 0 row = VInt row_id ∧
    col_index column (columns df) = Some j ∧ column ≠ "_row_id" ∧
    validate_value table column v = Ok (new, None) ∧
    table_df st' table = Some (mkDF (columns df) (<[i:=<[j:=new]> row]> (rows df))) ∧
    (if is_sales table then claims_df st' = claims_df st else sales_df st' = sales_df st) ∧
    original_sales_df st' = original_sales_df st ∧
    original_claims_df st' = original_claims_df st ∧
    query_cache st' = ∅ ∧
    change_log st' =
      change_log st ++
      [mkEntry now table row_id column (serialize (cell j row)) (serialize new)] ∧
    r = success_result (cell j row) new.
Proof.
  intros Hl Hu Hs. apply update_cell_inv in Hu as [[-> [msg ->]]|Hacc];
    [by apply failure_not_succeeded in Hs|].
  destruct Hacc as (df & j & ri & r0 & new & st4 & Hdf & Hj & Hne & Hri & Hf & Hv & Hb & -> & ->).
  destruct (loaded_table_df _ table Hl) as (df' & Hdf' & Hid).
  assert (df' = df) as -> by congruence.
  rewrite (id_frame_row_id_index _ Hid) in Hri. injection Hri as <-.
  destruct (id_frame_find _ _ _ Hid Hf) as (i & Hi & Hc0 & Huniq).
  pose proof (edited_fields st table row_id column df 0 j (cell j r0) new now) as
    (Eos & Eoc & Es & Ec & Eq & El). cbv zeta in *.
  pose proof (build_merged_fields _ _ Hb) as (Bos & Boc & Bs & Bc & Bl & Bq & _).
  assert (Hm : row_mask 0 row_id r0 = true).
  { by rewrite (row_mask_int _ _ _ _ Hc0), bool_decide_eq_true_2. }
  assert (Hrows : loc_set df (row_mask 0 row_id) j new =
                  mkDF (columns df) (<[i:=<[j:=new]> r0]> (rows df))).
  { unfold loc_set at 1. f_equal. by apply (loc_set_single df row_id j new i r0). }
  exists df, i, j, r0, new. split_and!; try done; simpl; try congruence.
  - unfold table_df. simpl. rewrite Bs, Bc, Es, Ec, Hrows.
    by destruct (is_sales table).
  - rewrite Bs, Bc, Es, Ec. by destruct (is_sales table).
Qed.

(** C5. In every state reached by a load followed by mutations, resets and
    queries, row identifiers are distinct, and a successful [update_cell]
    rewrites the addressed table as itself with the single cell at the
    addressed row and column overwritten by the validated value: every
    other cell of that table, the other working table and both original
    snapshots are unchanged. *)
Theorem update_cell_frame st table row_id column v now st' r :
  reachable st → update_cell st table row_id column v now = Ok (st', r) → succeeded r →
  ∃ df i j row new,
    table_df st table = Some df ∧
    NoDup (cell 0 <$> rows df) ∧
    rows df !! i = Some row ∧ cell 0 row = VInt row_id ∧
    columns df !! j = Some column ∧
    validate_value table column v = Ok (new, None) ∧
    table_df st' table = Some (mkDF (columns df) (<[i:=<[j:=new]> row]> (rows df))) ∧
    (if is_sales table then claims_df st' = claims_df st else sales_df st' = sales_df st) ∧
    original_sales_df st' = original_sales_df st ∧
    original_claims_df st' = original_claims_df st.
Proof.
  intros Hr%reachable_loaded Hu Hs.
  destruct (update_cell_accepted _ _ _ _ _ _ _ _ Hr Hu Hs) as
    (df & i & j & row & new & Hdf & Hid & Hi & Hc0 & Hj & _ & Hv & Hdf' & Hother & Hos & Hoc & _).
  exists df, i, j, row, new. split_and!; try done.
  - by destruct Hid as (_ & _ & ? & _).
  - by apply col_index_lookup.
Qed.

(** C4. After an accepted [update_cell] on a loaded session, [reset_data]
    returns the number of change-log entries present just before it (one
    more than before the edit), empties the log, and makes both working
    tables equal to the snapshots taken at load time, so reading the edited
    cell yields its original value; that is the value the cell had before
    the edit whenever the cell still held its original value then. *)
Theorem reset_restores_original st table row_id column v now st1 r1 :
  loaded st → update_cell st table row_id column v now = Ok (st1, r1) → succeeded r1 →
  ∃ st2,
    reset_data st1 =
      Ok (st2, PDict [("success", PVal (VBool true));
                      ("changesReverted",
                       PVal (VInt (Z.of_nat (length (change_log st1)))))]) ∧
    length (change_log st1) = S (length (change_log st)) ∧
    change_log st2 = [] ∧
    sales_df st2 = original_sales_df st ∧ claims_df st2 = original_claims_df st ∧
    read st2 table row_id column = read_original st table row_id column ∧
    (read st table row_id column = read_original st table row_id column →
     read st2 table row_id column = read st table row_id column).
Proof.
  intros Hl Hu Hs.
  pose proof (update_cell_loaded _ _ _ _ _ _ _ _ Hl Hu) as Hl1.
  destruct (update_cell_accepted _ _ _ _ _ _ _ _ Hl Hu Hs) as
    (df & i & j & row & new & _ & _ & _ & _ & _ & _ & _ & _ & _ & Hos & Hoc & _ & Hlog & _).
  destruct (reset_data_loaded _ Hl1) as (st2 & Hr & Hs2 & Hc2 & _ & _ & Hl2 & _).
  exists st2.
  assert (Hread : read st2 table row_id column = read_original st table row_id column).
  { unfold read, read_original, table_df, original_df.
    rewrite Hs2, Hc2, Hos, Hoc. by destruct (is_sales table). }
  split_and!; try done; try congruence.
  rewrite Hlog, length_app. simpl. lia.
Qed.

End SessionEdits.


(** What [_validate_value] does with floats that are not finite numbers and
    with integers beyond the float range. *)
Example validate_infinity :
  validate_value (RT:=ascii_runtime) "sales" "Gross Premium" (VStr "inf")
    = Ok (VInf false, None) ∧
  validate_value (RT:=ascii_runtime) "sales" "Gross Premium" (VStr "-inf")
    = Ok (VNull, Some "Gross Premium must be >= 0") ∧
  validate_value (RT:=ascii_runtime) "sales" "Gross Premium" (VStr "nan")
    = Ok (VNaN, None) ∧
  validate_value (RT:=ascii_runtime) "sales" "Gross Premium" (VStr "abc")
    = Ok (VNull, Some "Gross Premium must be numeric") ∧
  validate_value (RT:=ascii_runtime) "sales" "Gross Premium" VNull
    = Ok (VNull, Some "Gross Premium must be numeric").
Proof. split_and!; reflexivity. Qed.

Example validate_overflow :
  validate_value (RT:=ascii_runtime) "sales" "Gross Premium" (VInt (- 10 ^ 400))
    = Raise OverflowError ∧
  update_cell (RT:=ascii_runtime) demo_state "sales" 0 "Gross Premium" (VInt (- 10 ^ 400))
    demo_now = Raise OverflowError ∧
  validate_value (RT:=ascii_runtime) "sales" "Gross Premium" (VInt (- 10 ^ 300))
    = Ok (VNull, Some "Gross Premium must be >= 0").
Proof. split_and!; vm_compute; reflexivity. Qed.

(** ** Query Cache: keys *)

Section CacheKeys.

(** The canonical form of a FilterSpec inside a cache key. *)
Definition norm (filters : option (gmap string value)) : option (gmap string value) :=
  snd (get_cache_key "" filters).

Lemma get_cache_key_split name filters :
  get_cache_key name filters = (name, norm filters).
Proof.
  unfold norm, get_cache_key. destruct filters as [f|]; [|done]. by case_bool_decide.
Qed.

Lemma filters_or_empty_norm filters :
  filters_or_empty filters = default ∅ (norm filters).
Proof.
  unfold norm, get_cache_key, filters_or_empty. destruct filters as [f|]; [|done].
  by case_bool_decide.
Qed.

Lemma norm_idemp filters : norm (norm filters) = norm filters.
Proof.
  unfold norm, get_cache_key. destruct filters as [f|]; [|done].
  case_bool_decide; simpl; [done|]. by rewrite bool_decide_eq_false_2.
Qed.

Lemma str_of_Z_inj a b : str_of_Z a = str_of_Z b → a = b.
Proof.
  unfold str_of_Z. intros E.
  assert (Hn : ∀ z, NilZero.int_of_string (NilZero.string_of_int (Z.to_int z))
                    = Some (Z.to_int z)).
  { intros z. apply NilZero.isi; destruct z; simpl; try discriminate;
      intros [= H]; by apply DecimalPos.Unsigned.to_uint_nonnil in H. }
  apply DecimalZ.to_int_inj.
  pose proof (Hn a) as Ha. rewrite E, Hn in Ha. congruence.
Qed.

Lemma query_name_inj q q' : query_name q = query_name q' → q = q'.
Proof.
  destruct q, q'; simpl; try done; try (intros [= ?]; done).
  intros E. f_equal. apply str_of_Z_inj.
  by apply (inj (String.append "get_claims_recent_")) in E.
Qed.

Lemma query_key_inj q f q' f' :
  query_key q f = query_key q' f' → q = q' ∧ norm f = norm f'.
Proof.
  unfold query_key. fold (norm f) (norm f'). intros [= E1 E2].
  split; [by apply query_name_inj | done].
Qed.

End CacheKeys.

(** ** Query Cache: what a cached operation returns *)

(** Case analysis on the outcomes of the computations a goal runs. *)
Ltac atomic_res m :=
  lazymatch m with
  | mbind _ _ => fail
  | fmap _ _ => fail
  | Ok _ => fail
  | Raise _ => fail
  | match _ with _ => _ end => fail
  | _ => idtac
  end.

Ltac res_cases :=
  repeat (simpl; try done;
          match goal with
          | |- context [mbind _ ?m] => atomic_res m; destruct m eqn:?
          | |- context [fmap _ ?m] => atomic_res m; destruct m eqn:?
          | |- context [match ?b with _ => _ end] => destruct b eqn:?
          end).

Section CacheRuns.
Context {RT : Runtime} {PL : Pipelines}.

Definition value_of (r : computed) : pyobj :=
  match r with Early v => v | Fresh v => v end.

(** The answer an operation other than [get_insights] computes on a cache
    miss; it reads the three frames of the session and nothing else. *)
Definition guarded (stored : option DataFrame) (empty : pyobj)
    (f : gmap string value) (pipeline : DataFrame → res computed) : res computed :=
  match stored with
  | None => Ok (Early empty)
  | Some src => df ← apply_filters src f; pipeline df
  end.

Definition answer (q : query) (st : DataProcessor) (f : gmap string value) : res computed :=
  match q with
  | QSummary =>
      match sales_df st with
      | None => Ok (Early (PDict []))
      | Some sdf => Fresh <$> summary_body sdf (claims_df st) (merged_df st) f
      end
  | QSalesMonthly =>
      guarded (sales_df st) empty_list f
        (λ df, if negb (has_col df "Year") || negb (has_col df "Month")
               then Ok (Early empty_list) else Fresh <$> sales_monthly_body df)
  | QSalesDealers =>
      guarded (sales_df st) empty_list f
        (λ df, match find_column df ["Dealer"] with
               | None => Ok (Early empty_list)
               | Some dealer_col =>
                   merged_f ← match merged_df st with
                              | None => Ok None
                              | Some m => Some <$> apply_filters m f
                              end;
                   Fresh <$> sales_dealers_body df dealer_col merged_f
               end)
  | QSalesProducts =>
      guarded (sales_df st) empty_list f
        (λ df, match find_column df ["Product"; "Coverage"] with
               | None => Ok (Early empty_list)
               | Some prod_col => Fresh <$> sales_products_body df prod_col
               end)
  | QSalesVehicles =>
      guarded (sales_df st) empty_list f
        (λ df, if negb (has_col df "Make") then Ok (Early empty_list)
               else Fresh <$> sales_vehicles_body df)
  | QClaimsStatus =>
      guarded (claims_df st) empty_list f
        (λ df, if negb (has_col df "Claim Status") then Ok (Early empty_list)
               else Fresh <$> claims_status_body df)
  | QClaimsParts =>
      guarded (claims_df st) empty_list f
        (λ df, if negb (has_col df "Part Type") then Ok (Early empty_list)
               else Fresh <$> claims_parts_body df)
  | QClaimsTrends =>
      guarded (claims_df st) empty_list f
        (λ df, if negb (has_col df "Year") || negb (has_col df "Month")
               then Ok (Early empty_list) else Fresh <$> claims_trends_body df)
  | QClaimsRecent limit =>
      match claims_df st with
      | None => Ok (Early empty_list)
      | Some src =>
          df ← apply_filters src f;
          df ← sort_stage df (find_column df ["Failure Date"; "Authorized Date"]) "desc";
          Ok (Fresh (to_records (drop_row_id
                (mkDF (columns df) (format_dates src (py_slice (rows df) 0 limit))))))
      end
  | QCorrelations =>
      guarded (merged_df st) empty_dict f (λ df, Fresh <$> correlations_body df)
  | QInsights => Ok (Early empty_list)
  end.

(** The memoisation around an answer. *)
Definition memo (st : DataProcessor) (key : string * option (gmap string value))
    (a : res computed) : res (DataProcessor * pyobj) :=
  match query_cache st !! key with
  | Some v => Ok (st, v)
  | None =>
      r ← a;
      match r with
      | Early v => Ok (st, v)
      | Fresh v => Ok (set_query_cache st (<[key:=v]> (query_cache st)), v)
      end
  end.

Lemma cached_query_memo st key compute a :
  compute st = (a ≫= λ r, Ok (st, r)) → cached_query st key compute = memo st key a.
Proof.
  unfold cached_query, memo. intros ->. destruct (query_cache st !! key); [done|].
  by destruct a.
Qed.

Lemma run_query_memo q st filters :
  q ≠ QInsights →
  run_query q st filters =
    memo st (query_key q filters) (answer q st (default ∅ (norm filters))).
Proof.
  intros Hq. rewrite <- filters_or_empty_norm. unfold query_key. fold (norm filters).
  destruct q; try done; unfold run_query, get_summary, get_sales_monthly,
    get_sales_dealers, get_sales_products, get_sales_vehicles, get_claims_status,
    get_claims_parts, get_claims_trends, get_claims_recent, get_correlations, breakdown;
    rewrite ?get_cache_key_split; simpl; apply cached_query_memo; simpl.
  Local Opaque summary_body apply_filters sort_stage.
  all: unfold guarded; res_cases.
Qed.

Lemma answer_ignores_cache q st c f :
  answer q (set_query_cache st c) f = answer q st f.
Proof. by destruct q. Qed.

End CacheRuns.

(** ** Query Cache: soundness of every entry *)

Section CacheSound.
Context {RT : Runtime} {PL : Pipelines}.

Lemma from_scratch_cache q st c f :
  from_scratch q (set_query_cache st c) f = from_scratch q st f.
Proof. reflexivity. Qed.

Lemma from_scratch_simple q st f :
  q ≠ QInsights →
  from_scratch q st f = value_of <$> answer q st (default ∅ (norm f)).
Proof.
  intros Hq. unfold from_scratch. rewrite run_query_memo by done.
  unfold memo. simpl. rewrite lookup_empty, answer_ignores_cache.
  destruct (answer q st _) as [[v|v]|]; done.
Qed.

Lemma memo_inv st key a st' v :
  memo st key a = Ok (st', v) →
  (query_cache st !! key = Some v ∧ st' = st) ∨
  (query_cache st !! key = None ∧
   ∃ r, a = Ok r ∧ v = value_of r ∧
        (st' = st ∨ st' = set_query_cache st (<[key:=v]> (query_cache st)))).
Proof.
  unfold memo. destruct (query_cache st !! key) as [v0|]; [intros [= <- <-]; by left|].
  destruct a as [[v0|v0]|]; simpl; intros; simplify_eq; right; eauto 10.
Qed.

Lemma run_query_norm_simple q st f f' :
  q ≠ QInsights → norm f = norm f' → run_query q st f = run_query q st f'.
Proof.
  intros Hq Hn. rewrite !run_query_memo by done. unfold query_key.
  fold (norm f) (norm f'). by rewrite Hn.
Qed.

Lemma run_query_norm q st f f' :
  norm f = norm f' → run_query q st f = run_query q st f'.
Proof.
  intros Hn. destruct (decide (q = QInsights)) as [->|Hq];
    [|by apply run_query_norm_simple].
  simpl. unfold get_insights, cached_query. rewrite !get_cache_key_split, Hn.
  destruct (query_cache st !! _); [done|]. destruct (sales_df st); [|done].
  change (get_summary st f) with (run_query QSummary st f).
  rewrite (run_query_norm_simple QSummary st f f') by done. simpl.
  destruct (get_summary st f') as [[st1 su]|]; [|done]. simpl.
  change (get_sales_dealers st1 f) with (run_query QSalesDealers st1 f).
  rewrite (run_query_norm_simple QSalesDealers st1 f f') by done. simpl.
  destruct (get_sales_dealers st1 f') as [[st2 de]|]; [|done]. simpl.
  change (get_sales_monthly st2 f) with (run_query QSalesMonthly st2 f).
  by rewrite (run_query_norm_simple QSalesMonthly st2 f f') by done.
Qed.

Lemma from_scratch_norm q st f f' :
  norm f = norm f' → from_scratch q st f = from_scratch q st f'.
Proof. intros Hn. unfold from_scratch. by rewrite (run_query_norm _ _ f f'). Qed.

(** A hit under a key returns what its operation computes from scratch. *)
Lemma cache_sound_hit st q f v :
  cache_sound st → query_cache st !! query_key q f = Some v →
  from_scratch q st f = Ok v.
Proof.
  intros Hs Hk. destruct (Hs _ _ Hk) as (q0 & f0 & Hkey & Hv).
  apply query_key_inj in Hkey as [-> Hn]. by rewrite (from_scratch_norm _ _ f f0).
Qed.

Lemma cache_sound_insert st q f v :
  cache_sound st → from_scratch q st f = Ok v →
  cache_sound (set_query_cache st (<[query_key q f:=v]> (query_cache st))).
Proof.
  intros Hs Hv k v0. simpl. intros Hk.
  destruct (decide (query_key q f = k)) as [<-|Hne].
  - rewrite lookup_insert_eq in Hk. simplify_eq. exists q, f. by rewrite from_scratch_cache.
  - rewrite lookup_insert_ne in Hk by done.
    destruct (Hs _ _ Hk) as (q0 & f0 & -> & Hv0). exists q0, f0.
    by rewrite from_scratch_cache.
Qed.

Lemma cache_sound_set st c :
  cache_sound st → c = query_cache st → cache_sound (set_query_cache st c).
Proof. intros Hs ->. by destruct st. Qed.

Lemma cache_sound_empty st : query_cache st = ∅ → cache_sound st.
Proof. intros He k v. by rewrite He, lookup_empty. Qed.

(** Running an operation other than [get_insights] on a sound cache. *)
Lemma run_simple_sound q st f st' v :
  q ≠ QInsights → cache_sound st → run_query q st f = Ok (st', v) →
  from_scratch q st f = Ok v ∧ (∃ c, st' = set_query_cache st c) ∧ cache_sound st'.
Proof.
  intros Hq Hs Hr. rewrite run_query_memo in Hr by done.
  apply memo_inv in Hr as [[Hk ->]|(Hk & r & Ha & -> & Hst)].
  - split_and!; [by apply cache_sound_hit| |done].
    exists (query_cache st). by destruct st.
  - assert (Hv : from_scratch q st f = Ok (value_of r)).
    { by rewrite from_scratch_simple, Ha. }
    split; [done|]. destruct Hst as [->| ->].
    + split; [|done]. exists (query_cache st). by destruct st.
    + split; [eauto|]. by apply cache_sound_insert.
Qed.

End CacheSound.

Section CacheInsights.
Context {RT : Runtime} {PL : Pipelines}.

Lemma query_key_name_ne q q' f f' : q ≠ q' → query_key q f ≠ query_key q' f'.
Proof. intros Hne [Hq _]%query_key_inj. done. Qed.

Local Opaque answer get_summary get_sales_dealers get_sales_monthly.

(** From scratch, [get_insights] combines the from-scratch summary, dealer
    breakdown and monthly series. *)
Lemma from_scratch_insights st f :
  from_scratch QInsights st f =
    match sales_df st with
    | None => Ok empty_list
    | Some _ =>
        su ← from_scratch QSummary st f;
        de ← from_scratch QSalesDealers st f;
        mo ← from_scratch QSalesMonthly st f;
        insights_body su de mo
    end.
Proof.
  rewrite (from_scratch_simple QSummary), (from_scratch_simple QSalesDealers),
    (from_scratch_simple QSalesMonthly) by done.
  unfold from_scratch. simpl. unfold get_insights, cached_query. simpl.
  rewrite lookup_empty. destruct (sales_df st) as [sdf|] eqn:Hs; [|done].
  change (get_summary ?s f) with (run_query QSummary s f).
  rewrite run_query_memo by done. unfold memo at 1. simpl. rewrite lookup_empty.
  rewrite answer_ignores_cache.
  destruct (answer QSummary st _) as [r1|]; [|done]. simpl.
  assert (Hnext : ∀ st1 v1, (∃ c, st1 = set_query_cache st c ∧
                              ∀ k, k ≠ query_key QSummary f → c !! k = None) →
    ('(st2, dealers) ← get_sales_dealers st1 f;
     '(st3, monthly) ← get_sales_monthly st2 f;
     r ← insights_body v1 dealers monthly;
     Ok (set_query_cache st3
           (<[get_cache_key "get_insights" f:=r]> (query_cache st3)), r))
    ≫= (λ p, Ok (snd p)) =
    (de ← value_of <$> answer QSalesDealers st (default ∅ (norm f));
     mo ← value_of <$> answer QSalesMonthly st (default ∅ (norm f));
     insights_body v1 de mo)).
  { intros st1 v1 (c & -> & Hc).
    change (get_sales_dealers ?s f) with (run_query QSalesDealers s f).
    rewrite run_query_memo by done. unfold memo at 1. simpl.
    rewrite Hc by (by apply query_key_name_ne). rewrite answer_ignores_cache.
    destruct (answer QSalesDealers st _) as [r2|]; [|done]. simpl.
    assert (Hlast : ∀ st2 v2, (∃ c2, st2 = set_query_cache st c2 ∧
                      c2 !! query_key QSalesMonthly f = None) →
      ('(st3, monthly) ← get_sales_monthly st2 f;
       r ← insights_body v1 v2 monthly;
       Ok (set_query_cache st3
             (<[get_cache_key "get_insights" f:=r]> (query_cache st3)), r))
      ≫= (λ p, Ok (snd p)) =
      (mo ← value_of <$> answer QSalesMonthly st (default ∅ (norm f));
       insights_body v1 v2 mo)).
    { intros st2 v2 (c2 & -> & Hc2).
      change (get_sales_monthly ?s f) with (run_query QSalesMonthly s f).
      rewrite run_query_memo by done. unfold memo at 1. simpl.
      rewrite Hc2, answer_ignores_cache.
      destruct (answer QSalesMonthly st _) as [[v3|v3]|]; simpl; [| |done];
        by destruct (insights_body v1 v2 v3). }
    destruct r2 as [v2|v2]; simpl; apply Hlast.
    - exists c. split; [done|]. by apply Hc, query_key_name_ne.
    - eexists. split; [reflexivity|]. rewrite lookup_insert_ne by (by apply query_key_name_ne).
      by apply Hc, query_key_name_ne. }
  destruct r1 as [v1|v1]; simpl.
  - rewrite <- (Hnext (set_query_cache st ∅) v1).
    + destruct (get_sales_dealers _ _) as [[st2 de]|]; simpl; [|done].
      destruct (get_sales_monthly st2 f) as [[st3 mo]|]; simpl; [|done].
      by destruct (insights_body v1 de mo).
    + exists ∅. split; [done|]. intros. apply lookup_empty.
  - rewrite <- (Hnext (set_query_cache st (<[query_key QSummary f:=v1]> ∅)) v1).
    + destruct (get_sales_dealers _ _) as [[st2 de]|]; simpl; [|done].
      destruct (get_sales_monthly st2 f) as [[st3 mo]|]; simpl; [|done].
      by destruct (insights_body v1 de mo).
    + eexists. split; [reflexivity|]. intros k Hk. rewrite lookup_insert_ne by done.
      apply lookup_empty.
Qed.

Lemma state_is_set st : ∃ c, st = set_query_cache st c.
Proof. exists (query_cache st). by destruct st. Qed.

Lemma run_insights_sound st f st' v :
  cache_sound st → run_query QInsights st f = Ok (st', v) →
  from_scratch QInsights st f = Ok v ∧ (∃ c, st' = set_query_cache st c) ∧ cache_sound st'.
Proof.
  intros Hs Hr. simpl in Hr. unfold get_insights, cached_query in Hr.
  rewrite get_cache_key_split in Hr.
  change ("get_insights", norm f) with (query_key QInsights f) in Hr.
  destruct (query_cache st !! query_key QInsights f) as [v0|] eqn:Hk.
  { simplify_eq. split_and!; [by apply cache_sound_hit|apply state_is_set|done]. }
  destruct (sales_df st) as [sdf|] eqn:Hsd.
  2:{ simpl in Hr. simplify_eq. split_and!; [|apply state_is_set|done].
      by rewrite from_scratch_insights, Hsd. }
  destruct (get_summary st f) as [[st1 su]|] eqn:H1; simpl in Hr; [|done].
  destruct (get_sales_dealers st1 f) as [[st2 de]|] eqn:H2; simpl in Hr; [|done].
  destruct (get_sales_monthly st2 f) as [[st3 mo]|] eqn:H3; simpl in Hr; [|done].
  destruct (insights_body su de mo) as [r|] eqn:H4; simpl in Hr; [|done].
  simplify_eq.
  destruct (run_simple_sound QSummary _ _ _ _ ltac:(done) Hs H1) as (F1 & [c1 ->] & S1).
  destruct (run_simple_sound QSalesDealers _ _ _ _ ltac:(done) S1 H2) as (F2 & [c2 ->] & S2).
  destruct (run_simple_sound QSalesMonthly _ _ _ _ ltac:(done) S2 H3) as (F3 & [c3 ->] & S3).
  change (from_scratch QSalesDealers st f = Ok de) in F2.
  change (from_scratch QSalesMonthly st f = Ok mo) in F3.
  assert (Hv : from_scratch QInsights st f = Ok v).
  { rewrite from_scratch_insights, Hsd, F1. simpl. rewrite F2. simpl. rewrite F3. exact H4. }
  split; [done|]. split; [eauto|].
  apply (cache_sound_insert _ QInsights f v S3). by rewrite !from_scratch_cache.
Qed.

(** Every cached operation, on a sound cache, returns what it computes from
    the current tables, changes nothing but the cache, and leaves it sound. *)
Lemma run_query_sound q st f st' v :
  cache_sound st → run_query q st f = Ok (st', v) →
  from_scratch q st f = Ok v ∧ (∃ c, st' = set_query_cache st c) ∧ cache_sound st'.
Proof.
  destruct (decide (q = QInsights)) as [->|Hq].
  - apply run_insights_sound.
  - by apply run_simple_sound.
Qed.

End CacheInsights.

Section CacheInvalidation.
Context {RT : Runtime} {PL : Pipelines}.

Lemma update_cell_cache st table row_id column x now st' r :
  update_cell st table row_id column x now = Ok (st', r) →
  (st' = st ∧ ¬ succeeded r) ∨ (query_cache st' = ∅ ∧ succeeded r).
Proof.
  intros [[-> [msg ->]]|Hacc]%update_cell_inv;
    [left; split; [done|apply failure_not_succeeded]|].
  destruct Hacc as (df & j & ri & r0 & new & st4 & _ & _ & _ & _ & _ & _ & Hb & -> & ->).
  right. split; [|done].
  pose proof (build_merged_fields _ _ Hb) as (_ & _ & _ & _ & _ & Bq & _).
  pose proof (edited_fields st table row_id column df ri j (cell j r0) new now) as
    (_ & _ & _ & _ & Eq & _). simpl. by rewrite Bq.
Qed.

Lemma reset_data_cache st st' r :
  reset_data st = Ok (st', r) →
  (st' = st ∧ ¬ succeeded r) ∨ (query_cache st' = ∅ ∧ succeeded r).
Proof.
  unfold reset_data. intros Hr.
  destruct (original_sales_df st); [|simplify_eq; left; split; [done|apply failure_not_succeeded]].
  destruct (original_claims_df st); [|done].
  destruct (build_merged _) as [st2|] eqn:Hb; simpl in Hr; [|done].
  simplify_eq. by right.
Qed.

Lemma load_excel_cache st s c st' : load_excel st s c = Ok st' → query_cache st' = ∅.
Proof.
  unfold load_excel. intros Hl.
  destruct (insert_row_id (mkDF (str_strip <$> columns s) (rows s))) as [s1|];
    simpl in Hl; [|done].
  destruct (insert_row_id (mkDF (str_strip <$> columns c) (rows c))) as [c1|];
    simpl in Hl; [|done].
  destruct (build_merged _) as [st4|] eqn:Hb; simpl in Hl; [|done].
  simplify_eq. pose proof (build_merged_fields _ _ Hb) as (_ & _ & _ & _ & _ & Bq & _).
  simpl. by rewrite Bq.
Qed.

Lemma update_cell_cache_sound st table row_id column x now st' r :
  cache_sound st → update_cell st table row_id column x now = Ok (st', r) →
  cache_sound st'.
Proof.
  intros Hs [[-> _]|[He _]]%update_cell_cache; [done | by apply cache_sound_empty].
Qed.

Lemma bulk_update_cache_sound st table updates now st' rs :
  cache_sound st → bulk_update_loop st table updates now = Ok (st', rs) →
  cache_sound st'.
Proof.
  revert st st' rs. induction updates as [|[[row_id column] x] us IH]; intros st st' rs Hs; simpl.
  - by intros [= <- _].
  - destruct (update_cell _ _ _ _ _ _) as [[st1 r]|] eqn:Hu; simpl; [|done].
    destruct (bulk_update_loop st1 _ _ _) as [[st2 rs']|] eqn:Hb; simpl; [|done].
    intros [= <- _]. eapply IH; [|exact Hb]. by eapply update_cell_cache_sound.
Qed.


End CacheInvalidation.

(** ** Closed instances on the fixture *)

Lemma demo_state_reachable : reachable (H:=ascii_runtime) demo_state.
Proof.
  apply (reach_load init sales_sheet claims_sheet demo_state).
  - by apply (bool_decide_unpack _).
  - by apply (bool_decide_unpack _).
  - exact demo_state_loads.
Qed.

(** C5, on the fixture: editing the dealer of row 1 of the sales table. *)
Lemma update_cell_frame_witness :
  ∃ df i j row new,
    table_df demo_state "sales" = Some df ∧
    NoDup (cell 0 <$> rows df) ∧
    rows df !! i = Some row ∧ cell 0 row = VInt 1 ∧
    columns df !! j = Some "Dealer" ∧
    validate_value (RT:=ascii_runtime) "sales" "Dealer" (VStr "East") = Ok (new, None) ∧
    table_df demo_edited "sales" =
      Some (mkDF (columns df) (<[i:=<[j:=new]> row]> (rows df))) ∧
    (if is_sales "sales" then claims_df demo_edited = claims_df demo_state
     else sales_df demo_edited = sales_df demo_state) ∧
    original_sales_df demo_edited = original_sales_df demo_state ∧
    original_claims_df demo_edited = original_claims_df demo_state.
Proof.
  exact (update_cell_frame (RT:=ascii_runtime) demo_state "sales" 1 "Dealer" (VStr "East")
           demo_now demo_edited demo_edit_result
           demo_state_reachable demo_edit_ok demo_edit_succeeded).
Defined.

(** C4, on the fixture: the edit above, then a reset. *)
Lemma reset_restores_original_witness :
  ∃ st2,
    reset_data demo_edited =
      Ok (st2, PDict [("success", PVal (VBool true));
                      ("changesReverted",
                       PVal (VInt (Z.of_nat (length (change_log demo_edited)))))]) ∧
    length (change_log demo_edited) = S (length (change_log demo_state)) ∧
    change_log st2 = [] ∧
    sales_df st2 = original_sales_df demo_state ∧
    claims_df st2 = original_claims_df demo_state ∧
    read st2 "sales" 1 "Dealer" = read_original demo_state "sales" 1 "Dealer" ∧
    (read demo_state "sales" 1 "Dealer" = read_original demo_state "sales" 1 "Dealer" →
     read st2 "sales" 1 "Dealer" = read demo_state "sales" 1 "Dealer").
Proof.
  exact (reset_restores_original (RT:=ascii_runtime) demo_state "sales" 1 "Dealer"
           (VStr "East") demo_now demo_edited demo_edit_result
           demo_state_loaded demo_edit_ok demo_edit_succeeded).
Defined.

Example demo_read_before : read demo_state "sales" 1 "Dealer" = Some (VStr "North").
Proof. reflexivity. Qed.

Example demo_read_edited : read demo_edited "sales" 1 "Dealer" = Some (VStr "East").
Proof. reflexivity. Qed.

Example demo_read_reset :
  (λ p, read (fst p) "sales" 1 "Dealer") <$> reset_data demo_edited
  = Ok (Some (VStr "North")).
Proof. reflexivity. Qed.


(** ** Before any load *)

Section NoData.
Context {RT : Runtime} {PL : Pipelines}.

(** No working data: neither table nor the merged view is set and nothing
    is cached, as on a fresh session and after a load that raised before it
    assigned the working copies. *)
Definition no_data (st : DataProcessor) : Prop :=
  sales_df st = None ∧ claims_df st = None ∧ merged_df st = None ∧ query_cache st = ∅.

Lemma answer_no_data q st f :
  no_data st → q ≠ QInsights → ∃ v, answer q st f = Ok (Early v) ∧
  v = match q with QSummary | QCorrelations => empty_dict | _ => empty_list end.
Proof.
  intros (Hs & Hc & Hm & _) Hq.
  destruct q; try done; eexists; (split; [|reflexivity]);
    unfold answer, guarded; by rewrite ?Hs, ?Hc, ?Hm.
Qed.

Lemma run_query_no_data q st filters :
  no_data st →
  run_query q st filters =
    Ok (st, match q with QSummary | QCorrelations => empty_dict | _ => empty_list end).
Proof.
  intros Hn. destruct (decide (q = QInsights)) as [->|Hq].
  - destruct Hn as (Hs & _ & _ & He). simpl. unfold get_insights, cached_query.
    by rewrite He, lookup_empty, Hs.
  - rewrite run_query_memo by done. unfold memo.
    destruct (answer_no_data q st (default ∅ (norm filters)) Hn Hq) as (v & -> & ->).
    destruct Hn as (_ & _ & _ & ->). by rewrite lookup_empty.
Qed.

Lemma load_excel_leaves_returned st s c st' :
  load_excel st s c = Ok st' → load_excel_leaves st s c = st'.
Proof.
  unfold load_excel, load_excel_leaves. intros Hl.
  destruct (insert_row_id (mkDF (str_strip <$> columns s) (rows s))) as [s1|];
    simpl in Hl; [|done].
  destruct (insert_row_id (mkDF (str_strip <$> columns c) (rows c))) as [c1|];
    simpl in Hl; [|done].
  destruct (build_merged _) as [st4|]; simpl in Hl; [|done]. by simplify_eq.
Qed.

(** A load that raises while inserting the row identifiers leaves a session
    without working data whose snapshots are assigned. *)
Lemma load_excel_leaves_no_data st s c :
  no_data st →
  (¬ is_Ok (insert_row_id (mkDF (str_strip <$> columns s) (rows s))) ∨
   ¬ is_Ok (insert_row_id (mkDF (str_strip <$> columns c) (rows c)))) →
  ¬ is_Ok (load_excel st s c) ∧
  no_data (load_excel_leaves st s c) ∧
  is_Some (original_sales_df (load_excel_leaves st s c)).
Proof.
  intros Hn Hbad. unfold load_excel, load_excel_leaves.
  destruct (insert_row_id (mkDF (str_strip <$> columns s) (rows s))) as [s1|] eqn:Es.
  - destruct (insert_row_id (mkDF (str_strip <$> columns c) (rows c))) as [c1|] eqn:Ec.
    + destruct Hbad as [[]|[]]; by eexists.
    + simpl. split_and!; [by intros [? ?]|done|by eexists].
  - simpl. split_and!; [by intros [? ?]|done|by eexists].
Qed.


End NoData.



(** ** The filter pipeline selects rows *)

Section Filters.
Context {RT : Runtime}.

(** [df'] has the columns of [df] and only rows of [df]. *)
Definition sub_frame (df' df : DataFrame) : Prop :=
  columns df' = columns df ∧ rows df' ⊆ rows df.

Lemma sub_frame_refl df : sub_frame df df.
Proof. by split. Qed.

Lemma sub_frame_trans a b c : sub_frame a b → sub_frame b c → sub_frame a c.
Proof. intros [? ?] [? ?]. split; [congruence | by etrans]. Qed.

Lemma select_rows_sub df p : sub_frame (select_rows df p) df.
Proof.
  split; [done|]. simpl. intros r Hr. apply list_elem_of_In in Hr.
  apply filter_In in Hr as [Hr _]. by apply list_elem_of_In.
Qed.

Lemma eq_stage_sub f k cs df : sub_frame (eq_stage f k cs df) df.
Proof.
  unfold eq_stage. repeat case_match; try apply sub_frame_refl. apply select_rows_sub.
Qed.

Lemma int_stage_sub f k c df df' : int_stage f k c df = Ok df' → sub_frame df' df.
Proof.
  unfold int_stage. repeat case_match; intros; simplify_eq/=; try apply sub_frame_refl.
  destruct (py_int _); simplify_eq/=. apply select_rows_sub.
Qed.

Lemma date_try_sub cmp df j bound df' :
  date_try cmp df j bound = Ok df' → sub_frame df' df.
Proof.
  unfold date_try. destruct (mapM _ _) as [dates|]; simpl; [|done].
  destruct (to_datetime bound); simpl; [|done]. intros [= <-]. split; [done|]. simpl.
  intros r [[r' d] [-> Hin]]%list_elem_of_fmap.
  apply list_elem_of_In, filter_In in Hin as [Hin _]. apply list_elem_of_In in Hin.
  by apply elem_of_zip_l in Hin.
Qed.

Lemma date_stage_sub cmp f k df : sub_frame (date_stage cmp f k df) df.
Proof.
  unfold date_stage. repeat case_match; try apply sub_frame_refl.
  unfold try_or. destruct (date_try _ _ _ _) eqn:E; [|apply sub_frame_refl].
  by eapply date_try_sub.
Qed.

Lemma search_stage_sub f df df' : search_stage f df = Ok df' → sub_frame df' df.
Proof.
  unfold search_stage. repeat case_match; intros; simplify_eq;
    try apply sub_frame_refl. apply select_rows_sub.
Qed.

Lemma apply_filters_sub df f df' : apply_filters df f = Ok df' → sub_frame df' df.
Proof.
  unfold apply_filters. intros H.
  destruct (int_stage f "year" "Year" _) as [r3|] eqn:E3; simpl in H; [|done].
  destruct (int_stage f "month" "Month" r3) as [r4|] eqn:E4; simpl in H; [|done].
  destruct (search_stage f _) as [r8|] eqn:E8; simpl in H; [|done].
  simplify_eq.
  eapply sub_frame_trans; [apply eq_stage_sub|].
  eapply sub_frame_trans; [by eapply search_stage_sub|].
  eapply sub_frame_trans; [apply date_stage_sub|].
  eapply sub_frame_trans; [apply date_stage_sub|].
  eapply sub_frame_trans; [apply eq_stage_sub|].
  eapply sub_frame_trans; [by eapply int_stage_sub|].
  eapply sub_frame_trans; [by eapply int_stage_sub|].
  eapply sub_frame_trans; apply eq_stage_sub.
Qed.

Lemma sort_stage_sub df sort_by sort_dir df' :
  sort_stage df sort_by sort_dir = Ok df' → sub_frame df' df ∧ rows df' ≡ₚ rows df.
Proof.
  unfold sort_stage. repeat case_match; intros; simplify_eq;
    try (split; [apply sub_frame_refl|done]).
  match goal with
  | H : sort_rows _ _ _ = Some _ |- _ =>
      apply sort_rows_perm in H; split; [split; [done|]|done];
      simpl; intros r Hr; by rewrite <- H
  end.
Qed.

End Filters.

(** ** Pagination *)

(** The least number of pages of [limit] rows that hold [total] rows. *)
Definition ceil_div (total limit : Z) : Z := - ((- total) `div` limit).

Lemma ceil_div_spec (total limit : Z) :
  0 < limit → (ceil_div total limit - 1) * limit < total ≤ ceil_div total limit * limit.
Proof.
  intros Hl. unfold ceil_div.
  pose proof (Z.div_mod (- total) limit ltac:(lia)) as Hd.
  pose proof (Z.mod_pos_bound (- total) limit Hl) as Hm. nia.
Qed.

Lemma ceil_div_unique (total limit c : Z) :
  0 < limit → (c - 1) * limit < total ≤ c * limit → c = ceil_div total limit.
Proof. intros Hl Hc. pose proof (ceil_div_spec total limit Hl). nia. Qed.

Lemma page_count_ceil (total limit : Z) :
  0 < limit → page_count total limit = Z.max 1 (ceil_div total limit).
Proof.
  intros Hl. unfold page_count. f_equal. apply ceil_div_unique; [done|].
  pose proof (Z.div_mod (total + limit - 1) limit ltac:(lia)) as Hd.
  pose proof (Z.mod_pos_bound (total + limit - 1) limit Hl) as Hm. nia.
Qed.

Lemma py_slice_page {A} (xs : list A) (start len : Z) :
  (0 ≤ start)%Z → (0 ≤ len)%Z →
  py_slice xs start (start + len) = take (Z.to_nat len) (drop (Z.to_nat start) xs).
Proof.
  intros Hs Hl. unfold py_slice, slice_bound.
  rewrite !bool_decide_eq_false_2 by lia.
  set (n := Z.of_nat (length xs)).
  destruct (decide (start ≤ n)%Z) as [Hle|Hgt].
  - rewrite (Z.min_l start n) by lia.
    destruct (decide (start + len ≤ n)%Z) as [Hle2|Hgt2].
    + rewrite Z.min_l by lia. f_equal. lia.
    + rewrite Z.min_r by lia.
      rewrite !take_ge; [done| |]; rewrite length_drop; subst n; lia.
  - rewrite !Z.min_r by lia. replace (Z.to_nat (n - n)) with O by lia.
    rewrite (drop_ge xs (Z.to_nat start)) by (subst n; lia). by rewrite take_nil.
Qed.

Section RawData.
Context {RT : Runtime}.

(** The frame a table name of [get_raw_data] addresses. *)
Definition raw_table (st : DataProcessor) (table : string) : option DataFrame :=
  if bool_decide (table = "sales") then sales_df st
  else if bool_decide (table = "claims") then claims_df st
  else None.

(** The filtered and optionally sorted frame the page is cut from. *)
Definition raw_view (src : DataFrame) (filters : option (gmap string value))
    (sort_by : option string) (sort_dir : string) : res DataFrame :=
  df ← apply_filters src (filters_or_empty filters);
  sort_stage df sort_by sort_dir.

Definition page_result (src df : DataFrame) (page pages limit : Z) : pyobj :=
  PDict [("rows",
          to_records (mkDF (columns df)
            (format_dates src
               (take (Z.to_nat limit) (drop (Z.to_nat ((page - 1) * limit)) (rows df))))));
         ("columns",
          PList ((λ c, PVal (VStr c)) <$>
                 List.filter (λ c, negb (bool_decide (c = "_row_id"))) (columns df)));
         ("total", PVal (VInt (Z.of_nat (length (rows df)))));
         ("page", PVal (VInt page));
         ("pages", PVal (VInt pages));
         ("limit", PVal (VInt limit))].

Lemma get_raw_data_view st table src page limit filters sort_by sort_dir df :
  raw_table st table = Some src → 0 < limit →
  raw_view src filters sort_by sort_dir = Ok df →
  let pages := page_count (Z.of_nat (length (rows df))) limit in
  get_raw_data st table page limit filters sort_by sort_dir =
    Ok (page_result src df (clamp_page page pages) pages limit).
Proof.
  intros Ht Hl Hv pages. unfold raw_table, raw_view in *. unfold get_raw_data.
  assert (Hst : (if bool_decide (table = "sales") then Some (sales_df st)
                 else if bool_decide (table = "claims") then Some (claims_df st)
                 else None) = Some (Some src)).
  { destruct (bool_decide (table = "sales")); [by rewrite Ht|].
    destruct (bool_decide (table = "claims")); [by rewrite Ht|done]. }
  rewrite Hst. destruct (apply_filters src _) as [d|]; simpl in *; [|done].
  rewrite Hv. simpl. rewrite bool_decide_eq_false_2 by lia.
  fold pages. unfold page_result. do 4 f_equal.
  rewrite py_slice_page; [done| |lia]. unfold clamp_page. nia.
Qed.

Lemma get_raw_data_inv st table page limit filters sort_by sort_dir r :
  get_raw_data st table page limit filters sort_by sort_dir = Ok r →
  match raw_table st table with
  | None => r = empty_page
  | Some src =>
      ∃ df, raw_view src filters sort_by sort_dir = Ok df ∧ limit ≠ 0 ∧
            obj_get "columns" r =
              Some (PList ((λ c, PVal (VStr c)) <$>
                     List.filter (λ c, negb (bool_decide (c = "_row_id"))) (columns df))) ∧
            ∃ rs, rs ⊆ rows df ∧
                  obj_get "rows" r = Some (to_records (mkDF (columns df) (format_dates src rs)))
  end.
Proof.
  unfold get_raw_data, raw_table, raw_view. intros H. cbv zeta in H.
  assert (Hcommon : ∀ src,
    (df ← apply_filters src (filters_or_empty filters);
     df0 ← sort_stage df sort_by sort_dir;
     (if bool_decide (limit = 0) then Raise ZeroDivisionError
      else
        Ok (PDict [("rows",
                    to_records (mkDF (columns df0)
                      (format_dates src
                         (py_slice (rows df0)
                            ((clamp_page page
                                (page_count (Z.of_nat (length (rows df0))) limit) - 1)
                             * limit)
                            ((clamp_page page
                                (page_count (Z.of_nat (length (rows df0))) limit) - 1)
                             * limit + limit)))));
                   ("columns",
                    PList ((λ c, PVal (VStr c)) <$>
                      List.filter (λ c, negb (bool_decide (c = "_row_id"))) (columns df0)));
                   ("total", PVal (VInt (Z.of_nat (length (rows df0)))));
                   ("page", PVal (VInt (clamp_page page
                      (page_count (Z.of_nat (length (rows df0))) limit))));
                   ("pages", PVal (VInt (page_count (Z.of_nat (length (rows df0))) limit)));
                   ("limit", PVal (VInt limit))]))) = Ok r →
    ∃ df, (apply_filters src (filters_or_empty filters)
             ≫= λ df, sort_stage df sort_by sort_dir) = Ok df ∧ limit ≠ 0 ∧
      obj_get "columns" r =
        Some (PList ((λ c, PVal (VStr c)) <$>
               List.filter (λ c, negb (bool_decide (c = "_row_id"))) (columns df))) ∧
      ∃ rs, rs ⊆ rows df ∧
            obj_get "rows" r = Some (to_records (mkDF (columns df) (format_dates src rs)))).
  { intros src Hr.
    destruct (apply_filters src _) as [d|]; simpl in *; [|done].
    destruct (sort_stage d sort_by sort_dir) as [df|]; simpl in *; [|done].
    case_bool_decide; [done|]. simplify_eq. exists df. split_and!; try done.
    eexists. split; [|reflexivity].
    unfold py_slice. etrans; [apply subseteq_take|apply subseteq_drop]. }
  destruct (bool_decide (table = "sales")).
  - destruct (sales_df st) as [src|]; [|by simplify_eq]. by apply Hcommon.
  - destruct (bool_decide (table = "claims")); [|by simplify_eq].
    destruct (claims_df st) as [src|]; [|by simplify_eq]. by apply Hcommon.
Qed.

End RawData.

Section RawDataPages.
Context {RT : Runtime}.

(** C8 (as amended). For a stored table, a positive limit and any page
    number: with [total] the number of rows that survive the filter (and the
    optional sort), the page count is [max(1, ceil(total/limit))] (so it is
    [ceil(total/limit)] as soon as a row survives, and 1 when none does),
    the requested page is clamped into [[1, pages]], and the rows returned
    are those of the slice [[(page-1)*limit, page*limit)] of the filtered
    and sorted frame. *)
Theorem get_raw_data_page st table src (page limit : Z) filters sort_by sort_dir df :
  raw_table st table = Some src → 0 < limit →
  raw_view src filters sort_by sort_dir = Ok df →
  let total := Z.of_nat (length (rows df)) in
  let pages := Z.max 1 (ceil_div total limit) in
  let p := Z.max 1 (Z.min page pages) in
  (ceil_div total limit - 1) * limit < total ≤ ceil_div total limit * limit ∧
  (0 < total → pages = ceil_div total limit) ∧
  (total = 0 → pages = 1) ∧
  (1 ≤ p ≤ pages)%Z ∧ ((1 ≤ page ≤ pages)%Z → p = page) ∧
  get_raw_data st table page limit filters sort_by sort_dir =
    Ok (page_result src df p pages limit).
Proof.
  intros Ht Hl Hv total pages p.
  pose proof (ceil_div_spec total limit Hl) as Hc.
  split_and!; try (subst pages p; nia).
  rewrite (get_raw_data_view _ _ _ _ _ _ _ _ _ Ht Hl Hv). cbv zeta.
  by rewrite page_count_ceil.
Qed.

Lemma dict_get_is_Some k (kvs : list (string * pyobj)) :
  k ∈ kvs.*1 → is_Some (dict_get k kvs).
Proof.
  induction kvs as [|[k' v] kvs IH]; simpl; [by intros ?%elem_of_nil|].
  case_bool_decide; [eauto|]. intros [?|?]%elem_of_cons; [congruence|eauto].
Qed.

Lemma format_dates_rows src rs r' :
  r' ∈ format_dates src rs → ∃ r, r ∈ rs ∧ length r' = length r.
Proof.
  unfold format_dates. intros (r & -> & Hr)%list_elem_of_fmap.
  exists r. split; [done|]. by rewrite length_imap.
Qed.

Lemma raw_view_sub src filters sort_by sort_dir df :
  raw_view src filters sort_by sort_dir = Ok df → sub_frame df src.
Proof.
  unfold raw_view. destruct (apply_filters src _) as [d|] eqn:E; simpl; [|done].
  intros [Hs _]%sort_stage_sub. eapply sub_frame_trans; [exact Hs|].
  by eapply apply_filters_sub.
Qed.

(** C9 (as amended). The column list [get_raw_data] returns is the stored
    table's column list without ['_row_id'].  Each row record is keyed by
    all the stored columns: it carries the ['_row_id'] entry whenever the
    table has that column, as every loaded table does. *)
Theorem get_raw_data_row_id st table src (page limit : Z) filters sort_by sort_dir r :
  raw_table st table = Some src → wf_df src →
  get_raw_data st table page limit filters sort_by sort_dir = Ok r →
  ∃ cols recs,
    obj_get "columns" r = Some (PList ((λ c, PVal (VStr c)) <$> cols)) ∧
    cols = List.filter (λ c, negb (bool_decide (c = "_row_id"))) (columns src) ∧
    ("_row_id" ∉ cols) ∧
    obj_get "rows" r = Some (PList recs) ∧
    ∀ rec, rec ∈ recs →
      ∃ kvs, rec = PDict kvs ∧ kvs.*1 = columns src ∧
             ("_row_id" ∈ columns src → is_Some (dict_get "_row_id" kvs)).
Proof.
  intros Ht [_ Hrect] Hr. apply get_raw_data_inv in Hr. rewrite Ht in Hr.
  destruct Hr as (df & Hv & _ & Hcols & rs & Hrs & Hrows).
  destruct (raw_view_sub _ _ _ _ _ Hv) as [Hc Hsub].
  eexists _, _. rewrite Hcols, Hrows, Hc. split_and!; try done.
  - intros Hin%list_elem_of_In%filter_In. destruct Hin as [_ Hn].
    by rewrite bool_decide_eq_true_2 in Hn.
  - intros rec (r' & -> & Hr')%list_elem_of_fmap. simpl in *.
    destruct (format_dates_rows _ _ _ Hr') as (r0 & Hr0 & Hlen).
    assert (Hl : length r0 = length (columns src)).
    { rewrite Forall_forall in Hrect. apply Hrect.
      apply list_elem_of_In. by apply Hsub, Hrs. }
    eexists. split; [reflexivity|].
    assert (Hk : (zip (columns src) (PVal <$> r')).*1 = columns src).
    { apply fst_zip. rewrite length_fmap. lia. }
    split; [done|]. intros Hin. apply dict_get_is_Some. by rewrite Hk.
Qed.

End RawDataPages.

(** C8, on the 101-row fixture: page 99 of pages of 100 rows. *)
Lemma get_raw_data_page_witness :
  let total := Z.of_nat (length (rows long_sales)) in
  let pages := Z.max 1 (ceil_div total 100) in
  let p := Z.max 1 (Z.min 99 pages) in
  (ceil_div total 100 - 1) * 100 < total ≤ ceil_div total 100 * 100 ∧
  (0 < total → pages = ceil_div total 100) ∧
  (total = 0 → pages = 1) ∧
  (1 ≤ p ≤ pages)%Z ∧ ((1 ≤ 99 ≤ pages)%Z → p = 99) ∧
  get_raw_data (RT:=ascii_runtime) long_state "sales" 99 100 None None "asc" =
    Ok (page_result (RT:=ascii_runtime) long_sales long_sales p pages 100).
Proof.
  exact (get_raw_data_page (RT:=ascii_runtime) long_state "sales" long_sales 99 100
           None None "asc" long_sales eq_refl eq_refl eq_refl).
Defined.

Example long_pages :
  ceil_div 101 100 = 2 ∧ page_count 101 100 = 2 ∧
  clamp_page 99 2 = 2 ∧ clamp_page 1 2 = 1.
Proof. done. Qed.

(** The page number, the page count and the number of row records of a
    returned page. *)
Definition page_shape (r : pyobj) : option pyobj * option pyobj * option nat :=
  (obj_get "page" r, obj_get "pages" r,
   (λ rows, match rows with PList recs => length recs | _ => O end)
     <$> obj_get "rows" r).

Example long_page_one :
  page_shape <$> get_raw_data (RT:=ascii_runtime) long_state "sales" 1 100 None None "asc"
  = Ok (Some (PVal (VInt 1)), Some (PVal (VInt 2)), Some 100%nat).
Proof. vm_compute. reflexivity. Qed.

Example long_page_ninety_nine :
  page_shape <$> get_raw_data (RT:=ascii_runtime) long_state "sales" 99 100 None None "asc"
  = Ok (Some (PVal (VInt 2)), Some (PVal (VInt 2)), Some 1%nat).
Proof. vm_compute. reflexivity. Qed.

(** C8 as stated fails when no row survives the filter: the page count is
    1, not [ceil(0/100) = 0]. *)
Lemma pages_not_ceil_counterexample :
  ∃ r, get_raw_data (RT:=ascii_runtime) demo_state "sales" 1 100 no_match None "asc" = Ok r ∧
       obj_get "total" r = Some (PVal (VInt 0)) ∧
       obj_get "pages" r = Some (PVal (VInt 1)) ∧
       obj_get "pages" r ≠ Some (PVal (VInt (ceil_div 0 100))).
Proof. eexists. split; [vm_compute; reflexivity|]. by split_and!. Qed.

(** C9, on the three-policy fixture. *)
Lemma get_raw_data_row_id_witness :
  ∃ cols recs,
    obj_get "columns" demo_page = Some (PList ((λ c, PVal (VStr c)) <$> cols)) ∧
    cols = List.filter (λ c, negb (bool_decide (c = "_row_id"))) (columns demo_sales) ∧
    ("_row_id" ∉ cols) ∧
    obj_get "rows" demo_page = Some (PList recs) ∧
    ∀ rec, rec ∈ recs →
      ∃ kvs, rec = PDict kvs ∧ kvs.*1 = columns demo_sales ∧
             ("_row_id" ∈ columns demo_sales → is_Some (dict_get "_row_id" kvs)).
Proof.
  exact (get_raw_data_row_id (RT:=ascii_runtime) demo_state "sales" demo_sales 1 100
           None None "asc" demo_page eq_refl (bool_decide_unpack (wf_df demo_sales) I) demo_page_ok).
Defined.

(** C9 as stated fails: the first row record of the fixture's sales page
    carries its ['_row_id']. *)
Lemma row_record_has_row_id_counterexample :
  ∃ rec recs,
    demo_page_call = Ok demo_page ∧
    obj_get "rows" demo_page = Some (PList (rec :: recs)) ∧
    obj_get "_row_id" rec = Some (PVal (VInt 0)).
Proof. eexists _, _. split; [reflexivity|]. by split. Qed.

(** ** Date bounds fail open *)

Section DateFilters.
Context {RT : Runtime}.

Lemma mapM_raise {A B} (f : A → res B) l x :
  x ∈ l → ¬ is_Ok (f x) → ¬ is_Ok (mapM f l).
Proof.
  induction l as [|y l IH]; [by intros ?%elem_of_nil|].
  intros Hin Hx [bs Hm]. simpl in Hm.
  destruct (f y) as [b|] eqn:Ey; simpl in Hm; [|done].
  destruct (mapM f l) as [bs'|] eqn:El; simpl in Hm; [|done].
  apply elem_of_cons in Hin as [->|Hin].
  - apply Hx. rewrite Ey. by eexists.
  - apply (IH Hin Hx). by eexists.
Qed.

Lemma date_try_bad_bound cmp df j bound :
  ¬ is_Ok (to_datetime bound) → try_or (date_try cmp df j bound) df = df.
Proof.
  intros Hb. unfold date_try. destruct (mapM _ _); simpl; [|done].
  destruct (to_datetime bound); simpl; [|done]. destruct Hb. by eexists.
Qed.

Lemma date_try_bad_row cmp df j bound r :
  r ∈ rows df → ¬ is_Ok (to_datetime (cell j r)) →
  try_or (date_try cmp df j bound) df = df.
Proof.
  intros Hr Hbad. unfold date_try.
  destruct (mapM to_datetime (cell j <$> rows df)) as [dates|] eqn:Em; simpl; [|done].
  destruct (mapM_raise to_datetime (cell j <$> rows df) (cell j r)); [|done|by eexists].
  apply list_elem_of_fmap. eauto.
Qed.

Lemma fget_delete_ne (f : gmap string value) k k' :
  k ≠ k' → fget (delete k f) k' = fget f k'.
Proof. intros Hne. unfold fget. by rewrite lookup_delete_ne. Qed.

Lemma fget_delete_eq (f : gmap string value) k : fget (delete k f) k = VNull.
Proof. unfold fget. by rewrite lookup_delete_eq. Qed.

Lemma eq_stage_ext f g k cs df : fget f k = fget g k → eq_stage f k cs df = eq_stage g k cs df.
Proof. intros E. unfold eq_stage, active. by rewrite E. Qed.

Lemma int_stage_ext f g k c df : fget f k = fget g k → int_stage f k c df = int_stage g k c df.
Proof. intros E. unfold int_stage, active. by rewrite E. Qed.

Lemma date_stage_ext cmp f g k df :
  fget f k = fget g k → date_stage cmp f k df = date_stage cmp g k df.
Proof. intros E. unfold date_stage. by rewrite E. Qed.

Lemma search_stage_ext f g df :
  fget f "search" = fget g "search" → search_stage f df = search_stage g df.
Proof. intros E. unfold search_stage. by rewrite E. Qed.

Lemma date_stage_bad_bound cmp f k df :
  ¬ is_Ok (to_datetime (fget f k)) → date_stage cmp f k df = df.
Proof.
  intros Hb. unfold date_stage. repeat case_match; try done.
  by apply date_try_bad_bound.
Qed.

Lemma date_stage_absent cmp f k df : fget f k = VNull → date_stage cmp f k df = df.
Proof. intros E. unfold date_stage. by rewrite E. Qed.

Lemma date_stage_parsed cmp f k df c j dates b :
  truthy (fget f k) = true →
  find_column df date_candidates = Some c → col_index c (columns df) = Some j →
  mapM to_datetime (cell j <$> rows df) = Ok dates → to_datetime (fget f k) = Ok b →
  date_stage cmp f k df
  = mkDF (columns df)
         (fst <$> List.filter (λ rd : row * option Z, ts_cmp cmp (snd rd) b)
                              (zip (rows df) dates)).
Proof.
  intros Ht Hc Hj Hd Hb. unfold date_stage. rewrite Ht, Hc, Hj. unfold date_try.
  rewrite Hd. simpl. rewrite Hb. done.
Qed.

(** C7, as the code behaves.  A date bound that does not parse imposes no
    constraint: its stage returns the frame unchanged, and the whole pipeline
    returns what it returns for the same FilterSpec without that bound.  One
    cell of the date column that does not parse disables the bound for the
    whole table, not for its row alone: the stage returns the frame
    unchanged, rows outside the bound included.  When the bound and every
    cell parse, the stage keeps the rows whose date compares true with the
    bound; a row with a missing date is dropped.  The stages are total: the
    [try ... except] leaves nothing to escape. *)
Theorem date_filter_fails_open (f : gmap string value) :
  (∀ cmp k df, ¬ is_Ok (to_datetime (fget f k)) → date_stage cmp f k df = df) ∧
  (∀ cmp k df c j r,
     find_column df date_candidates = Some c → col_index c (columns df) = Some j →
     r ∈ rows df → ¬ is_Ok (to_datetime (cell j r)) →
     date_stage cmp f k df = df) ∧
  (∀ k df, k ∈ ["date_from"; "date_to"] → ¬ is_Ok (to_datetime (fget f k)) →
     apply_filters df f = apply_filters df (delete k f)) ∧
  (∀ cmp k df c j dates b,
     truthy (fget f k) = true →
     find_column df date_candidates = Some c → col_index c (columns df) = Some j →
     mapM to_datetime (cell j <$> rows df) = Ok dates → to_datetime (fget f k) = Ok b →
     date_stage cmp f k df
     = mkDF (columns df)
            (fst <$> List.filter (λ rd : row * option Z, ts_cmp cmp (snd rd) b)
                                 (zip (rows df) dates))).
Proof.
  split_and!.
  - intros cmp k df. apply date_stage_bad_bound.
  - intros cmp k df c j r Hc Hj Hr Hbad. unfold date_stage.
    destruct (truthy (fget f k)); [|done]. rewrite Hc, Hj.
    by rewrite (date_try_bad_row _ _ _ _ r).
  - intros k df Hk Hbad. unfold apply_filters.
    assert (Hne : ∀ k', k' ∈ ["dealer"; "product"; "year"; "month"; "make";
                              "search"; "claim_status"] →
                        fget f k' = fget (delete k f) k').
    { intros k' Hk'. symmetry. apply fget_delete_ne. intros ->.
      apply elem_of_cons in Hk as [->|Hk]; [|apply list_elem_of_singleton in Hk as ->];
        by apply (bool_decide_pack _) in Hk'. }
    rewrite (eq_stage_ext f (delete k f) "dealer") by (apply Hne; by apply (bool_decide_unpack _)).
    rewrite (eq_stage_ext f (delete k f) "product") by (apply Hne; by apply (bool_decide_unpack _)).
    rewrite (int_stage_ext f (delete k f) "year") by (apply Hne; by apply (bool_decide_unpack _)).
    destruct (int_stage (delete k f) "year" "Year" _) as [r3|]; simpl; [|done].
    rewrite (int_stage_ext f (delete k f) "month") by (apply Hne; by apply (bool_decide_unpack _)).
    destruct (int_stage (delete k f) "month" "Month" _) as [r4|]; simpl; [|done].
    rewrite (eq_stage_ext f (delete k f) "make") by (apply Hne; by apply (bool_decide_unpack _)).
    assert (Hdates :
      date_stage Z.leb f "date_to" (date_stage Z.geb f "date_from"
        (eq_stage (delete k f) "make" ["Make"] r4)) =
      date_stage Z.leb (delete k f) "date_to" (date_stage Z.geb (delete k f) "date_from"
        (eq_stage (delete k f) "make" ["Make"] r4))).
    { apply elem_of_cons in Hk as [->|Hk]; [|apply list_elem_of_singleton in Hk as ->].
      - rewrite (date_stage_bad_bound _ f "date_from") by done.
        rewrite (date_stage_absent _ (delete "date_from" f) "date_from")
          by apply fget_delete_eq.
        apply date_stage_ext. symmetry. by apply fget_delete_ne.
      - rewrite (date_stage_bad_bound _ f "date_to") by done.
        rewrite (date_stage_absent _ (delete "date_to" f) "date_to")
          by apply fget_delete_eq.
        apply date_stage_ext. symmetry. by apply fget_delete_ne. }
    rewrite Hdates.
    rewrite (search_stage_ext f (delete k f)) by (apply Hne; by apply (bool_decide_unpack _)).
    destruct (search_stage (delete k f) _) as [r8|]; simpl; [|done].
    by rewrite (eq_stage_ext f (delete k f) "claim_status") by (apply Hne; by apply (bool_decide_unpack _)).
  - intros. by eapply date_stage_parsed.
Qed.

End DateFilters.

(** C7, on the fixtures: a lower bound that is not a date, and a sale date
    that is not a date. *)
Lemma date_filter_fails_open_witness :
  apply_filters (RT:=ascii_runtime) dated_sales bad_date_from =
    apply_filters (RT:=ascii_runtime) dated_sales (delete "date_from" bad_date_from) ∧
  date_stage (RT:=ascii_runtime) Z.geb good_date_from "date_from" mixed_dates = mixed_dates.
Proof.
  split.
  - refine (proj1 (proj2 (proj2 (date_filter_fails_open (RT:=ascii_runtime) bad_date_from)))
              "date_from" dated_sales _ _).
    + by left.
    + intros [d Hd]. vm_compute in Hd. discriminate.
  - refine (proj1 (proj2 (date_filter_fails_open (RT:=ascii_runtime) good_date_from))
              Z.geb "date_from" mixed_dates "Policy Sold Date" 2%nat
              [VInt 0; VStr "A"; VStr "n/a"] eq_refl eq_refl _ _).
    + by left.
    + intros [d Hd]. vm_compute in Hd. discriminate.
Defined.

(** C7 as stated fails: the filter does not fail open row by row.  With the
    lower bound 2019-01-01, policy B (sold 2017-05-10) is filtered out of the
    clean table, but kept once another row of the table carries a sale date
    that does not parse. *)
Lemma bad_row_disables_bound_counterexample :
  rows <$> apply_filters (RT:=ascii_runtime) clean_dates good_date_from
    = Ok [[VInt 2; VStr "C"; VDate 20200102]] ∧
  rows <$> apply_filters (RT:=ascii_runtime) mixed_dates good_date_from
    = Ok [[VInt 0; VStr "A"; VStr "n/a"];
          [VInt 1; VStr "B"; VDate 20170510];
          [VInt 2; VStr "C"; VDate 20200102]] ∧
  to_datetime (RT:=ascii_runtime) (VDate 20170510) = Ok (Some 20170510) ∧
  to_datetime (RT:=ascii_runtime) (fget good_date_from "date_from") = Ok (Some 20190101) ∧
  Z.geb 20170510 20190101 = false.
Proof. split_and!; reflexivity. Qed.

Example bad_bound_keeps_all :
  apply_filters (RT:=ascii_runtime) dated_sales bad_date_from = Ok dated_sales ∧
  apply_filters (RT:=ascii_runtime) dated_sales ∅ = Ok dated_sales.
Proof. split; reflexivity. Qed.

Example good_bound_selects :
  rows <$> apply_filters (RT:=ascii_runtime) dated_sales good_date_from =
  Ok [[VInt 2; VStr "C"; VDate 20190301];
      [VInt 3; VStr "D"; VDate 20190715];
      [VInt 4; VStr "E"; VDate 20200102]].
Proof. reflexivity. Qed.

(** ** The KPI summary *)

Section Summary.
Context {RT : Runtime} {PL : Pipelines}.

Definition summary_keys : list string :=
  ["totalPremium"; "totalRiskPremium"; "totalClaimsAmount"; "totalPolicies";
   "totalClaims"; "claimRate"; "lossRatio"; "avgClaimCost"; "avgPremium";
   "policiesWithClaims"; "uniqueMakes"].

(** Whatever the frames and the FilterSpec, a computed summary has exactly
    the eleven keys of [summary_keys]. *)
Lemma summary_body_keys sdf cdf mdf f r :
  summary_body sdf cdf mdf f = Ok r → ∃ kvs, r = PDict kvs ∧ kvs.*1 = summary_keys.
Proof.
  unfold summary_body. intros H.
  repeat match type of H with
         | context [mbind _ ?m] =>
             atomic_res m; destruct m; simpl in H; [|discriminate H]
         end.
  destruct mdf as [m|]; simpl in H;
    repeat match type of H with
           | context [mbind _ ?m] =>
               atomic_res m; destruct m; simpl in H; [|discriminate H]
           end; simplify_eq; eexists; split; reflexivity.
Qed.

Lemma dict_get_None k (kvs : list (string * pyobj)) : k ∉ kvs.*1 → dict_get k kvs = None.
Proof.
  induction kvs as [|[k' v] kvs IH]; simpl; [done|].
  intros [Hne Hn]%not_elem_of_cons. rewrite bool_decide_eq_false_2 by done. by apply IH.
Qed.

(** No summary that [get_summary] returns has a ['uniqueDealers'] entry. *)
Lemma get_summary_no_unique_dealers st filters st' r :
  cache_sound st → get_summary st filters = Ok (st', r) →
  obj_get "uniqueDealers" r = None.
Proof.
  intros Hs Hr.
  destruct (run_simple_sound QSummary st filters st' r ltac:(done) Hs Hr) as (Hf & _).
  rewrite from_scratch_simple in Hf by done. simpl in Hf.
  destruct (sales_df st) as [sdf|]; simpl in Hf; [|by simplify_eq].
  destruct (summary_body sdf _ _ _) as [r0|] eqn:Hb; simpl in Hf; [|done]. simplify_eq.
  apply summary_body_keys in Hb as (kvs & -> & Hk). simpl.
  apply dict_get_None. rewrite Hk. by apply (bool_decide_unpack _).
Qed.

Local Opaque obj_get mapM.

(** So the AI summary, which formats ['uniqueDealers'] out of the summary,
    returns only when there is no summary to format. *)
Lemma get_data_summary_for_ai_returns st filters st' fields :
  cache_sound st → get_data_summary_for_ai st filters = Ok (st', fields) →
  fields = [] ∧ sales_df st = None.
Proof.
  intros Hs. unfold get_data_summary_for_ai.
  destruct (get_summary st filters) as [[st1 summary]|] eqn:Hg; simpl; [|done].
  pose proof (get_summary_no_unique_dealers _ _ _ _ Hs Hg) as Hn.
  destruct (run_simple_sound QSummary st filters st1 summary ltac:(done) Hs Hg) as (Hf & _).
  rewrite from_scratch_simple in Hf by done. simpl in Hf.
  destruct (sales_df st) as [sdf|]; simpl in Hf.
  - destruct (summary_body sdf _ _ _) as [r0|] eqn:Hb; simpl in Hf; [|done]. simplify_eq.
    apply summary_body_keys in Hb as (kvs & -> & Hk).
    destruct kvs as [|kv kvs]; [done|].
    destruct (get_filter_options st1); simpl; [|done].
    destruct (mapM _ ai_summary_keys) as [fs|] eqn:Em; simpl; [|done].
    exfalso.
    match type of Em with
    | mapM ?g _ = _ => apply (mapM_raise g ai_summary_keys "uniqueDealers")
    end.
    + by apply (bool_decide_unpack _).
    + rewrite Hn. by intros [? ?].
    + by eexists.
  - simplify_eq. by intros [= <- <-].
Qed.

End Summary.

(** C6, at the failing input: on the loaded three-policy fixture, whose sales
    table has a dealer column with two dealers, the summary has no
    ['uniqueDealers'] entry (it has ['uniqueMakes']), and the AI summary
    that reads it raises [KeyError]. *)
Lemma summary_lacks_unique_dealers :
  get_summary (RT:=ascii_runtime) demo_state None = Ok (demo_queried, demo_summary) ∧
  nunique_of demo_sales "Dealer" = VInt 2 ∧
  obj_get "uniqueMakes" demo_summary = Some (PVal (VInt 2)) ∧
  obj_get "uniqueDealers" demo_summary = None ∧
  get_data_summary_for_ai (RT:=ascii_runtime) (PL:=listing_pipelines) demo_state None
    = Raise KeyError.
Proof. split_and!; reflexivity. Qed.

(** ** Merge Builder: keys and groups *)

Section MergeKeys.

(** What two equal values have in common. *)
Inductive eq_key : Type :=
| KNum (q : Qc) | KInf (neg : bool) | KStr (s : string) | KDate (t : Z).

Global Instance eq_key_eq_dec : EqDecision eq_key.
Proof. solve_decision. Defined.

Definition key_of (v : value) : option eq_key :=
  match v with
  | VNull => None
  | VStr s => Some (KStr s)
  | VDate t => Some (KDate t)
  | VInf s => Some (KInf s)
  | _ => KNum <$> as_num v
  end.

Lemma py_eq_key a b :
  py_eq a b = match key_of a, key_of b with
              | Some x, Some y => bool_decide (x = y)
              | _, _ => false
              end.
Proof.
  destruct a, b; simpl; try done;
    first [ apply bool_decide_ext; split; congruence
          | symmetry; apply bool_decide_eq_false_2; done ].
Qed.

Lemma py_eq_sym a b : py_eq a b = py_eq b a.
Proof.
  rewrite !py_eq_key. destruct (key_of a), (key_of b); try done.
  apply bool_decide_ext. split; by intros ->.
Qed.

Lemma py_eq_trans a b c : py_eq a b = true → py_eq b c = true → py_eq a c = true.
Proof.
  rewrite !py_eq_key. destruct (key_of a), (key_of b), (key_of c); try done.
  rewrite !bool_decide_eq_true. congruence.
Qed.

Lemma py_eq_congr a b c : py_eq a b = true → py_eq a c = py_eq b c.
Proof.
  intros Hab. destruct (py_eq b c) eqn:Hbc.
  - by eapply py_eq_trans.
  - destruct (py_eq a c) eqn:Hac; [|done]. rewrite <- Hbc. symmetry.
    eapply py_eq_trans; [|exact Hac]. by rewrite py_eq_sym.
Qed.

Lemma py_eq_notna a b : py_eq a b = true → isna a = false ∧ isna b = false.
Proof. by destruct a, b. Qed.

Lemma py_eq_refl a : isna a = false → is_Some (key_of a) → py_eq a a = true.
Proof. rewrite py_eq_key. intros _ [k ->]. by rewrite bool_decide_eq_true_2. Qed.

Lemma key_of_notna a : isna a = false → is_Some (key_of a).
Proof. destruct a; simpl; try done; eauto. Qed.

Lemma py_eq_refl' a : isna a = false → py_eq a a = true.
Proof. intros H. apply py_eq_refl; [done|by apply key_of_notna]. Qed.

(** The keys of a group-by are non-missing values of the column, no two of
    them equal, and every non-missing value of the column equals one. *)
Lemma group_keys_elem ks k : k ∈ group_keys ks → isna k = false ∧ k ∈ ks.
Proof.
  induction ks as [|x ks IH]; simpl; [by intros ?%elem_of_nil|].
  destruct (isna x) eqn:Hx.
  - intros [? ?]%IH. split; [done|by right].
  - intros [->|Hin]%elem_of_cons; [split; [done|by left]|].
    apply list_elem_of_In, filter_In in Hin as [Hin _]. apply list_elem_of_In, IH in Hin.
    destruct Hin. split; [done|by right].
Qed.

Lemma group_keys_cover ks x :
  x ∈ ks → isna x = false → ∃ k, k ∈ group_keys ks ∧ py_eq k x = true.
Proof.
  induction ks as [|y ks IH]; simpl; [by intros ?%elem_of_nil|].
  intros Hin Hx. destruct (isna y) eqn:Hy.
  - apply elem_of_cons in Hin as [->|Hin]; [congruence|]. by apply IH.
  - destruct (py_eq y x) eqn:Hyx; [exists y; split; [by left|done]|].
    apply elem_of_cons in Hin as [->|Hin]; [by rewrite py_eq_refl' in Hyx|].
    destruct (IH Hin Hx) as (k & Hk & Hkx). exists k. split; [|done]. right.
    apply list_elem_of_In, filter_In. split; [by apply list_elem_of_In|].
    apply negb_true_iff. destruct (py_eq y k) eqn:Hyk; [|done].
    rewrite <- Hyx. symmetry. by eapply py_eq_trans.
Qed.

Lemma group_keys_distinct ks i j a b :
  group_keys ks !! i = Some a → group_keys ks !! j = Some b →
  py_eq a b = true → i = j.
Proof.
  revert i j a b. induction ks as [|x ks IH]; intros i j a b; simpl; [done|].
  destruct (isna x) eqn:Hx; [by apply IH|].
  assert (Hfil : ∀ n y, List.filter (λ k', negb (py_eq x k')) (group_keys ks) !! n = Some y →
                        py_eq x y = false).
  { intros n y Hn. apply list_elem_of_lookup_2, list_elem_of_In, filter_In in Hn as [_ Hn].
    by apply negb_true_iff in Hn. }
  assert (Hnd : ∀ l : list value,
            (∀ i j a b, l !! i = Some a → l !! j = Some b → py_eq a b = true → i = j) →
            ∀ i j a b, List.filter (λ k', negb (py_eq x k')) l !! i = Some a →
                       List.filter (λ k', negb (py_eq x k')) l !! j = Some b →
                       py_eq a b = true → i = j).
  { clear. intros l. induction l as [|y l IHl]; intros Hl i j a b; simpl; [done|].
    assert (Hl' : ∀ i j a b, l !! i = Some a → l !! j = Some b → py_eq a b = true → i = j).
    { intros i' j' a' b' Hi' Hj' He. by injection (Hl (S i') (S j') a' b' Hi' Hj' He). }
    destruct (negb (py_eq x y)); [|by apply IHl].
    assert (Hhead : ∀ n z, List.filter (λ k', negb (py_eq x k')) l !! n = Some z →
                           py_eq y z = true → False).
    { intros n z Hn Hyz.
      apply list_elem_of_lookup_2, list_elem_of_In, filter_In in Hn as [Hn _].
      apply list_elem_of_In, list_elem_of_lookup in Hn as [m Hm].
      by pose proof (Hl O (S m) y z eq_refl Hm Hyz). }
    destruct i as [|i], j as [|j]; simpl; intros Hi Hj He; simplify_eq; try done.
    - by destruct (Hhead _ _ Hj He).
    - rewrite py_eq_sym in He. by destruct (Hhead _ _ Hi He).
    - f_equal. by eapply IHl. }
  destruct i as [|i], j as [|j]; simpl; intros Hi Hj He; simplify_eq; try done.
  - by rewrite (Hfil _ _ Hj) in He.
  - rewrite py_eq_sym, (Hfil _ _ Hi) in He. done.
  - f_equal. by eapply (Hnd _ IH).
Qed.

End MergeKeys.

(** ** Merge Builder: the aggregate frame *)

Section MergeAgg.

(** A cell the ['sum'] aggregate accepts and adds exactly: a finite number
    or a missing value. *)
Definition summable_cell (v : value) : bool :=
  match v with
  | VNull | VNaN | VBool _ | VInt _ | VFloat _ => true
  | VInf _ | VStr _ | VDate _ => false
  end.

Definition amount_columns : list string := ["Total Auth Amount"; "Labor"; "Parts"].

(** The amount columns a claims frame has hold numbers or missing values. *)
Definition summable (c : DataFrame) : Prop :=
  Forall (λ name,
            match col_index name (columns c) with
            | Some j => forallb (λ r, summable_cell (cell j r)) (rows c) = true
            | None => True
            end) amount_columns.

Global Instance summable_dec c : Decision (summable c).
Proof.
  unfold summable. apply Forall_dec. intros name.
  destruct (col_index name (columns c)); [apply Bool.bool_dec | by left].
Defined.

Lemma as_float_num a x : as_num a = Some x → as_float a = Some (Finite x).
Proof. destruct a; simpl; intros; by simplify_eq. Qed.

Lemma py_add_num a b :
  is_Some (as_num a) → summable_cell b = true → isna b = false →
  ∃ t, py_add a b = Ok t ∧ is_Some (as_num t).
Proof.
  intros [x Hx] Hb Hn. unfold py_add.
  destruct (as_int a) as [ia|], (as_int b) as [ib|]; simpl; eauto.
  all: rewrite (as_float_num _ _ Hx); destruct b; simpl in *; try done; eauto.
Qed.

Lemma sum_from_ok acc vs :
  is_Some (as_num acc) → forallb summable_cell vs = true →
  ∃ t, sum_from acc vs = Ok t ∧ is_Some (as_num t).
Proof.
  revert acc. induction vs as [|v vs IH]; intros acc Ha Hvs; simpl; [eauto|].
  simpl in Hvs. apply andb_true_iff in Hvs as [Hv Hvs].
  destruct (isna v) eqn:Hn; [by apply IH|].
  destruct (py_add_num acc v Ha Hv Hn) as (t & -> & Ht). simpl. by apply IH.
Qed.

Lemma col_sum_ok vs :
  forallb summable_cell vs = true → ∃ t, col_sum vs = Ok t ∧ isna t = false.
Proof.
  intros Hvs. destruct (sum_from_ok (VInt 0) vs ltac:(by eexists) Hvs) as (t & Ht & [q Hq]).
  exists t. split; [done|]. by destruct t.
Qed.

Lemma col_sum_nil : col_sum [] = Ok (VInt 0).
Proof. done. Qed.

Lemma forallb_filter_cells {A} (p : A → bool) (q : A → bool) l :
  forallb p l = true → forallb p (List.filter q l) = true.
Proof.
  rewrite !forallb_forall. intros H x [Hx _]%filter_In. by apply H.
Qed.

Lemma agg_sum_or_size_ok c name kj k :
  summable c → name ∈ amount_columns →
  ∃ t, agg_sum_or_size c name (group_of kj k (rows c)) = Ok t ∧ isna t = false.
Proof.
  intros Hs Hn. unfold agg_sum_or_size.
  unfold summable in Hs. rewrite Forall_forall in Hs.
  specialize (Hs name ltac:(by apply list_elem_of_In)).
  destruct (col_index name (columns c)) as [j|]; [|by eexists].
  apply col_sum_ok. rewrite forallb_forall. intros v Hv.
  apply list_elem_of_In, list_elem_of_fmap in Hv as (r & -> & Hr).
  apply list_elem_of_In, filter_In in Hr as [Hr _].
  rewrite forallb_forall in Hs. by apply Hs.
Qed.

(** An aggregate row: the key, its number of claims, and three totals, the
    first of them the total claim amount. *)
Definition agg_row_spec (c : DataFrame) (kj : nat) (k : value) (r : row) : Prop :=
  ∃ tca tl tp,
    r = [k; agg_size (group_of kj k (rows c)); tca; tl; tp] ∧
    agg_sum_or_size c "Total Auth Amount" (group_of kj k (rows c)) = Ok tca ∧
    isna tca = false.

Lemma agg_row_ok c kj k :
  summable c → ∃ r, agg_row c kj k = Ok r ∧ agg_row_spec c kj k r.
Proof.
  intros Hs. unfold agg_row.
  destruct (agg_sum_or_size_ok c "Total Auth Amount" kj k Hs) as (tca & Ha & Hna);
    [by apply (bool_decide_unpack _)|].
  destruct (agg_sum_or_size_ok c "Labor" kj k Hs) as (tl & Hl & _);
    [by apply (bool_decide_unpack _)|].
  destruct (agg_sum_or_size_ok c "Parts" kj k Hs) as (tp & Hp & _);
    [by apply (bool_decide_unpack _)|].
  rewrite Ha, Hl, Hp. simpl. eexists. split; [done|]. by exists tca, tl, tp.
Qed.

Lemma mapM_ok {A B} (f : A → res B) (P : A → B → Prop) l :
  (∀ x, x ∈ l → ∃ y, f x = Ok y ∧ P x y) →
  ∃ ys, mapM f l = Ok ys ∧ Forall2 P l ys.
Proof.
  induction l as [|x l IH]; intros Hf; simpl; [by eexists|].
  destruct (Hf x ltac:(by left)) as (y & -> & Hy).
  destruct IH as (ys & -> & Hys); [intros; apply Hf; by right|].
  simpl. eexists. split; [done|]. by constructor.
Qed.

Lemma claims_agg_ok c cp kj :
  summable c → col_index cp (columns c) = Some kj →
  ∃ rs, claims_agg c cp = Ok (mkDF (agg_columns cp) rs) ∧
        Forall2 (agg_row_spec c kj) (group_keys (cell kj <$> rows c)) rs.
Proof.
  intros Hs Hk. unfold claims_agg. rewrite Hk.
  destruct (mapM_ok (agg_row c kj) (agg_row_spec c kj) (group_keys (cell kj <$> rows c)))
    as (rs & -> & Hrs); [intros; by apply agg_row_ok|].
  simpl. eauto.
Qed.

End MergeAgg.

(** ** Merge Builder: the left join *)

Section MergeJoin.

Lemma filter_none {A} (p : A → bool) l :
  (∀ x, x ∈ l → p x = false) → List.filter p l = [].
Proof.
  induction l as [|a l IH]; intros H; simpl; [done|].
  rewrite (H a) by (by left). apply IH. intros; apply H; by right.
Qed.

Lemma filter_unique {A} (p : A → bool) l i a :
  l !! i = Some a → p a = true →
  (∀ j b, l !! j = Some b → p b = true → j = i) →
  List.filter p l = [a].
Proof.
  revert i. induction l as [|x l IH]; intros i Hi Ha Hu; [done|]. simpl.
  destruct i as [|i]; simpl in Hi.
  - simplify_eq. rewrite Ha. f_equal. apply filter_none. intros y Hy.
    apply list_elem_of_lookup in Hy as [j Hj].
    destruct (p y) eqn:Hp; [|done]. by pose proof (Hu (S j) y Hj Hp).
  - destruct (p x) eqn:Hp; [by pose proof (Hu O x eq_refl Hp)|].
    apply (IH i); [done..|]. intros j b Hj Hb. by injection (Hu (S j) b Hj Hb).
Qed.

Lemma flat_map_singletons {A B} (f : A → list B) (g : A → B) l :
  (∀ x, x ∈ l → f x = [g x]) → flat_map f l = g <$> l.
Proof.
  induction l as [|a l IH]; intros H; simpl; [done|].
  rewrite (H a) by (by left). simpl. f_equal. apply IH. intros; apply H; by right.
Qed.

Lemma group_of_congr kj a b rs : py_eq a b = true → group_of kj a rs = group_of kj b rs.
Proof.
  intros Hab. unfold group_of. apply filter_ext. intros r. by apply py_eq_congr.
Qed.

(** The aggregate rows that join a sales row whose policy cell is [x]:
    none when no claim shares the policy, otherwise the one row of the
    policy's group. *)
Lemma merge_matches c kj rs x :
  Forall2 (agg_row_spec c kj) (group_keys (cell kj <$> rows c)) rs →
  let g := group_of kj x (rows c) in
  (g = [] ∧ List.filter (λ rr, merge_key_eq x (cell 0 rr)) rs = []) ∨
  (g ≠ [] ∧ ∃ k tca tl tp,
     List.filter (λ rr, merge_key_eq x (cell 0 rr)) rs = [[k; agg_size g; tca; tl; tp]] ∧
     agg_sum_or_size c "Total Auth Amount" g = Ok tca ∧ isna tca = false).
Proof.
  intros Hrs. cbv zeta.
  assert (Hkey : ∀ j rr, rs !! j = Some rr →
            ∃ k, group_keys (cell kj <$> rows c) !! j = Some k ∧ cell 0 rr = k ∧
                 agg_row_spec c kj k rr).
  { intros j rr Hj. destruct (Forall2_lookup_r _ _ _ _ _ Hrs Hj) as (k & Hk & Hspec).
    exists k. split; [done|]. split; [|done].
    destruct Hspec as (tca & tl & tp & Hrr & _). by rewrite Hrr. }
  assert (Hmatch : ∀ k, isna k = false → merge_key_eq x k = py_eq x k).
  { intros k Hk. unfold merge_key_eq. by rewrite Hk, andb_false_r. }
  destruct (group_of kj x (rows c)) as [|r0 g0] eqn:Hg.
  - left. split; [done|]. apply filter_none. intros rr Hrr.
    apply list_elem_of_lookup in Hrr as [j Hj].
    destruct (Hkey j rr Hj) as (k & Hk & Hc & _).
    apply list_elem_of_lookup_2, group_keys_elem in Hk as [Hna Hin].
    cbv beta. rewrite Hc, Hmatch by done. destruct (py_eq x k) eqn:He; [exfalso|done].
    apply list_elem_of_fmap in Hin as (r & Hr & Hin).
    assert (r ∈ group_of kj x (rows c)) as Hr0.
    { apply list_elem_of_In, filter_In. split; [by apply list_elem_of_In|].
      by rewrite <- Hr. }
    rewrite Hg in Hr0. by apply elem_of_nil in Hr0.
  - right. split; [done|]. rewrite <- Hg.
    assert (r0 ∈ group_of kj x (rows c)) as Hr0 by (rewrite Hg; by left).
    apply list_elem_of_In, filter_In in Hr0 as [Hin Hx].
    destruct (py_eq_notna _ _ Hx) as [Hxn Hyn].
    destruct (group_keys_cover (cell kj <$> rows c) (cell kj r0)) as (k & Hk & Hky);
      [apply list_elem_of_fmap; exists r0; split; [done|by apply list_elem_of_In]|done|].
    assert (Hxk : py_eq x k = true).
    { eapply py_eq_trans; [exact Hx|]. by rewrite py_eq_sym. }
    apply list_elem_of_lookup in Hk as [i Hi].
    destruct (Forall2_lookup_l _ _ _ _ _ Hrs Hi) as (rr & Hrr & Hspec).
    destruct Hspec as (tca & tl & tp & -> & Ha & Hna).
    rewrite (group_of_congr kj k x) in Ha by (by rewrite py_eq_sym).
    exists k, tca, tl, tp. split; [|done].
    rewrite <- (group_of_congr kj k x) by (by rewrite py_eq_sym).
    apply (filter_unique _ _ i); [done| |].
    + simpl. rewrite Hmatch; [done|]. by destruct (py_eq_notna _ _ Hxk).
    + intros j b Hj Hb. destruct (Hkey j b Hj) as (k' & Hk' & Hc & _).
      rewrite Hc in Hb.
      pose proof (group_keys_elem _ _ (list_elem_of_lookup_2 _ _ _ Hk')) as [Hn' _].
      rewrite Hmatch in Hb by done.
      symmetry. eapply group_keys_distinct; [exact Hi|exact Hk'|].
      eapply py_eq_trans; [|exact Hb]. by rewrite py_eq_sym.
Qed.

End MergeJoin.
(** ** Column operations on frames built row by row *)

Section FrameColumns.

(** Every row has one cell per column. *)
Definition rectangular (df : DataFrame) : Prop :=
  Forall (λ r : row, length r = length (columns df)) (rows df).

Global Instance rectangular_dec df : Decision (rectangular df).
Proof. unfold rectangular. apply _. Defined.

Lemma wf_df_rectangular df : wf_df df → rectangular df.
Proof. by intros [_ ?]. Qed.

Lemma col_index_app_l c l1 l2 j :
  col_index c l1 = Some j → col_index c (l1 ++ l2) = Some j.
Proof.
  revert j. induction l1 as [|a l1 IH]; intros j; simpl; [done|].
  case_bool_decide; [done|].
  destruct (col_index c l1) as [i|]; simpl; [|done].
  intros [= <-]. by rewrite (IH i).
Qed.

Lemma col_index_app_r c l1 l2 :
  c ∉ l1 → col_index c (l1 ++ l2) = (λ j, length l1 + j)%nat <$> col_index c l2.
Proof.
  induction l1 as [|a l1 IH]; intros Hc; simpl.
  - by destruct (col_index c l2).
  - apply not_elem_of_cons in Hc as [Hne Hc].
    rewrite bool_decide_eq_false_2 by done. rewrite IH by done.
    by destruct (col_index c l2).
Qed.

Lemma zip_with_fmap_same {A B C D} (f : B → C → D) (g : A → B) (h : A → C) l :
  zip_with f (g <$> l) (h <$> l) = (λ x, f (g x) (h x)) <$> l.
Proof. induction l as [|a l IH]; csimpl; [done|]. by rewrite IH. Qed.

Lemma mapM_fmap_ok {A B C} (f : B → res C) (h : A → B) (g : A → C) l :
  (∀ x, x ∈ l → f (h x) = Ok (g x)) → mapM f (h <$> l) = Ok (g <$> l).
Proof.
  induction l as [|a l IH]; intros Hf; [done|].
  rewrite !fmap_cons. change (mapM f (h a :: (h <$> l)))
    with (y ← f (h a); k ← mapM f (h <$> l); mret (y :: k)).
  rewrite (Hf a) by (by left).
  rewrite IH by (intros; apply Hf; by right). done.
Qed.

Lemma fmap_ext_in {A B} (f g : A → B) (l : list A) :
  (∀ x, x ∈ l → f x = g x) → f <$> l = g <$> l.
Proof.
  induction l as [|a l IH]; intros H; csimpl; [done|].
  rewrite (H a) by (by left). f_equal. apply IH. intros; apply H; by right.
Qed.

Lemma get_column_fmap {A} cols (G : A → row) (l : list A) name j :
  col_index name cols = Some j →
  get_column (mkDF cols (G <$> l)) name = Ok ((λ x, cell j (G x)) <$> l).
Proof.
  intros Hj. unfold get_column. simpl. rewrite Hj. by rewrite <- list_fmap_compose.
Qed.

Lemma set_column_fmap_new {A} cols (G : A → row) (V : A → value) (l : list A) name :
  col_index name cols = None →
  set_column (mkDF cols (G <$> l)) name (V <$> l)
  = mkDF (cols ++ [name]) ((λ x, G x ++ [V x]) <$> l).
Proof.
  intros Hj. unfold set_column. simpl. rewrite Hj. by rewrite zip_with_fmap_same.
Qed.

Lemma set_column_fmap_old {A} cols (G : A → row) (V : A → value) (l : list A) name j :
  col_index name cols = Some j →
  set_column (mkDF cols (G <$> l)) name (V <$> l)
  = mkDF cols ((λ x, <[j:=V x]> (G x)) <$> l).
Proof.
  intros Hj. unfold set_column. simpl. rewrite Hj. by rewrite zip_with_fmap_same.
Qed.

Lemma set_column_scalar_new df name v :
  name ∉ columns df →
  set_column_scalar df name v = mkDF (columns df ++ [name]) ((λ r, r ++ [v]) <$> rows df).
Proof.
  intros Hn. unfold set_column_scalar, set_column.
  rewrite (proj2 (col_index_None _ _) Hn). f_equal.
  induction (rows df) as [|r rs IH]; csimpl; [done|]. by rewrite IH.
Qed.

Lemma cell_app_l j (r1 r2 : row) : (j < length r1)%nat → cell j (r1 ++ r2) = cell j r1.
Proof. intros. unfold cell. by apply app_nth1. Qed.

Lemma cell_app_r j (r1 r2 : row) : cell (length r1 + j) (r1 ++ r2) = cell j r2.
Proof. unfold cell. apply app_nth2_plus. Qed.

Lemma Z2Qc_pos z : (0 < Z2Qc z)%Qc ↔ (0 < z)%Z.
Proof.
  unfold Z2Qc, Qclt. cbn [this Q2Qc]. rewrite !Qred_correct.
  unfold Qlt, inject_Z. cbn [Qnum Qden]. lia.
Qed.

Lemma find_column_elem df cs c :
  find_column df cs = Some c → c ∈ cs ∧ c ∈ columns df.
Proof.
  induction cs as [|a cs IH]; simpl; [done|].
  unfold has_col. case_bool_decide as Ha.
  - intros [= <-]. split; [by left|done].
  - intros H. destruct (IH H). split; [by right|done].
Qed.

End FrameColumns.
(** ** Merge Builder: the merged view *)

Section MergeView.

(** The columns [_build_merged] reads and writes on the joined frame. *)
Definition merge_names : list string := ["claim_count"; "total_claim_amount"; "has_claim"].

(** The claims rows that share the policy of a sales row. *)
Definition claims_of (c : DataFrame) (kj si : nat) (lr : row) : list row :=
  group_of kj (cell si lr) (rows c).

(** The policy cells of a frame are text, the one kind of key column the
    join is used on here; pandas refuses to join key columns of different
    kinds. *)
Definition text_keys (df : DataFrame) (j : nat) : Prop :=
  Forall (λ r : row, match cell j r with VStr _ => True | _ => False end) (rows df).

Global Instance text_keys_dec df j : Decision (text_keys df j).
Proof.
  unfold text_keys. apply Forall_dec. intros r.
  destruct (cell j r); solve [left; exact I | right; exact (λ f : False, f)].
Defined.

Lemma merge_columns s sp cp :
  cp ∈ policy_candidates → (∀ name, name ∈ merge_names → name ∉ columns s) →
  let rcols := if bool_decide (sp = cp) then delete 0%nat (agg_columns cp) else agg_columns cp in
  let o := if bool_decide (sp = cp) then 0%nat else 1%nat in
  let cols := suffix_overlap "_x" rcols (columns s) ++ suffix_overlap "_y" (columns s) rcols in
  col_index "claim_count" cols = Some (length (columns s) + o)%nat ∧
  col_index "total_claim_amount" cols = Some (length (columns s) + S o)%nat ∧
  col_index "has_claim" cols = None ∧
  length rcols = (o + 4)%nat.
Proof.
  intros Hcp Hfresh rcols o cols.
  assert (Hcc : "claim_count" ∉ columns s) by (apply Hfresh; by apply (bool_decide_unpack _)).
  assert (Htc : "total_claim_amount" ∉ columns s) by (apply Hfresh; by apply (bool_decide_unpack _)).
  assert (Hhc : "has_claim" ∉ columns s) by (apply Hfresh; by apply (bool_decide_unpack _)).
  assert (HL : ∀ name, name ∈ merge_names → name ∉ suffix_overlap "_x" rcols (columns s)).
  { intros name Hname Hin. unfold suffix_overlap in Hin.
    apply list_elem_of_fmap in Hin as (c0 & Hc0 & Hin).
    case_bool_decide as Hr; [|subst; by apply (Hfresh c0)].
    assert (c0 ∈ agg_columns cp) as Hagg.
    { unfold rcols in Hr. case_bool_decide; [|done].
      unfold agg_columns in *. cbn [delete list_delete] in Hr. by right. }
    unfold agg_columns in Hagg. unfold policy_candidates in Hcp. unfold merge_names in Hname.
    repeat (apply elem_of_cons in Hname as [->|Hname]); [| | |by apply elem_of_nil in Hname];
    (repeat (apply elem_of_cons in Hagg as [->|Hagg]); [| | | | |by apply elem_of_nil in Hagg]);
    try (by (first [apply Hcc in Hin | apply Htc in Hin | apply Hhc in Hin]));
    try discriminate Hc0;
    (repeat (apply elem_of_cons in Hcp as [->|Hcp]); [| | | |by apply elem_of_nil in Hcp]);
    discriminate Hc0. }
  assert (Hlen : length (suffix_overlap "_x" rcols (columns s)) = length (columns s))
    by (unfold suffix_overlap; by rewrite length_fmap).
  unfold cols.
  rewrite !col_index_app_r by (apply HL; by apply (bool_decide_unpack _)).
  rewrite Hlen.
  pose (g := λ c : string, if bool_decide (c ∈ columns s) then String.append c "_y" else c).
  assert (Hg : ∀ c name, c ∈ policy_candidates ++ ["total_labor"; "total_parts"] →
                 name ∈ merge_names → g c ≠ name).
  { intros c name Hc Hname. unfold g.
    unfold policy_candidates in Hc. unfold merge_names in Hname. cbn [app] in Hc.
    case_bool_decide;
      (repeat (apply elem_of_cons in Hc as [->|Hc])); try (by apply elem_of_nil in Hc);
      (repeat (apply elem_of_cons in Hname as [->|Hname])); try (by apply elem_of_nil in Hname);
      discriminate. }
  assert (HR : suffix_overlap "_y" (columns s) rcols
               = (if bool_decide (sp = cp) then [] else [g cp]) ++
                 ["claim_count"; "total_claim_amount"; g "total_labor"; g "total_parts"]).
  { unfold rcols, suffix_overlap, agg_columns, g.
    destruct (bool_decide (sp = cp)); cbn [delete list_delete fmap list_fmap app];
      rewrite !(bool_decide_eq_false_2 ("claim_count" ∈ columns s)) by done;
      rewrite !(bool_decide_eq_false_2 ("total_claim_amount" ∈ columns s)) by done;
      reflexivity. }
  assert (Hpol : ∀ name, name ∈ merge_names → g cp ≠ name)
    by (intros; apply Hg; [apply elem_of_app; by left|done]).
  assert (Hlab : g "total_labor" ≠ "has_claim")
    by (apply Hg; by apply (bool_decide_unpack _)).
  assert (Hpar : g "total_parts" ≠ "has_claim")
    by (apply Hg; by apply (bool_decide_unpack _)).
  assert (Hp1 : g cp ≠ "claim_count") by (apply Hpol; by apply (bool_decide_unpack _)).
  assert (Hp2 : g cp ≠ "total_claim_amount") by (apply Hpol; by apply (bool_decide_unpack _)).
  assert (Hp3 : g cp ≠ "has_claim") by (apply Hpol; by apply (bool_decide_unpack _)).
  rewrite HR. unfold o, rcols, agg_columns. clear HR HL Hg Hpol.
  destruct (bool_decide (sp = cp)); cbn [app col_index delete list_delete length];
    rewrite ?(bool_decide_eq_false_2 (g cp = "claim_count")) by done;
    rewrite ?(bool_decide_eq_false_2 (g cp = "total_claim_amount")) by done;
    rewrite ?(bool_decide_eq_false_2 (g cp = "has_claim")) by done;
    rewrite ?(bool_decide_eq_false_2 (g "total_labor" = "has_claim")) by done;
    rewrite ?(bool_decide_eq_false_2 (g "total_parts" = "has_claim")) by done;
    rewrite ?(bool_decide_eq_true_2 ("claim_count" = "claim_count")) by done;
    rewrite ?(bool_decide_eq_true_2 ("total_claim_amount" = "total_claim_amount")) by done;
    rewrite ?(bool_decide_eq_false_2 ("claim_count" = "total_claim_amount")) by done;
    rewrite ?(bool_decide_eq_false_2 ("total_claim_amount" = "claim_count")) by done;
    rewrite ?(bool_decide_eq_false_2 ("claim_count" = "has_claim")) by done;
    rewrite ?(bool_decide_eq_false_2 ("total_claim_amount" = "has_claim")) by done;
    by split_and!.
Qed.

Lemma merged_row (lr pre : row) ccv tcav tl tp h ci :
  let r := <[(length lr + length pre)%nat:=ci]> (lr ++ pre ++ [ccv; tcav; tl; tp; h]) in
  <[(length lr + S (length pre))%nat:=fillna0 (cell (length lr + S (length pre)) r)]> r
  = lr ++ pre ++ [ci; fillna0 tcav; tl; tp; h].
Proof.
  intros r. unfold r. clear r.
  rewrite (insert_app_r lr (pre ++ [ccv; tcav; tl; tp; h]) (length pre) ci).
  assert (E1 : <[length pre:=ci]> (pre ++ [ccv; tcav; tl; tp; h])
               = pre ++ [ci; tcav; tl; tp; h]).
  { rewrite <- (Nat.add_0_r (length pre)). by rewrite insert_app_r. }
  rewrite E1, (insert_app_r lr), cell_app_r.
  assert (E2 : cell (S (length pre)) (pre ++ [ci; tcav; tl; tp; h]) = tcav).
  { replace (S (length pre)) with (length pre + 1)%nat by lia. by rewrite cell_app_r. }
  rewrite E2.
  replace (S (length pre)) with (length pre + 1)%nat by lia. by rewrite insert_app_r.
Qed.

(** The frame [_build_merged] stores when both policy columns resolve:
    every sales row, in order, followed by the join key (when the two key
    columns are named differently), the number of its claims, its total
    claim amount, its labor and parts totals, and the claim flag. *)
Lemma merged_linked_rows s c sp cp si kj :
  rectangular s →
  col_index sp (columns s) = Some si → col_index cp (columns c) = Some kj →
  cp ∈ policy_candidates → (∀ name, name ∈ merge_names → name ∉ columns s) →
  summable c →
  ∃ cols (G : row → row) (o : nat),
    merged_linked s c sp cp = Ok (mkDF cols (G <$> rows s)) ∧
    col_index "claim_count" cols = Some (length (columns s) + o)%nat ∧
    col_index "total_claim_amount" cols = Some (length (columns s) + S o)%nat ∧
    col_index "has_claim" cols = Some (length (columns s) + (o + 4))%nat ∧
    ∀ lr, lr ∈ rows s →
      ∃ pre t tl tp,
        G lr = lr ++ pre ++
                 [VInt (Z.of_nat (length (claims_of c kj si lr))); t; tl; tp;
                  VBool (bool_decide (0 < length (claims_of c kj si lr))%nat)] ∧
        length pre = o ∧
        agg_sum_or_size c "Total Auth Amount" (claims_of c kj si lr) = Ok t ∧
        isna t = false.
Proof.
  intros Hrect Hsi Hkj Hcp Hfresh Hsum.
  destruct (claims_agg_ok c cp kj Hsum Hkj) as (rs & Hagg & Hrs).
  destruct (merge_columns s sp cp Hcp Hfresh) as (Hcc & Htc & Hhc & Hrl).
  set (rcols := if bool_decide (sp = cp) then delete 0%nat (agg_columns cp)
                else agg_columns cp) in *.
  set (o := if bool_decide (sp = cp) then 0%nat else 1%nat) in *.
  set (cols := suffix_overlap "_x" rcols (columns s) ++ suffix_overlap "_y" (columns s) rcols) in *.
  set (n := length (columns s)) in *.
  pose (strip := λ xs : row, if bool_decide (sp = cp) then delete 0%nat xs else xs).
  pose (F := λ lr : row,
          lr ++ match List.filter (λ rr, merge_key_eq (cell si lr) (cell 0 rr)) rs with
                | [] => replicate (length rcols) VNull
                | rr :: _ => strip rr
                end).
  pose (N := λ lr : row, length (claims_of c kj si lr)).
  pose (H := λ lr : row, VBool (bool_decide (0 < N lr)%nat)).
  pose (CI := λ lr : row, VInt (Z.of_nat (N lr))).
  (* the joined frame *)
  assert (Hm : merge_left s (mkDF (agg_columns cp) rs) sp cp = mkDF cols (F <$> rows s)).
  { unfold merge_left. cbn [columns rows]. rewrite Hsi.
    rewrite (col_index_head cp (agg_columns cp)) by done. cbn [from_option id].
    fold rcols. fold cols. f_equal.
    apply flat_map_singletons. intros lr _. unfold F.
    destruct (merge_matches c kj rs (cell si lr) Hrs) as [[_ ->]|(_ & k & tca & tl & tp & -> & _)];
      done. }
  (* the shape of a joined row *)
  assert (Hshape : ∀ lr, lr ∈ rows s →
            length lr = n ∧
            ∃ pre ccv tcav tl tp,
              F lr = lr ++ pre ++ [ccv; tcav; tl; tp] ∧ length pre = o ∧
              ((N lr = 0%nat ∧ ccv = VNull ∧ tcav = VNull) ∨
               ((0 < N lr)%nat ∧ ccv = VInt (Z.of_nat (N lr)) ∧ isna tcav = false ∧
                agg_sum_or_size c "Total Auth Amount" (claims_of c kj si lr) = Ok tcav))).
  { intros lr Hlr. split; [apply (proj1 (Forall_forall _ _) Hrect); by apply list_elem_of_In|].
    unfold F, N, claims_of.
    destruct (merge_matches c kj rs (cell si lr) Hrs)
      as [[Hg ->]|(Hg & k & tca & tl & tp & -> & Ha & Hna)].
    - rewrite Hg, Hrl. unfold o. case_bool_decide.
      + exists [], VNull, VNull, VNull, VNull. split_and!; [done..|]. by left.
      + exists [VNull], VNull, VNull, VNull, VNull. split_and!; [done..|]. by left.
    - unfold strip, o. case_bool_decide.
      + exists [], (agg_size (group_of kj (cell si lr) (rows c))), tca, tl, tp.
        split_and!; [done..|]. right. split_and!; [|done..].
        destruct (group_of kj (cell si lr) (rows c)); [done|simpl; lia].
      + exists [k], (agg_size (group_of kj (cell si lr) (rows c))), tca, tl, tp.
        split_and!; [done..|]. right. split_and!; [|done..].
        destruct (group_of kj (cell si lr) (rows c)); [done|simpl; lia]. }
  assert (Hcell : ∀ lr, lr ∈ rows s →
            ∃ pre ccv tcav tl tp,
              F lr = lr ++ pre ++ [ccv; tcav; tl; tp] ∧ length pre = o ∧
              cell (n + o) (F lr) = ccv ∧ cell (n + S o) (F lr) = tcav ∧
              ((N lr = 0%nat ∧ ccv = VNull ∧ tcav = VNull) ∨
               ((0 < N lr)%nat ∧ ccv = VInt (Z.of_nat (N lr)) ∧ isna tcav = false ∧
                agg_sum_or_size c "Total Auth Amount" (claims_of c kj si lr) = Ok tcav))).
  { intros lr Hlr. destruct (Hshape lr Hlr) as (Hn & pre & ccv & tcav & tl & tp & HF & Hpre & Hcase).
    exists pre, ccv, tcav, tl, tp. split_and!; [done..| | |done].
    - rewrite HF, <- Hn, cell_app_r, <- Hpre.
      replace (length pre) with (length pre + 0)%nat by lia. by rewrite cell_app_r.
    - rewrite HF, <- Hn, cell_app_r, <- Hpre.
      replace (S (length pre)) with (length pre + 1)%nat by lia. by rewrite cell_app_r. }
  unfold merged_linked. rewrite Hagg. cbn [mbind res_bind]. rewrite Hm.
  (* has_claim *)
  rewrite (get_column_fmap cols F (rows s) "claim_count" (n + o)) by done.
  cbn [mbind res_bind].
  rewrite (mapM_fmap_ok (λ v, gt0 (fillna0 v)) (λ lr, cell (n + o) (F lr)) H).
  2:{ intros lr Hlr. destruct (Hcell lr Hlr) as (pre & ccv & tcav & tl & tp & _ & _ & -> & _ & Hcase).
      unfold H. destruct Hcase as [(Hz & -> & _)|(Hp & -> & _)]; cbn [fillna0 isna gt0 as_num].
      - rewrite Hz. apply (f_equal (λ b, Ok (VBool b))).
        apply bool_decide_ext. rewrite Z2Qc_pos. lia.
      - apply (f_equal (λ b, Ok (VBool b))).
        apply bool_decide_ext. rewrite Z2Qc_pos. lia. }
  cbn [mbind res_bind].
  rewrite (set_column_fmap_new cols F H (rows s) "has_claim") by done.
  (* claim_count *)
  rewrite (get_column_fmap (cols ++ ["has_claim"]) (λ lr, F lr ++ [H lr]) (rows s)
             "claim_count" (n + o)) by (by apply col_index_app_l).
  cbn [mbind res_bind].
  rewrite (mapM_fmap_ok (λ v, astype_int (fillna0 v))
             (λ lr, cell (n + o) (F lr ++ [H lr])) CI).
  2:{ intros lr Hlr. destruct (Hcell lr Hlr) as (pre & ccv & tcav & tl & tp & HF & Hpre & Hc & _ & Hcase).
      rewrite cell_app_l by (rewrite HF, !length_app; simpl; destruct (Hshape lr Hlr); lia).
      rewrite Hc. unfold CI.
      destruct Hcase as [(Hz & -> & _)|(Hp & -> & _)]; cbn [fillna0 isna astype_int]; [|done].
      by rewrite Hz. }
  cbn [mbind res_bind].
  rewrite (set_column_fmap_old (cols ++ ["has_claim"]) (λ lr, F lr ++ [H lr]) CI (rows s)
             "claim_count" (n + o)) by (by apply col_index_app_l).
  (* total_claim_amount *)
  rewrite (get_column_fmap (cols ++ ["has_claim"]) (λ lr, <[(n + o)%nat:=CI lr]> (F lr ++ [H lr]))
             (rows s) "total_claim_amount" (n + S o)) by (by apply col_index_app_l).
  cbn [mbind res_bind]. rewrite <- list_fmap_compose.
  rewrite (set_column_fmap_old (cols ++ ["has_claim"])
             (λ lr, <[(n + o)%nat:=CI lr]> (F lr ++ [H lr])) _ (rows s)
             "total_claim_amount" (n + S o)) by (by apply col_index_app_l).
  eexists _, _, o. split; [reflexivity|]. split_and!.
  - by apply col_index_app_l.
  - by apply col_index_app_l.
  - rewrite col_index_app_r by (by apply col_index_None).
    assert (length cols = (n + (o + 4))%nat) as ->.
    { unfold cols, suffix_overlap. rewrite length_app, !length_fmap. fold n. lia. }
    cbn [col_index]. rewrite bool_decide_eq_true_2 by done. simpl. f_equal. lia.
  - intros lr Hlr.
    destruct (Hshape lr Hlr) as (Hn & pre & ccv & tcav & tl & tp & HF & Hpre & Hcase).
    exists pre, (fillna0 tcav), tl, tp.
    fold (N lr). split_and!; [|done| |].
    + cbn [compose]. rewrite HF, <- Hn, <- Hpre.
      replace ((lr ++ pre ++ [ccv; tcav; tl; tp]) ++ [H lr])
        with (lr ++ pre ++ [ccv; tcav; tl; tp; H lr])
        by (by rewrite <- !app_assoc).
      apply merged_row.
    + destruct Hcase as [(Hz & _ & ->)|(_ & _ & Hna & Ha)];
        [|rewrite Ha; unfold fillna0; by rewrite Hna].
      unfold N in Hz. apply length_zero_iff_nil in Hz. rewrite Hz.
      unfold agg_sum_or_size.
      destruct (col_index "Total Auth Amount" (columns c)); reflexivity.
    + by destruct Hcase as [(_ & _ & ->)|(_ & _ & Hna & _)]; [|destruct tcav].
Qed.


Lemma merged_unlinked_rows s :
  (∀ name, name ∈ merge_names → name ∉ columns s) →
  merged_unlinked s
  = mkDF (columns s ++ ["has_claim"; "claim_count"; "total_claim_amount"])
         ((λ lr, lr ++ [VBool false; VInt 0; VInt 0]) <$> rows s).
Proof.
  intros Hfresh. unfold merged_unlinked.
  assert (Hcc : "claim_count" ∉ columns s) by (apply Hfresh; by apply (bool_decide_unpack _)).
  assert (Htc : "total_claim_amount" ∉ columns s) by (apply Hfresh; by apply (bool_decide_unpack _)).
  assert (Hhc : "has_claim" ∉ columns s) by (apply Hfresh; by apply (bool_decide_unpack _)).
  rewrite (set_column_scalar_new s "has_claim") by done.
  rewrite (set_column_scalar_new _ "claim_count")
    by (cbn [columns]; rewrite elem_of_app, list_elem_of_singleton; by intros [?|?]).
  rewrite (set_column_scalar_new _ "total_claim_amount")
    by (cbn [columns]; rewrite !elem_of_app, !list_elem_of_singleton; by intros [[?|?]|?]).
  cbn [columns rows]. rewrite <- !app_assoc. f_equal.
  rewrite <- !list_fmap_compose. apply fmap_ext_in. intros lr _.
  cbn [compose]. by rewrite <- !app_assoc.
Qed.

(** The total the specification states for a group of claims: the sum of
    its ['Total Auth Amount'] cells; a claims table without the column has
    no such cells. *)
Definition stated_total (c : DataFrame) (g : list row) : res value :=
  col_sum match col_index "Total Auth Amount" (columns c) with
          | Some ja => cell ja <$> g
          | None => []
          end.


End MergeView.


Example demo_merged_view :
  ∃ m, merged_view demo_sales demo_claims = Ok m ∧
       get_column m "claim_count" = Ok [VInt 2; VInt 0; VInt 0] ∧
       get_column m "has_claim" = Ok [VBool true; VBool false; VBool false] ∧
       get_column m "total_claim_amount" = Ok [VFloat (Z2Qc 150); VInt 0; VInt 0].
Proof.
  eexists. split; [vm_compute; reflexivity|]. split_and!; vm_compute; repeat qc_step; reflexivity.
Qed.

